(** * ZunkDB chunk back-end (chunk-db-zdb.c): request engine and node cache

    A shallow embedding of [chunk-db-zdb.c].  Process-wide state (the idle
    node cache, the dead list, [cache_count]) and the per-call [request]
    live in one [world] record that every function threads explicitly.
    Everything that the C code obtains from outside (the wall clock, the
    outcome of [malloc], [socket], [connect], the frames delivered by the
    event loop) is an explicit input, so every definition is executable. *)

From Stdlib Require Import ZArith List String Ascii Bool Lia.
From Stdlib Require Import Strings.Byte.
Import ListNotations.
Open Scope Z_scope.

(** ** Machine integers and errno values *)

Definition u32 (z : Z) : Z := z mod 2 ^ 32.
Definition u16 (z : Z) : Z := z mod 2 ^ 16.

Definition EIO : Z := 5.
Definition ENOMEM : Z := 12.
Definition EINVAL : Z := 22.
Definition ETIMEDOUT : Z := 110.

Definition CACHE_MAX : Z := 100.

(** ** C strings

    Wire data and spec strings are [string]s of arbitrary bytes.  A C string
    function only sees the bytes before the first NUL. *)

Definition NUL : ascii := Ascii.zero.

Fixpoint cstr (s : string) : string :=
  match s with
  | EmptyString => EmptyString
  | String c r => if Ascii.eqb c NUL then EmptyString else String c (cstr r)
  end.

(** [msg += n]: the pointer moved [n] bytes forward.  Moving past the end of
    the copied message is outside the buffer in C; the model reads an empty
    string there. *)
Fixpoint skip (n : nat) (s : string) : string :=
  match n, s with
  | O, _ => s
  | S _, EmptyString => EmptyString
  | S k, String _ r => skip k r
  end.

(** [strchr s c] followed by [*p++ = 0]: the text before the first [c] and
    the text after it; [None] when [c] does not occur. *)
Fixpoint split_at (c : ascii) (s : string) : option (string * string) :=
  match s with
  | EmptyString => None
  | String d r =>
      if Ascii.eqb d c then Some (EmptyString, r)
      else match split_at c r with
           | Some (a, b) => Some (String d a, b)
           | None => None
           end
  end.

(** Repeated [strsep(&s, ",")]: every token, empty ones included. *)
Fixpoint strsep_all (cur : string) (s : string) : list string :=
  match s with
  | EmptyString => [cur]
  | String d r =>
      if Ascii.eqb d ","%char then cur :: strsep_all EmptyString r
      else strsep_all (String.append cur (String d EmptyString)) r
  end.

(** *** [atoi] of the C library: optional white space, optional sign, then
    decimal digits; the value is an [int]. *)

Definition isspace (c : ascii) : bool :=
  let n := nat_of_ascii c in
  (Nat.eqb n 32 || (Nat.leb 9 n && Nat.leb n 13))%bool.

Definition isdigit (c : ascii) : bool :=
  let n := nat_of_ascii c in (Nat.leb 48 n && Nat.leb n 57)%bool.

Definition digit_val (c : ascii) : Z := Z.of_nat (nat_of_ascii c) - 48.

Fixpoint digits (acc : Z) (s : string) : Z :=
  match s with
  | String c r => if isdigit c then digits (10 * acc + digit_val c) r else acc
  | EmptyString => acc
  end.

Fixpoint skip_space (s : string) : string :=
  match s with
  | String c r => if isspace c then skip_space r else s
  | EmptyString => s
  end.

Definition s32 (z : Z) : Z := (z + 2 ^ 31) mod 2 ^ 32 - 2 ^ 31.

Definition atoi (s : string) : Z :=
  match skip_space s with
  | String "-"%char r => s32 (- digits 0 r)
  | String "+"%char r => s32 (digits 0 r)
  | t => s32 (digits 0 t)
  end.

(** [htons] on a little-endian host: the low 16 bits, bytes swapped. *)
Definition htons (z : Z) : Z :=
  let v := u16 z in Z.lor (Z.shiftl (Z.land v 255) 8) (Z.shiftr v 8).

(** ** Addresses and time *)

Record sockaddr_in := mk_addr { sin_addr : Z; sin_port : Z }.

Definition same_addr (a b : sockaddr_in) : bool :=
  ((sin_addr a =? sin_addr b) && (sin_port a =? sin_port b))%bool.

Record timeval := mk_tv { tv_sec : Z; tv_usec : Z }.

(** [timercmp(a, b, >)] *)
Definition timercmp_gt (a b : timeval) : bool :=
  if tv_sec a =? tv_sec b then tv_usec b <? tv_usec a
  else tv_sec b <? tv_sec a.

Record zdb_info := mk_info {
  start_node : sockaddr_in;
  timeout : timeval;
  max_concurrency : Z }.

(** ** Nodes, requests and the world *)

(** [struct node].  [node_id] stands for the address of the allocated
    struct; [attached] is [node->request != NULL]; [connect_pending] is
    [event_pending(&node->connect_event, EV_WRITE, NULL)]; [bev_enabled] is
    the read/write enable state of [node->bev]; [input] and [output] are the
    buffers of [node->bev]. *)
Record node := mk_node {
  node_id : nat;
  addr : sockaddr_in;
  sk : Z;
  sk_open : bool;
  bev_enabled : bool;
  connect_pending : bool;
  attached : bool;
  stamp : timeval;
  input : string;
  output : string }.

Definition set_sk_open (b : bool) (n : node) : node :=
  mk_node (node_id n) (addr n) (sk n) b (bev_enabled n) (connect_pending n)
          (attached n) (stamp n) (input n) (output n).
Definition set_bev_enabled (b : bool) (n : node) : node :=
  mk_node (node_id n) (addr n) (sk n) (sk_open n) b (connect_pending n)
          (attached n) (stamp n) (input n) (output n).
Definition set_connect_pending (b : bool) (n : node) : node :=
  mk_node (node_id n) (addr n) (sk n) (sk_open n) (bev_enabled n) b
          (attached n) (stamp n) (input n) (output n).
Definition set_attached (b : bool) (n : node) : node :=
  mk_node (node_id n) (addr n) (sk n) (sk_open n) (bev_enabled n)
          (connect_pending n) b (stamp n) (input n) (output n).
Definition set_stamp (t : timeval) (n : node) : node :=
  mk_node (node_id n) (addr n) (sk n) (sk_open n) (bev_enabled n)
          (connect_pending n) (attached n) t (input n) (output n).
Definition set_input (s : string) (n : node) : node :=
  mk_node (node_id n) (addr n) (sk n) (sk_open n) (bev_enabled n)
          (connect_pending n) (attached n) (stamp n) s (output n).
Definition set_output (s : string) (n : node) : node :=
  mk_node (node_id n) (addr n) (sk n) (sk_open n) (bev_enabled n)
          (connect_pending n) (attached n) (stamp n) (input n) s.

(** [struct request].  [chunk] is [request.chunk != NULL].  [addr_count] is
    kept as the length of [addr_list] and [addr_index] as a position in it,
    so neither wraps; the counters [addr_concurrency] and [done] are
    32-bit. *)
Record request := mk_request {
  chunk : bool;
  node_list : list node;
  addr_list : list sockaddr_in;
  addr_index : Z;
  addr_concurrency : Z;
  done : Z }.

Definition addr_count (r : request) : Z := Z.of_nat (List.length (addr_list r)).

Definition set_chunk (b : bool) (r : request) : request :=
  mk_request b (node_list r) (addr_list r) (addr_index r)
             (addr_concurrency r) (done r).
Definition set_node_list (l : list node) (r : request) : request :=
  mk_request (chunk r) l (addr_list r) (addr_index r)
             (addr_concurrency r) (done r).
Definition set_addr_list (l : list sockaddr_in) (r : request) : request :=
  mk_request (chunk r) (node_list r) l (addr_index r)
             (addr_concurrency r) (done r).
Definition set_addr_index (z : Z) (r : request) : request :=
  mk_request (chunk r) (node_list r) (addr_list r) z
             (addr_concurrency r) (done r).
Definition set_addr_concurrency (z : Z) (r : request) : request :=
  mk_request (chunk r) (node_list r) (addr_list r) (addr_index r) z (done r).
Definition set_done (z : Z) (r : request) : request :=
  mk_request (chunk r) (node_list r) (addr_list r) (addr_index r)
             (addr_concurrency r) z.

(** The state one call of [send_request] sees: the process-wide lists
    [node_cache] (most recently inserted first) and [dead_nodes] with
    [cache_count], the request, the caller's chunk buffer, the one-shot
    deadline timer, and three observers that the C code has no variable
    for: the next fresh node identity, the number of [socket] calls made,
    and the nodes handed to [free]. *)
Record world := mk_world {
  node_cache : list node;
  dead_nodes : list node;
  cache_count : Z;
  rq : request;
  chunk_buf : list byte;
  timeout_pending : bool;
  next_node : nat;
  sock_calls : nat;
  freed : list node }.

Definition set_node_cache (l : list node) (w : world) : world :=
  mk_world l (dead_nodes w) (cache_count w) (rq w) (chunk_buf w)
           (timeout_pending w) (next_node w) (sock_calls w) (freed w).
Definition set_dead_nodes (l : list node) (w : world) : world :=
  mk_world (node_cache w) l (cache_count w) (rq w) (chunk_buf w)
           (timeout_pending w) (next_node w) (sock_calls w) (freed w).
Definition set_cache_count (z : Z) (w : world) : world :=
  mk_world (node_cache w) (dead_nodes w) z (rq w) (chunk_buf w)
           (timeout_pending w) (next_node w) (sock_calls w) (freed w).
Definition set_rq (r : request) (w : world) : world :=
  mk_world (node_cache w) (dead_nodes w) (cache_count w) r (chunk_buf w)
           (timeout_pending w) (next_node w) (sock_calls w) (freed w).
Definition set_chunk_buf (b : list byte) (w : world) : world :=
  mk_world (node_cache w) (dead_nodes w) (cache_count w) (rq w) b
           (timeout_pending w) (next_node w) (sock_calls w) (freed w).
Definition set_timeout_pending (b : bool) (w : world) : world :=
  mk_world (node_cache w) (dead_nodes w) (cache_count w) (rq w) (chunk_buf w)
           b (next_node w) (sock_calls w) (freed w).
Definition set_next_node (k : nat) (w : world) : world :=
  mk_world (node_cache w) (dead_nodes w) (cache_count w) (rq w) (chunk_buf w)
           (timeout_pending w) k (sock_calls w) (freed w).
Definition set_sock_calls (k : nat) (w : world) : world :=
  mk_world (node_cache w) (dead_nodes w) (cache_count w) (rq w) (chunk_buf w)
           (timeout_pending w) (next_node w) k (freed w).
Definition set_freed (l : list node) (w : world) : world :=
  mk_world (node_cache w) (dead_nodes w) (cache_count w) (rq w) (chunk_buf w)
           (timeout_pending w) (next_node w) (sock_calls w) l.

Definition upd_rq (f : request -> request) (w : world) : world :=
  set_rq (f (rq w)) w.

(** ** Node lists *)

Definition node_is_addr (n : node) (sa : sockaddr_in) : bool :=
  same_addr (addr n) sa.

Definition same_node (n m : node) : bool := Nat.eqb (node_id m) (node_id n).

(** [list_del(&node->node_entry)] on one list: the entry of this node goes. *)
Definition unlink (n : node) (l : list node) : list node :=
  filter (fun m => negb (same_node n m)) l.

(** [list_del]: a node is linked into one list; it is unlinked from
    whichever of the three lists holds it. *)
Definition list_del (n : node) (w : world) : world :=
  set_node_cache (unlink n (node_cache w))
    (set_dead_nodes (unlink n (dead_nodes w))
       (upd_rq (fun r => set_node_list (unlink n (node_list r)) r) w)).

(** The node's fields are overwritten where it is linked. *)
Definition store (n : node) (l : list node) : list node :=
  map (fun m => if same_node n m then n else m) l.

Definition update_node (n : node) (w : world) : world :=
  upd_rq (fun r => set_node_list (store n (node_list r)) r) w.

Fixpoint lookup (id : nat) (l : list node) : option node :=
  match l with
  | [] => None
  | n :: r => if Nat.eqb (node_id n) id then Some n else lookup id r
  end.

Definition free_node (n : node) (w : world) : world :=
  let w1 := if attached n
            then upd_rq (fun r =>
                   set_addr_concurrency (u32 (addr_concurrency r - 1)) r) w
            else w in
  let w2 := list_del n w1 in
  set_freed (set_sk_open false n :: freed w2) w2.

(** ** The node cache: [find_node] and [__cache_node] *)

Inductive found := Hit (n : node) | Dead | Miss.

Fixpoint scan_cache (sa : sockaddr_in) (l : list node) : option node :=
  match l with
  | [] => None
  | n :: r => if node_is_addr n sa then Some n else scan_cache sa r
  end.

(** The sweep of [dead_nodes]: entries whose stamp has passed are freed on
    the way; the first live entry with the address stops the sweep. *)
Fixpoint scan_dead (now : timeval) (sa : sockaddr_in) (l : list node)
    (w : world) : bool * world :=
  match l with
  | [] => (false, w)
  | n :: r =>
      if timercmp_gt now (stamp n) then scan_dead now sa r (free_node n w)
      else if node_is_addr n sa then (true, w)
      else scan_dead now sa r w
  end.

Definition find_node (now : timeval) (sa : sockaddr_in) (w : world)
    : found * world :=
  match scan_cache sa (node_cache w) with
  | Some n =>
      (Hit n, list_del n (set_cache_count (u32 (cache_count w - 1)) w))
  | None =>
      match scan_dead now sa (dead_nodes w) w with
      | (true, w') => (Dead, w')
      | (false, w') => (Miss, w')
      end
  end.

Definition add_sec (t : timeval) (s : Z) : timeval :=
  mk_tv (tv_sec t + s) (tv_usec t).

Definition __cache_node (now : timeval) (n : node) (w : world) : world :=
  let n1 := set_bev_enabled false (set_attached false n) in
  let w1 := list_del n w in
  if connect_pending n then
    let n2 := set_stamp (add_sec now 60)
                (set_sk_open false (set_connect_pending false n1)) in
    set_dead_nodes (n2 :: dead_nodes w1) w1
  else
    let w2 := set_cache_count (u32 (cache_count w1 + 1))
                (set_node_cache (n1 :: node_cache w1) w1) in
    if CACHE_MAX <? cache_count w2 then
      let w3 := free_node (last (node_cache w2) n1) w2 in
      set_cache_count (u32 (cache_count w3 - 1)) w3
    else w2.

Definition cache_node := __cache_node.

(** ** Candidate addresses *)

Definition __store_node (realloc_ok : bool) (a : sockaddr_in) (r : request)
    : request :=
  if existsb (same_addr a) (addr_list r) then r
  else if realloc_ok then set_addr_list (addr_list r ++ [a]) r
  else r.

(** ** Frames *)

Definition CR : ascii := ascii_of_nat 13.
Definition LF : ascii := ascii_of_nat 10.

(** Repeated [evbuffer_find(input, "\r\n", 2)] and [evbuffer_drain]: the
    complete lines of the input, in order, and the unterminated rest. *)
Fixpoint split_lines (cur : string) (s : string) : list string * string :=
  match s with
  | EmptyString => ([], cur)
  | String c r =>
      match r with
      | String d r' =>
          if (Ascii.eqb c CR && Ascii.eqb d LF)%bool
          then let (ls, rest) := split_lines EmptyString r' in (cur :: ls, rest)
          else split_lines (String.append cur (String c EmptyString)) r
      | EmptyString => ([], String.append cur (String c EmptyString))
      end
  end.

Definition FIND_CHUNK : string := "find_chunk".
Definition STORE_CHUNK : string := "store_chunk".
Definition REQUEST_DONE : string := "request_done".
Definition STORE_NODE : string := "store_node".
Definition FIND_CHUNK_LEN : nat := String.length FIND_CHUNK.
Definition STORE_CHUNK_LEN : nat := String.length STORE_CHUNK.
Definition REQUEST_DONE_LEN : nat := String.length REQUEST_DONE.
Definition STORE_NODE_LEN : nat := String.length STORE_NODE.

Definition CRLF : string := String CR (String LF EmptyString).

(** ** What the environment decides *)

(** The outcome of the [connect] retry loop of [try_connect]: success or
    [EISCONN]; [EALREADY] or [EINPROGRESS]; any other errno.  [EINTR]
    retries are folded into the final outcome. *)
Inductive connect_result := Connected | InProgress | Refused.

(** What one call of [send_request_to] meets: the clock read by
    [find_node], whether [malloc] returns a node, the descriptor from
    [socket], whether [bufferevent_new] returns a buffer, the first
    [connect], and the clock read if that connect is refused. *)
Record dispatch_outcome := mk_dispatch {
  d_now : timeval;
  d_malloc : bool;
  d_socket : option Z;
  d_bev : bool;
  d_connect : connect_result;
  d_now_refused : timeval }.

(** One callback run by the event loop.  [EvRead id data ok now]: [data]
    arrives on node [id] and [readcb] runs; [ok k] tells whether the
    [realloc] made for the [k]-th line succeeds, [now] is the clock.
    [EvError id]: [errorcb].  [EvConnect id res now]: the socket of node
    [id] became writable and [try_connect] runs. *)
Inductive event :=
| EvRead (id : nat) (data : string) (realloc_ok : nat -> bool) (now : timeval)
| EvError (id : nat)
| EvConnect (id : nat) (res : connect_result) (now : timeval).

(** One call of [event_base_loop(base, EVLOOP_ONCE)]: the callbacks it
    runs, whether the deadline timer fires in it, and whether it returns
    non-zero. *)
Record step := mk_step {
  st_events : list event;
  st_timeout : bool;
  st_loop_err : bool }.

Record environment := mk_env {
  e_evbuf_ok : bool;
  e_printf_ok : bool;
  e_base_ok : bool;
  e_realloc_ok : bool;
  e_dispatch : nat -> dispatch_outcome;
  e_steps : list step;
  e_final_clock : nat -> timeval }.

(** What the file takes from headers and libraries that are not part of
    it: [CHUNK_SIZE] and [verify_chunk] (zunkfs.h), [digest_string]
    (utils.h), the Base64 codec (base64.h) and [inet_aton] of the C library,
    which gives the address in network order or [None] when it rejects the
    text. *)
Class Externals := {
  CHUNK_SIZE : Z;
  verify_chunk : list byte -> list byte -> bool;
  digest_string : list byte -> string;
  base64_decode : string -> list byte -> list byte;
  base64_encode : list byte -> string;
  inet_aton : string -> option Z }.

Section Engine.

Context {X : Externals}.

Definition store_node (realloc_ok : bool) (addr_str : string) (r : request)
    : request :=
  match split_at ":"%char addr_str with
  | None => r
  | Some (host, port) =>
      let p := htons (atoi port) in
      match inet_aton host with
      | None => r
      | Some ip => __store_node realloc_ok (mk_addr ip p) r
      end
  end.

(** [proc_msg]: the result is the [drain_all] flag. *)
Definition proc_msg (digest : list byte) (realloc_ok : bool) (now : timeval)
    (buf : string) (n : node) (w : world) : bool * world :=
  if prefix STORE_CHUNK buf then
    let msg := cstr (skip (STORE_CHUNK_LEN + 1) buf) in
    if chunk (rq w)
    then (false, upd_rq (set_chunk false)
                   (set_chunk_buf (base64_decode msg (chunk_buf w)) w))
    else (false, w)
  else if prefix REQUEST_DONE buf then
    let msg := cstr (skip (REQUEST_DONE_LEN + 1) buf) in
    if String.eqb msg (digest_string digest) then
      let w1 := upd_rq (fun r =>
                  set_addr_concurrency (u32 (addr_concurrency r - 1))
                    (set_done (u32 (done r + 1)) r)) w in
      (true, cache_node now n w1)
    else (false, w)
  else if prefix STORE_NODE buf then
    let msg := cstr (skip (STORE_NODE_LEN + 1) buf) in
    (false, upd_rq (store_node realloc_ok msg) w)
  else (false, w).

(** The loop of [readcb] over the complete lines; [k] counts them. *)
Fixpoint readcb_lines (digest : list byte) (realloc_ok : nat -> bool)
    (now : timeval) (lines : list string) (k : nat) (drain_all : bool)
    (n : node) (w : world) : world :=
  match lines with
  | [] => w
  | l :: rest =>
      if drain_all then readcb_lines digest realloc_ok now rest (S k) true n w
      else
        let (d, w') := proc_msg digest (realloc_ok k) now l n w in
        readcb_lines digest realloc_ok now rest (S k) d n w'
  end.

(** [readcb] drains every complete line whatever [proc_msg] answers, so
    the input buffer is cut down first and the lines are processed next. *)
Definition readcb (digest : list byte) (data : string)
    (realloc_ok : nat -> bool) (now : timeval) (n : node) (w : world)
    : world :=
  let (lines, rest) :=
    split_lines EmptyString (String.append (input n) data) in
  let n' := set_input rest n in
  readcb_lines digest realloc_ok now lines 0 false n' (update_node n' w).

Definition errorcb (n : node) (w : world) : world := free_node n w.

Definition try_connect (res : connect_result) (now : timeval) (n : node)
    (w : world) : world :=
  match res with
  | Connected => update_node (set_bev_enabled true n) w
  | InProgress => update_node (set_connect_pending true n) w
  | Refused =>
      let n' := set_connect_pending true n in
      cache_node now n' (update_node n' w)
  end.

Definition write_request (payload : string) (n : node) (w : world)
    : node * world :=
  let n' := set_output (String.append (output n) payload)
              (set_attached true n) in
  (n', upd_rq (fun r => set_node_list (n' :: node_list r) r) w).

Definition send_request_to (payload : string) (o : dispatch_outcome)
    (sa : sockaddr_in) (w : world) : Z * world :=
  match find_node (d_now o) sa w with
  | (Dead, w1) => (- EINVAL, w1)
  | (Hit n, w1) =>
      let (n', w2) := write_request payload n w1 in
      (0, update_node (set_bev_enabled true n') w2)
  | (Miss, w1) =>
      if negb (d_malloc o) then (- ENOMEM, w1)
      else
        let w2 := set_sock_calls (S (sock_calls w1)) w1 in
        match d_socket o with
        | None => (- EIO, w2)
        | Some fd =>
            if negb (d_bev o) then (- EIO, w2)
            else
              let n := mk_node (next_node w2) sa fd true false false false
                         (mk_tv 0 0) EmptyString EmptyString in
              let (n', w3) :=
                write_request payload n
                  (set_next_node (S (next_node w2)) w2) in
              (0, try_connect (d_connect o) (d_now_refused o) n' w3)
        end
  end.

(** ** The request engine *)

Section Request.

Variable payload : string.
Variable db_info : zdb_info.
Variable digest : list byte.
(** [chunk_arg] is [chunk != NULL]: true for a read, false for a write. *)
Variable chunk_arg : bool.
Variable denv : nat -> dispatch_outcome.

(** The inner [while] of [send_request], over the candidates from the
    cursor on; the outcome of a dispatch is looked up by cursor position. *)
Fixpoint dispatch_loop (todo : list sockaddr_in) (w : world) : world :=
  match todo with
  | [] => w
  | a :: rest =>
      if max_concurrency db_info <=? addr_concurrency (rq w) then w
      else
        let (_, w1) :=
          send_request_to payload (denv (Z.to_nat (addr_index (rq w)))) a w in
        dispatch_loop rest
          (upd_rq (fun r =>
             set_addr_concurrency (u32 (addr_concurrency r + 1))
               (set_addr_index (addr_index r + 1) r)) w1)
  end.

Definition dispatch (w : world) : world :=
  dispatch_loop (skipn (Z.to_nat (addr_index (rq w))) (addr_list (rq w))) w.

(** A callback runs only for a node that is on this request's list with
    the matching watcher armed; the one-shot connect watcher is removed
    before [try_connect] is called. *)
Definition run_event (e : event) (w : world) : world :=
  match e with
  | EvRead id data ok now =>
      match lookup id (node_list (rq w)) with
      | Some n => if bev_enabled n then readcb digest data ok now n w else w
      | None => w
      end
  | EvError id =>
      match lookup id (node_list (rq w)) with
      | Some n => if bev_enabled n then errorcb n w else w
      | None => w
      end
  | EvConnect id res now =>
      match lookup id (node_list (rq w)) with
      | Some n =>
          if connect_pending n then
            let n' := set_connect_pending false n in
            try_connect res now n' (update_node n' w)
          else w
      | None => w
      end
  end.

Definition event_base_loop (s : step) (w : world) : world :=
  let w1 := fold_left (fun w e => run_event e w) (st_events s) w in
  if st_timeout s then set_timeout_pending false w1 else w1.

(** [request.chunk = chunk; request.done --]: the chunk pointer is armed
    again and one [done] is taken back. *)
Definition rearm (w : world) : world :=
  upd_rq (fun r => set_done (u32 (done r - 1)) (set_chunk chunk_arg r)) w.

(** The [for (;;)] of [send_request].  The result pairs the worlds in which
    the call blocked in [event_base_loop] (its suspension points, oldest
    first) with the value of [err] and the world at the [break]; [None]
    means the script of steps ended while the call was still blocked. *)
Fixpoint request_loop (steps : list step) (err : Z) (w : world)
    : list world * option (Z * world) :=
  let w1 := dispatch w in
  if negb (timeout_pending w1) then ([], Some (- ETIMEDOUT, w1))
  else match node_list (rq w1) with
  | [] => ([], Some (err, w1))
  | _ :: _ =>
    match steps with
    | [] => ([w1], None)
    | s :: rest =>
        let w2 := event_base_loop s w1 in
        if st_loop_err s then ([w1], Some (err, w2))
        else if done (rq w2) =? 0 then
          let (tr, res) := request_loop rest err w2 in (w1 :: tr, res)
        else if negb chunk_arg then
          let (tr, res) := request_loop rest CHUNK_SIZE w2 in (w1 :: tr, res)
        else if (negb (chunk (rq w2))
                 && verify_chunk (chunk_buf w2) digest)%bool then
          ([w1], Some (CHUNK_SIZE, w2))
        else
          let (tr, res) := request_loop rest err (rearm w2) in (w1 :: tr, res)
    end
  end.

(** The final [while (!list_empty(&request.node_list))]. *)
Fixpoint release_all (fuel : nat) (clock : nat -> timeval) (k : nat)
    (w : world) : world :=
  match fuel with
  | O => w
  | S f =>
      match node_list (rq w) with
      | [] => w
      | n :: _ => release_all f clock (S k) (__cache_node (clock k) n w)
      end
  end.

End Request.

Definition init_request (chunk : bool) : request :=
  mk_request chunk [] [] 0 0 0.

(** The request as the loop of [send_request] first sees it: the start
    node stored as the only candidate and the deadline timer armed. *)
Definition request_start (db_info : zdb_info) (chunk : bool)
    (realloc_ok : bool) (w : world) : world :=
  set_timeout_pending true
    (upd_rq (__store_node realloc_ok (start_node db_info))
       (set_rq (init_request chunk) w)).

Definition send_request (payload : string) (db_info : zdb_info)
    (digest : list byte) (chunk : bool) (env : environment) (w : world)
    : list world * option (Z * world) :=
  if negb (e_base_ok env)
  then ([], Some (- EIO, set_rq (init_request chunk) w))
  else
    let (tr, res) :=
      request_loop payload db_info digest chunk (e_dispatch env)
                   (e_steps env) (- EIO)
                   (request_start db_info chunk (e_realloc_ok env) w) in
    match res with
    | None => (tr, None)
    | Some (err, w3) =>
        (tr, Some (err, release_all (List.length (node_list (rq w3)))
                          (e_final_clock env) 0 w3))
    end.

Definition zdb_read_chunk (digest : list byte) (db_info : zdb_info)
    (env : environment) (w : world) : list world * option (Z * world) :=
  if negb (e_evbuf_ok env) then ([], Some (- ENOMEM, w))
  else if negb (e_printf_ok env) then ([], Some (- EIO, w))
  else
    let payload :=
      String.append FIND_CHUNK
        (String " " (String.append (digest_string digest) CRLF)) in
    send_request payload db_info digest true env w.

Definition zdb_write_chunk (chunk : list byte) (digest : list byte)
    (db_info : zdb_info) (env : environment) (w : world)
    : list world * option (Z * world) :=
  if negb (e_evbuf_ok env) then ([], Some (- ENOMEM, w))
  else if negb (e_printf_ok env) then ([], Some (- EIO, w))
  else
    let payload :=
      String.append STORE_CHUNK
        (String " " (String.append (base64_encode chunk) CRLF)) in
    send_request payload db_info digest false env w.

(** ** Construction from a spec string *)

Definition set_start_port (p : Z) (zi : zdb_info) : zdb_info :=
  mk_info (mk_addr (sin_addr (start_node zi)) p) (timeout zi)
          (max_concurrency zi).
Definition set_start_addr (a : Z) (zi : zdb_info) : zdb_info :=
  mk_info (mk_addr a (sin_port (start_node zi))) (timeout zi)
          (max_concurrency zi).
Definition set_timeout_sec (s : Z) (zi : zdb_info) : zdb_info :=
  mk_info (start_node zi) (mk_tv s (tv_usec (timeout zi)))
          (max_concurrency zi).
Definition set_max_concurrency (c : Z) (zi : zdb_info) : zdb_info :=
  mk_info (start_node zi) (timeout zi) c.

(** The first option, [<addr>:<port>]. *)
Definition parse_first (opt : string) (zi : zdb_info) : Z * zdb_info :=
  match split_at ":"%char opt with
  | None => (- EINVAL, zi)
  | Some (a, port) =>
      let zi1 := set_start_port (htons (atoi port)) zi in
      match inet_aton a with
      | None => (- EINVAL, zi1)
      | Some ip => (0, set_start_addr ip zi1)
      end
  end.

(** Any later option. *)
Definition parse_opt (opt : string) (zi : zdb_info) : Z * zdb_info :=
  if prefix "timeout=" opt then
    let zi1 := set_timeout_sec (atoi (skip 8 opt)) zi in
    if tv_sec (timeout zi1) =? 0 then (- EINVAL, zi1) else (0, zi1)
  else if prefix "concurrency=" opt then
    let zi1 := set_max_concurrency (u32 (atoi (skip 12 opt))) zi in
    if max_concurrency zi1 =? 0 then (- EINVAL, zi1) else (0, zi1)
  else (- EINVAL, zi).

Fixpoint parse_opts (opts : list string) (opt_count : nat) (zi : zdb_info)
    : Z * zdb_info :=
  match opts with
  | [] => (0, zi)
  | opt :: rest =>
      let (e, zi') :=
        if Nat.eqb opt_count 0 then parse_first opt zi else parse_opt opt zi in
      if e =? 0 then parse_opts rest (S opt_count) zi' else (e, zi')
  end.

(** [parse_spec].  The C code copies the spec into a buffer two bytes too
    short; the model works on the whole spec. *)
Definition parse_spec (spec : string) (zi : zdb_info) : Z * zdb_info :=
  match strsep_all EmptyString spec with
  | [] => (- EINVAL, zi)
  | opts => parse_opts opts 0 zi
  end.

(** The constructor's three outcomes: [NULL], [ERR_PTR(e)], or a handle
    with its [zdb_info] and whether [write_chunk] is set. *)
Inductive ctor_result :=
| CtorNull
| CtorErr (e : Z)
| CtorOk (info : zdb_info) (can_write : bool).

(** [mode_rw] is [mode == CHUNKDB_RW].  The start node of the fresh
    [zdb_info] is whatever [malloc] left there; the model puts zeros. *)
Definition zdb_chunkdb_ctor (malloc_ok : bool) (mode_rw : bool)
    (spec : string) : ctor_result :=
  let spec := cstr spec in
  if negb (prefix "zunkdb:" spec) then CtorNull
  else if negb malloc_ok then CtorErr ENOMEM
  else
    let zi := mk_info (mk_addr 0 0) (mk_tv 60 0) (u32 (-1)) in
    match parse_spec (skip 7 spec) zi with
    | (e, zi') => if e =? 0 then CtorOk zi' mode_rw else CtorErr e
    end.

End Engine.

(** ** A concrete instance, for running scenarios

    A stand-in for the external parts: chunks are sent as their own bytes,
    a chunk verifies when it equals the digest bytes, and only decimal
    dotted quads are accepted as addresses. *)

Fixpoint bytes_eqb (a b : list byte) : bool :=
  match a, b with
  | [], [] => true
  | x :: a', y :: b' => (Byte.eqb x y && bytes_eqb a' b')%bool
  | _, _ => false
  end.

Fixpoint all_digits (s : string) : bool :=
  match s with
  | EmptyString => true
  | String c r => (isdigit c && all_digits r)%bool
  end.

Definition octet (s : string) : option Z :=
  match s with
  | EmptyString => None
  | _ => if (all_digits s && (digits 0 s <=? 255))%bool
         then Some (digits 0 s) else None
  end.

Definition dotted_quad (s : string) : option Z :=
  match split_at "."%char s with
  | Some (a, r1) =>
    match split_at "."%char r1 with
    | Some (b, r2) =>
      match split_at "."%char r2 with
      | Some (c, d) =>
        match octet a, octet b, octet c, octet d with
        | Some a, Some b, Some c, Some d =>
            Some (a + 256 * b + 65536 * c + 16777216 * d)
        | _, _, _, _ => None
        end
      | None => None
      end
    | None => None
    end
  | None => None
  end.

Definition sample : Externals := {|
  CHUNK_SIZE := 65536;
  verify_chunk := bytes_eqb;
  digest_string := string_of_list_byte;
  base64_decode := fun msg _ => list_byte_of_string msg;
  base64_encode := string_of_list_byte;
  inet_aton := dotted_quad |}.

Definition t0 : timeval := mk_tv 1000 0.

Definition empty_world : world :=
  mk_world [] [] 0 (init_request false) [] false 0 0 [].

Definition peer (ip port : Z) : sockaddr_in := mk_addr ip (htons port).

Definition peerA : sockaddr_in := peer 16777343 7000.
Definition peerB : sockaddr_in := peer 33554442 7001.

Definition conf (c : Z) : zdb_info := mk_info peerA (mk_tv 60 0) c.

Definition digestD : list byte := list_byte_of_string "D".

Definition connects (r : connect_result) : dispatch_outcome :=
  mk_dispatch t0 true (Some 3) true r t0.

Definition quiet (evs : list event) : step := mk_step evs false false.
Definition deadline : step := mk_step [] true false.

Definition always : nat -> bool := fun _ => true.

Definition script (d : nat -> dispatch_outcome) (steps : list step)
    : environment :=
  mk_env true true true true d steps (fun _ => t0).

Definition line (s : string) : string := String.append s CRLF.

(** ** Predicates used in the statements *)

Fixpoint has_char (c : ascii) (s : string) : bool :=
  match s with
  | EmptyString => false
  | String d r => (Ascii.eqb d c || has_char c r)%bool
  end.


Definition ids (l : list node) : list nat := map node_id l.

(** The representation invariant of the node cache: the count matches the
    idle list, the bound holds, a node is linked at most once and never in
    both process-wide lists. *)
Definition cache_ok (w : world) : Prop :=
  cache_count w = Z.of_nat (List.length (node_cache w)) /\
  Z.of_nat (List.length (node_cache w)) <= CACHE_MAX /\
  NoDup (ids (node_cache w)) /\
  (forall d, In d (dead_nodes w) -> ~ In (node_id d) (ids (node_cache w))).

(** The nodes on the process-wide lists belong to no request. *)
Definition detached (l : list node) : Prop :=
  Forall (fun n => attached n = false) l.

(** Operations on the node cache, for statements about sequences of them.
    A release is well-formed when the node is not on the idle list already
    (it is on a request's list, or fresh). *)
Inductive cache_op :=
| Acquire (sa : sockaddr_in) (now : timeval)
| Release (n : node) (now : timeval).

Definition apply_op (w : world) (op : cache_op) : world :=
  match op with
  | Acquire sa now => snd (find_node now sa w)
  | Release n now => cache_node now n w
  end.

Definition idle (n : node) (w : world) : bool :=
  existsb (same_node n) (node_cache w).

Definition op_ok (w : world) (op : cache_op) : bool :=
  match op with
  | Acquire _ _ => true
  | Release n _ => negb (idle n w)
  end.

Fixpoint ops_ok (w : world) (ops : list cache_op) : bool :=
  match ops with
  | [] => true
  | op :: r => (op_ok w op && ops_ok (apply_op w op) r)%bool
  end.

(** The transitions of a run: the world before, the operation, the world
    after. *)
Fixpoint run_ops (w : world) (ops : list cache_op)
    : list (world * cache_op * world) :=
  match ops with
  | [] => []
  | op :: r => let w' := apply_op w op in (w, op, w') :: run_ops w' r
  end.

(** How a node looks once [__cache_node] has detached it. *)
Definition idle_form (n : node) : node :=
  set_bev_enabled false (set_attached false n).

Definition dead_form (now : timeval) (n : node) : node :=
  set_stamp (add_sec now 60)
    (set_sk_open false (set_connect_pending false (idle_form n))).

Definition counted (w : world) : Prop :=
  cache_count w = Z.of_nat (List.length (node_cache w)) /\
  Z.of_nat (List.length (node_cache w)) <= CACHE_MAX.

(** Releasing a connected node into a full idle list destroys the entry at
    the tail. *)
Definition evicts_tail (t : world * cache_op * world) : Prop :=
  match t with
  | (w, Release n now, w') =>
      connect_pending n = false ->
      Z.of_nat (List.length (node_cache w)) = CACHE_MAX ->
      node_cache w' = idle_form n :: removelast (node_cache w) /\
      freed w' = set_sk_open false (last (node_cache w) n) :: freed w
  | (_, Acquire _ _, _) => True
  end.

(** What the cache and connection code leaves alone in a request. *)
Definition keeps_request (w w' : world) : Prop :=
  chunk (rq w') = chunk (rq w) /\
  addr_list (rq w') = addr_list (rq w) /\
  addr_index (rq w') = addr_index (rq w) /\
  done (rq w') = done (rq w) /\
  chunk_buf w' = chunk_buf w /\
  timeout_pending w' = timeout_pending w.

(** What frame handling may do to the candidate list: the cursor stays,
    the list only grows, and it stays free of duplicates. *)
Definition extends (w w' : world) : Prop :=
  addr_index (rq w') = addr_index (rq w) /\
  (List.length (addr_list (rq w)) <= List.length (addr_list (rq w')))%nat /\
  (NoDup (addr_list (rq w)) -> NoDup (addr_list (rq w'))).

(** The size of the in-flight node set of the request. *)
Definition in_flight (w : world) : Z :=
  Z.of_nat (List.length (node_list (rq w))).

Definition both_detached (w : world) : Prop :=
  detached (node_cache w) /\ detached (dead_nodes w).

(** Cache and connection code on detached process-wide lists: the lists
    stay detached, the counter is not touched and the in-flight set does
    not grow. *)
Definition calm (w w' : world) : Prop :=
  both_detached w' /\
  addr_concurrency (rq w') = addr_concurrency (rq w) /\
  in_flight w' <= in_flight w.

(** Every node on the request's list has its slot counted, and the counter
    stays within the configured fan-out. *)
Definition slots_ok (maxc : Z) (w : world) : Prop :=
  in_flight w <= addr_concurrency (rq w) <= maxc.

Definition fanout_inv (maxc : Z) (w : world) : Prop :=
  both_detached w /\ slots_ok maxc w.

(** The cursor is a position in the candidate list. *)
Definition cursor_ok (w : world) : Prop :=
  0 <= addr_index (rq w) <= addr_count (rq w).

(** *** Scripted scenarios *)

Definition lines2 (a b : string) : string :=
  String.append (line a) (line b).

(** A read answered by one peer with a body and [request_done]. *)
Definition read_script : environment :=
  script (fun _ => connects Connected)
    [quiet [EvRead 0 (lines2 "store_chunk D" "request_done D") always t0]].

(** A write: the start node refers to a second peer and reports
    [request_done]; the second peer stays silent until the deadline. *)
Definition write_script : environment :=
  script (fun _ => connects Connected)
    [quiet [EvRead 0 (lines2 "store_node 10.0.0.2:7001" "request_done D")
              always t0];
     deadline].


(** A read with fan-out 1: the start node names two peers and its
    connection breaks; the first of the two is on the dead list. *)
Definition stranded_script : environment :=
  script (fun _ => connects Connected)
    [quiet [EvRead 8 (lines2 "store_node 10.0.0.2:7001"
                             "store_node 10.0.0.3:7002") always t0;
            EvError 8]].

(** A read whose start node refuses the connection. *)
Definition refused_script : environment :=
  script (fun _ => connects Refused) [].

(** A read with fan-out 4: the start node names one peer, which is on the
    dead list; the call is then left waiting. *)
Definition referral_script : environment :=
  script (fun _ => connects Connected)
    [quiet [EvRead 8 (line "store_node 10.0.0.2:7001") always t0]].

(** The start node repeats a referral and names itself. *)
Definition repeating_script : environment :=
  script (fun _ => connects InProgress)
    [quiet [EvConnect 0 Connected t0;
            EvRead 0 (String.append
                        (lines2 "store_node 10.0.0.2:7001"
                                "store_node 10.0.0.2:7001")
                        (line "store_node 127.0.0.1:7000")) always t0]].

Definition idle_node (k : nat) : node :=
  mk_node k (peer (Z.of_nat k) 7000) 3 true true false true (mk_tv 0 0)
          EmptyString EmptyString.

Definition pending_node (k : nat) : node :=
  set_connect_pending true (set_bev_enabled false (idle_node k)).

(** 101 releases of connected nodes, then an acquire of the first peer. *)
Definition churn : list cache_op :=
  map (fun k => Release (idle_node k) t0) (seq 0 101)
  ++ [Acquire (peer 0 7000) t0].

(** The start node is on the dead list until second 2000. *)
Definition dead_peerA : node :=
  mk_node 7 peerA 3 false false false false (mk_tv 2000 0)
          EmptyString EmptyString.

Definition dead_world : world :=
  mk_world [] [dead_peerA] 0 (init_request false) [] false 8 0 [].

(** The second peer is on the dead list until second 2000; the next node
    to be created is node 8. *)
Definition dead_peerB : node :=
  mk_node 7 peerB 3 false false false false (mk_tv 2000 0)
          EmptyString EmptyString.

Definition dead_worldB : world :=
  mk_world [] [dead_peerB] 0 (init_request false) [] false 8 0 [].

Definition holding (n : node) : world :=
  upd_rq (set_node_list [n]) empty_world.

(** Reading the result of a run. *)
Definition outcome : Type := list world * option (Z * world).

Definition suspensions (r : outcome) : list world := fst r.

Definition returned (r : outcome) : option Z := option_map fst (snd r).

Definition final_world (r : outcome) : world :=
  match snd r with
  | Some (_, w) => w
  | None => empty_world
  end.

Definition payload0 : string := "p".

Definition plain_script : environment :=
  script (fun _ => connects Connected) [].

Definition read_run : outcome :=
  @zdb_read_chunk sample digestD (conf 4) read_script empty_world.

Definition write_run : outcome :=
  @send_request sample payload0 (conf 4) digestD false write_script
    empty_world.


Definition stranded_run : outcome :=
  @send_request sample payload0 (conf 1) digestD true stranded_script
    dead_worldB.

Definition refused_run : outcome :=
  @send_request sample payload0 (conf 1) digestD true refused_script
    empty_world.

Definition referral_run : outcome :=
  @send_request sample payload0 (conf 4) digestD true referral_script
    dead_worldB.

Definition repeating_run : outcome :=
  @send_request sample payload0 (conf 4) digestD true repeating_script
    empty_world.

Definition malformed_frame : string := "store_node nowhere".

(** A configuration that [parse_spec] lets through: a non-zero timeout in
    whole seconds and a fan-out that is a non-zero 32-bit value. *)
Definition config_ok (zi : zdb_info) : Prop :=
  tv_sec (timeout zi) <> 0 /\ tv_usec (timeout zi) = 0 /\
  1 <= max_concurrency zi < 2 ^ 32.

(** What a turn of the event loop may do to a request, beyond the node
    lists: the cursor stays, candidates are only appended, no socket is
    opened and no node created, and while [request.chunk] is NULL the
    caller's buffer is not written. *)
Definition handled (w w' : world) : Prop :=
  addr_index (rq w') = addr_index (rq w) /\
  (exists extra, addr_list (rq w') = addr_list (rq w) ++ extra) /\
  sock_calls w' = sock_calls w /\ next_node w' = next_node w /\
  (chunk (rq w) = false ->
   chunk (rq w') = false /\ chunk_buf w' = chunk_buf w).

(** From one suspension point to a later one: candidates are only appended
    and the cursor does not move back. *)
Definition advances (w w' : world) : Prop :=
  (exists extra, addr_list (rq w') = addr_list (rq w) ++ extra) /\
  addr_index (rq w) <= addr_index (rq w').

(** *** Framing *)

(** No [CR LF] pair occurs in the text. *)
Fixpoint no_crlf (s : string) : bool :=
  match s with
  | EmptyString => true
  | String c r =>
      match r with
      | String d _ => (negb (Ascii.eqb c CR && Ascii.eqb d LF) && no_crlf r)%bool
      | EmptyString => true
      end
  end.

(** The lines as they travel: each one followed by [CR LF]. *)
Fixpoint frames (ls : list string) : string :=
  match ls with
  | [] => EmptyString
  | l :: r => String.append (line l) (frames r)
  end.

(** *** Node identity across the lists *)

(** Node identities come from the allocation counter: the idle nodes were
    handed out before the next allocation. *)
Definition cache_fresh (w : world) : Prop :=
  forall n, In n (node_cache w) -> (node_id n < next_node w)%nat.

(** The node cache is well-formed, no node of the request is on the idle
    list at the same time, and every linked identity has been handed out. *)
Definition linked_ok (w : world) : Prop :=
  cache_ok w /\
  (forall x, In x (ids (node_list (rq w))) -> ~ In x (ids (node_cache w))) /\
  (forall x, In x (ids (node_list (rq w))) \/ In x (ids (node_cache w)) ->
             (x < next_node w)%nat).

(** *** Node states *)






(** *** More scenarios *)

Definition ctor_spec : string :=
  "zunkdb:127.0.0.1:7000,timeout=5,concurrency=2".

Definition ctor_info : zdb_info := mk_info peerA (mk_tv 5 0) 2.

Definition write_chunk_run : outcome :=
  @zdb_write_chunk sample digestD digestD (conf 4) write_script empty_world.

(** One idle connection to peer 1, handed out as node 1. *)
Definition parked_node : node := idle_form (idle_node 1).

Definition parked_world : world :=
  mk_world [parked_node] [] 1 (init_request false) [] false 2 0 [].

(** A read request holding node 0. *)
Definition reading : world :=
  upd_rq (set_chunk true) (holding (idle_node 0)).

Definition reply_frames : string :=
  frames ["store_chunk D"; "request_done D"]%string.

(** The sample's [inet_aton] with the two-part form [a.b] of the C
    library's added: [a] is the first byte and [b] the remaining 24 bits. *)
Definition host24 (s : string) : option Z :=
  match s with
  | EmptyString => None
  | _ => if (all_digits s && (digits 0 s <=? 16777215))%bool
         then Some (digits 0 s) else None
  end.

Definition short_quad (s : string) : option Z :=
  match dotted_quad s with
  | Some v => Some v
  | None =>
    match split_at "."%char s with
    | Some (a, b) =>
      match octet a, host24 b with
      | Some a, Some b =>
          Some (a + 256 * (b / 65536) + 65536 * ((b / 256) mod 256)
                + 16777216 * (b mod 256))
      | _, _ => None
      end
    | None => None
    end
  end.

Definition lenient : Externals := {|
  CHUNK_SIZE := 65536;
  verify_chunk := bytes_eqb;
  digest_string := string_of_list_byte;
  base64_decode := fun msg _ => list_byte_of_string msg;
  base64_encode := string_of_list_byte;
  inet_aton := short_quad |}.

Definition short_host_frame : string := "store_node 127.1:7000".

Definition unknown_host_frame : string := "store_node nowhere:7000".

(** Node 0 is on the request's list while node 1 is idle. *)
Definition busy_world : world :=
  mk_world [parked_node] [] 1
    (set_node_list [idle_node 0] (init_request false)) [] false 2 0 [].

(** An idle connection to the start node, and a dead-list entry for the
    same address that has not expired. *)
Definition parked_peerA : node :=
  mk_node 6 peerA 3 true false false false (mk_tv 0 0)
          EmptyString EmptyString.

Definition shadowed_world : world :=
  mk_world [parked_peerA] [dead_peerA] 1 (init_request false) [] false 8 0 [].

Definition shadowed_script : environment :=
  script (fun _ => connects Connected)
    [quiet [EvRead 6 (lines2 "store_chunk D" "request_done D") always t0]].

Definition shadowed_run : outcome :=
  @send_request sample payload0 (conf 4) digestD true shadowed_script
    shadowed_world.

(** ** Properties *)

Section Properties.

Context {X : Externals}.

(** *** Strings *)


Lemma split_at_app (c : ascii) (a b : string) :
  has_char c a = false ->
  split_at c (String.append a (String c b)) = Some (a, b).
Proof.
  induction a as [|d r IH]; simpl; intro H.
  - rewrite Ascii.eqb_refl. reflexivity.
  - apply orb_false_iff in H. destruct H as [Hd Hr].
    rewrite Hd, (IH Hr). reflexivity.
Qed.

Lemma append_assoc (a b c : string) :
  String.append (String.append a b) c = String.append a (String.append b c).
Proof. induction a; simpl; congruence. Qed.

Lemma append_empty (a : string) : String.append a EmptyString = a.
Proof. induction a; simpl; congruence. Qed.

Lemma has_char_app (c : ascii) (a b : string) :
  has_char c (String.append a b) = (has_char c a || has_char c b)%bool.
Proof.
  induction a as [|d r IH]; simpl; [reflexivity|].
  rewrite IH. apply orb_assoc.
Qed.

Lemma strsep_all_single (s cur : string) :
  has_char ","%char s = false ->
  strsep_all cur s = [String.append cur s].
Proof.
  revert cur. induction s as [|d r IH]; simpl; intros cur H.
  - rewrite append_empty. reflexivity.
  - apply orb_false_iff in H. destruct H as [Hd Hr].
    rewrite Hd, (IH _ Hr), append_assoc. reflexivity.
Qed.

Lemma cstr_id (s : string) : has_char NUL s = false -> cstr s = s.
Proof.
  induction s as [|d r IH]; simpl; intro H; [reflexivity|].
  apply orb_false_iff in H. destruct H as [Hd Hr].
  rewrite Hd, (IH Hr). reflexivity.
Qed.



Lemma prefix_empty (s : string) : prefix EmptyString s = true.
Proof. destruct s; reflexivity. Qed.

Lemma same_addr_eq (a b : sockaddr_in) : same_addr a b = true <-> a = b.
Proof.
  unfold same_addr. destruct a as [a1 a2], b as [b1 b2]; simpl.
  rewrite andb_true_iff, !Z.eqb_eq. split.
  - intros [-> ->]. reflexivity.
  - intro H. inversion H. auto.
Qed.

Lemma world_eta (w : world) : set_rq (rq w) w = w.
Proof. destruct w. reflexivity. Qed.

Lemma store_node_prefix (buf : string) :
  prefix STORE_NODE buf = true ->
  prefix STORE_CHUNK buf = false /\ prefix REQUEST_DONE buf = false.
Proof.
  unfold STORE_NODE, STORE_CHUNK, REQUEST_DONE.
  do 7 (destruct buf as [|? buf]; cbn [prefix]; [discriminate|];
        match goal with
        | |- context [ascii_dec ?a ?b] =>
            destruct (ascii_dec a b); [subst|discriminate]
        end).
  intros _. split; reflexivity.
Qed.

(** C10.  A [store_node] frame that carries a payload (it is longer than
    the verb, so the payload pointer stays inside the copied frame) and
    whose payload has no [':'], or whose host part [inet_aton] rejects, is
    dropped: [proc_msg] answers 0 and leaves the whole world, the request's
    candidate list, cursor and counters included, as it was. *)
Theorem store_node_malformed_ignored :
  forall (digest : list byte) (ok : bool) (now : timeval) (buf : string)
         (n : node) (w : world),
    prefix STORE_NODE buf = true ->
    (STORE_NODE_LEN < String.length buf)%nat ->
    (split_at ":"%char (cstr (skip (STORE_NODE_LEN + 1) buf)) = None \/
     exists host port,
       split_at ":"%char (cstr (skip (STORE_NODE_LEN + 1) buf))
         = Some (host, port) /\ inet_aton host = None) ->
    proc_msg digest ok now buf n w = (false, w).
Proof.
  intros digest ok now buf n w Hp _ Hbad.
  destruct (store_node_prefix buf Hp) as [H1 H2].
  unfold proc_msg. rewrite H1, H2, Hp.
  unfold store_node, upd_rq.
  destruct Hbad as [E | (host & port & E & Hrej)]; rewrite E.
  - now rewrite world_eta.
  - rewrite Hrej. now rewrite world_eta.
Qed.


(** *** Node lists *)

Lemma unlink_length (n : node) (l : list node) :
  (List.length (unlink n l) <= List.length l)%nat.
Proof. apply filter_length_le. Qed.

Lemma unlink_In (n m : node) (l : list node) :
  In m (unlink n l) <-> In m l /\ node_id m <> node_id n.
Proof.
  unfold unlink. rewrite filter_In. unfold same_node.
  rewrite negb_true_iff, Nat.eqb_neq. tauto.
Qed.

Lemma unlink_ids (n : node) (l : list node) (x : nat) :
  In x (ids (unlink n l)) -> In x (ids l) /\ x <> node_id n.
Proof.
  unfold ids. rewrite !in_map_iff. intros (m & <- & Hm).
  apply unlink_In in Hm. destruct Hm as [Hm Hne]. split; [|exact Hne].
  exists m. auto.
Qed.

Lemma unlink_absent (n : node) (l : list node) :
  ~ In (node_id n) (ids l) -> unlink n l = l.
Proof.
  induction l as [|m l IH]; simpl; intro H; [reflexivity|].
  unfold same_node at 1.
  destruct (Nat.eqb_spec (node_id m) (node_id n)) as [E|E]; simpl.
  - exfalso. apply H. left. exact E.
  - f_equal. apply IH. intro Hin. apply H. right. exact Hin.
Qed.

Lemma unlink_NoDup (n : node) (l : list node) :
  NoDup (ids l) -> NoDup (ids (unlink n l)).
Proof.
  induction l as [|m l IH]; simpl; intro H; [constructor|].
  inversion H as [|? ? Hm Hl]; subst.
  destruct (negb (same_node n m)); simpl; [|auto].
  constructor; [|auto].
  intro Hin. apply unlink_ids in Hin. tauto.
Qed.

Lemma unlink_member (n : node) (l : list node) :
  NoDup (ids l) -> In (node_id n) (ids l) ->
  S (List.length (unlink n l)) = List.length l.
Proof.
  induction l as [|m l IH]; simpl; intros H Hin; [contradiction|].
  inversion H as [|? ? Hm Hl]; subst.
  unfold same_node at 1.
  destruct (Nat.eqb_spec (node_id m) (node_id n)) as [E|E]; simpl.
  - rewrite unlink_absent; [reflexivity|]. rewrite <- E. exact Hm.
  - f_equal. apply IH; [exact Hl|]. destruct Hin; [contradiction|assumption].
Qed.

Lemma last_In (d : node) (l : list node) : l <> [] -> In (last l d) l.
Proof.
  induction l as [|x l IH]; intro H; [contradiction|].
  destruct l as [|y l]; [left; reflexivity|].
  right. apply IH. discriminate.
Qed.

Lemma unlink_last (d : node) (l : list node) :
  NoDup (ids l) -> l <> [] -> unlink (last l d) l = removelast l.
Proof.
  induction l as [|m l IH]; intros H Hne; [contradiction|].
  inversion H as [|? ? Hm Hl]; subst.
  destruct l as [|m' l'].
  - simpl. unfold same_node. rewrite Nat.eqb_refl. reflexivity.
  - change (last (m :: m' :: l') d) with (last (m' :: l') d).
    change (removelast (m :: m' :: l')) with (m :: removelast (m' :: l')).
    rewrite <- IH by (auto; discriminate).
    cbn [unlink filter]. unfold same_node at 1.
    destruct (Nat.eqb_spec (node_id m) (node_id (last (m' :: l') d))) as [E|E].
    + exfalso. apply Hm. rewrite E. apply in_map.
      apply last_In. discriminate.
    + reflexivity.
Qed.

Lemma scan_cache_In (sa : sockaddr_in) (l : list node) (n : node) :
  scan_cache sa l = Some n -> In n l /\ node_is_addr n sa = true.
Proof.
  induction l as [|m l IH]; simpl; [discriminate|].
  destruct (node_is_addr m sa) eqn:E.
  - intro H. inversion H; subst. auto.
  - intro H. destruct (IH H). auto.
Qed.

Lemma lookup_In (id : nat) (l : list node) (n : node) :
  lookup id l = Some n -> In n l /\ node_id n = id.
Proof.
  induction l as [|m l IH]; simpl; [discriminate|].
  destruct (Nat.eqb_spec (node_id m) id) as [E|E].
  - intro H. inversion H; subst. auto.
  - intro H. destruct (IH H). auto.
Qed.

Lemma lookup_unlink (n : node) (l : list node) :
  lookup (node_id n) (unlink n l) = None.
Proof.
  induction l as [|m l IH]; simpl; [reflexivity|].
  unfold same_node at 1.
  destruct (Nat.eqb_spec (node_id m) (node_id n)) as [E|E]; simpl; [exact IH|].
  destruct (Nat.eqb_spec (node_id m) (node_id n)); [contradiction|exact IH].
Qed.

Lemma store_length (n : node) (l : list node) :
  List.length (store n l) = List.length l.
Proof. apply length_map. Qed.

(** *** The node cache *)

Lemma idle_false (n : node) (w : world) :
  idle n w = false <-> ~ In (node_id n) (ids (node_cache w)).
Proof.
  unfold idle, ids. split.
  - intros H Hin. apply in_map_iff in Hin. destruct Hin as (m & E & Hm).
    assert (Hex : existsb (same_node n) (node_cache w) = true).
    { apply existsb_exists. exists m. split; [exact Hm|].
      unfold same_node. now apply Nat.eqb_eq. }
    congruence.
  - intro H. destruct (existsb _ _) eqn:E; [|reflexivity].
    exfalso. apply H. apply existsb_exists in E. destruct E as (m & Hm & E).
    unfold same_node in E. apply Nat.eqb_eq in E. rewrite <- E.
    now apply in_map.
Qed.

Lemma free_node_cache (n : node) (w : world) :
  node_cache (free_node n w) = unlink n (node_cache w) /\
  dead_nodes (free_node n w) = unlink n (dead_nodes w) /\
  cache_count (free_node n w) = cache_count w /\
  freed (free_node n w) = set_sk_open false n :: freed w.
Proof. unfold free_node. destruct (attached n); repeat split. Qed.

Lemma scan_dead_cache (now : timeval) (sa : sockaddr_in) (l : list node) :
  forall w,
    (forall d, In d l -> ~ In (node_id d) (ids (node_cache w))) ->
    let w' := snd (scan_dead now sa l w) in
    node_cache w' = node_cache w /\ cache_count w' = cache_count w /\
    incl (dead_nodes w') (dead_nodes w).
Proof.
  induction l as [|d r IH]; simpl; intros w H.
  - repeat split. apply incl_refl.
  - destruct (timercmp_gt now (stamp d)).
    + destruct (free_node_cache d w) as (Hc & Hd & Hn & _).
      assert (Hsame : node_cache (free_node d w) = node_cache w).
      { rewrite Hc. apply unlink_absent. apply H. now left. }
      destruct (IH (free_node d w)) as (H1 & H2 & H3).
      { intros d' Hd'. rewrite Hsame. apply H. now right. }
      rewrite H1, H2, Hsame, Hn. repeat split.
      intros x Hx. apply H3 in Hx. rewrite Hd in Hx.
      now apply unlink_In in Hx.
    + destruct (node_is_addr d sa); simpl.
      * repeat split. apply incl_refl.
      * apply IH. intros d' Hd'. apply H. now right.
Qed.

Lemma find_node_ok (now : timeval) (sa : sockaddr_in) (w : world) :
  cache_ok w -> cache_ok (snd (find_node now sa w)).
Proof.
  intros (Hcnt & Hmax & Hnd & Hdis). unfold find_node.
  destruct (scan_cache sa (node_cache w)) as [n|] eqn:E.
  - apply scan_cache_In in E. destruct E as [Hin _].
    assert (Hlen := unlink_member n (node_cache w) Hnd (in_map node_id _ _ Hin)).
    unfold cache_ok, CACHE_MAX in *. simpl.
    repeat split.
    + unfold u32. rewrite Z.mod_small; lia.
    + lia.
    + now apply unlink_NoDup.
    + intros d Hd Hid. apply unlink_In in Hd. apply unlink_ids in Hid.
      apply (Hdis d); tauto.
  - pose proof (scan_dead_cache now sa (dead_nodes w) w Hdis) as Hs.
    destruct (scan_dead now sa (dead_nodes w) w) as [[] w']; simpl in *;
      destruct Hs as (H1 & H2 & H3); unfold cache_ok;
      rewrite H1, H2; repeat split; auto.
Qed.

Lemma last_default (d d' : node) (l : list node) :
  l <> [] -> last l d = last l d'.
Proof.
  induction l as [|a l IH]; intro H; [contradiction|].
  destruct l as [|b l]; [reflexivity|].
  change (last (b :: l) d = last (b :: l) d'). apply IH. discriminate.
Qed.

Lemma release_ok (now : timeval) (n : node) (w : world) :
  cache_ok w -> idle n w = false ->
  cache_ok (__cache_node now n w) /\
  evicts_tail (w, Release n now, __cache_node now n w).
Proof.
  intros (Hcnt & Hmax & Hnd & Hdis) Hidle.
  apply idle_false in Hidle.
  pose proof (unlink_absent n (node_cache w) Hidle) as Hun.
  unfold __cache_node, evicts_tail. fold (idle_form n).
  set (w1 := list_del n w).
  assert (Hc1 : node_cache w1 = node_cache w) by (subst w1; simpl; exact Hun).
  assert (Hd1 : dead_nodes w1 = unlink n (dead_nodes w)) by reflexivity.
  assert (Hn1 : cache_count w1 = cache_count w) by reflexivity.
  assert (Hf1 : freed w1 = freed w) by reflexivity.
  clearbody w1.
  assert (Hdis1 : forall d, In d (dead_nodes w1) ->
            ~ In (node_id d) (ids (idle_form n :: node_cache w))).
  { intros d Hd [Hid|Hid]; rewrite Hd1 in Hd; apply unlink_In in Hd.
    - now symmetry in Hid.
    - apply (Hdis d); tauto. }
  assert (Hnd2 : NoDup (ids (idle_form n :: node_cache w))).
  { simpl. constructor; assumption. }
  destruct (connect_pending n) eqn:Hp.
  - split; [|discriminate].
    unfold cache_ok. simpl. rewrite Hc1, Hn1. repeat split; auto.
    intros d [<- | Hd]; [exact Hidle|].
    intro Hid. apply (Hdis1 d Hd). now right.
  - set (w2 := set_cache_count _ (set_node_cache _ w1)).
    assert (Hc2 : node_cache w2 = idle_form n :: node_cache w)
      by (subst w2; simpl; now rewrite Hc1).
    assert (Hn2 : cache_count w2 = cache_count w + 1).
    { subst w2. simpl. rewrite Hn1. unfold u32, CACHE_MAX in *.
      rewrite Z.mod_small; lia. }
    assert (Hd2 : dead_nodes w2 = dead_nodes w1) by reflexivity.
    assert (Hf2 : freed w2 = freed w) by (subst w2; simpl; exact Hf1).
    clearbody w2. rewrite Hn2.
    destruct (Z.ltb_spec CACHE_MAX (cache_count w + 1)) as [Hfull|Hroom].
    + assert (Hlen : Z.of_nat (List.length (node_cache w)) = CACHE_MAX) by lia.
      assert (Hne : node_cache w <> []).
      { intro E. rewrite E in Hlen. discriminate. }
      set (t := last (node_cache w2) (idle_form n)).
      assert (Ht : t = last (node_cache w) n).
      { subst t. rewrite Hc2.
        destruct (node_cache w) as [|a l]; [contradiction|].
        change (last (idle_form n :: a :: l) (idle_form n))
          with (last (a :: l) (idle_form n)).
        apply last_default. discriminate. }
      destruct (free_node_cache t w2) as (Fc & Fd & Fn & Ff).
      set (w3 := free_node t w2) in *. clearbody w3.
      assert (Hc3 : node_cache w3 = idle_form n :: removelast (node_cache w)).
      { rewrite Fc. unfold t. rewrite Hc2.
        rewrite (unlink_last _ _ Hnd2) by discriminate.
        destruct (node_cache w); [contradiction|reflexivity]. }
      destruct (exists_last Hne) as (l' & a & E).
      assert (Hrl : removelast (node_cache w) = l')
        by (rewrite E; apply removelast_last).
      assert (Hll : List.length (node_cache w) = S (List.length l')).
      { rewrite E, length_app. simpl. lia. }
      split.
      * unfold cache_ok. simpl. rewrite Hc3, Fn, Fd, Hn2, Hrl.
        unfold CACHE_MAX in *. simpl List.length. repeat split.
        -- unfold u32. rewrite Z.mod_small; lia.
        -- lia.
        -- rewrite <- Hrl, <- Hc3, Fc. apply unlink_NoDup.
           now rewrite Hc2.
        -- intros d Hd Hid. apply unlink_In in Hd. destruct Hd as [Hd _].
           rewrite Hd2 in Hd. apply (Hdis1 d Hd).
           simpl in *. destruct Hid as [Hid|Hid]; [now left|right].
           rewrite E. unfold ids. rewrite map_app. apply in_or_app. now left.
      * intros _ _. simpl. rewrite Hc3, Ff, Hf2, Ht. split; reflexivity.
    + split.
      * unfold cache_ok. rewrite Hc2, Hn2. unfold CACHE_MAX in *.
        simpl List.length. repeat split; try lia; auto.
        intros d Hd. rewrite Hd2 in Hd. now apply Hdis1.
      * intros _ Hlen. lia.
Qed.

Lemma apply_op_ok (w : world) (op : cache_op) :
  cache_ok w -> op_ok w op = true ->
  cache_ok (apply_op w op) /\ evicts_tail (w, op, apply_op w op).
Proof.
  intros Hok Hop. destruct op as [sa now | n now]; simpl in *.
  - split; [now apply find_node_ok | exact I].
  - apply negb_true_iff in Hop. now apply release_ok.
Qed.

(** C5.  Along every sequence of acquire and release operations that
    starts from a well-formed cache, after each operation [cache_count] is
    the length of the idle list and that length is at most [CACHE_MAX];
    releasing a connected node into a full idle list puts it at the head
    and destroys the entry at the tail. *)
Theorem cache_bounded :
  forall (ops : list cache_op) (w : world),
    cache_ok w -> ops_ok w ops = true ->
    Forall (fun t => counted (snd t) /\ evicts_tail t) (run_ops w ops).
Proof.
  induction ops as [|op r IH]; intros w Hok Hops; simpl; [constructor|].
  simpl in Hops. apply andb_true_iff in Hops. destruct Hops as [Hop Hr].
  destruct (apply_op_ok w op Hok Hop) as [Hok' Hev].
  constructor.
  - split; [|exact Hev]. destruct Hok' as (H1 & H2 & _). now split.
  - now apply IH.
Qed.

Lemma lookup_unlink_none (id : nat) (t : node) (l : list node) :
  lookup id l = None -> lookup id (unlink t l) = None.
Proof.
  induction l as [|m l IH]; simpl; [reflexivity|].
  destruct (Nat.eqb_spec (node_id m) id) as [E|E]; [discriminate|].
  intro H. destruct (negb (same_node t m)); simpl; [|auto].
  destruct (Nat.eqb_spec (node_id m) id); [contradiction|auto].
Qed.

Lemma free_node_list (t : node) (w : world) :
  node_list (rq (free_node t w)) = unlink t (node_list (rq w)).
Proof. unfold free_node. destruct (attached t); reflexivity. Qed.

Lemma cache_node_unlinked (now : timeval) (n : node) (w : world) :
  lookup (node_id n) (node_list (rq (__cache_node now n w))) = None.
Proof.
  unfold __cache_node. destruct (connect_pending n).
  - simpl. apply lookup_unlink.
  - match goal with |- context [if ?c then _ else _] => destruct c end.
    + change (rq (set_cache_count ?z ?v)) with (rq v).
      rewrite free_node_list. simpl.
      apply lookup_unlink_none, lookup_unlink.
    + simpl. apply lookup_unlink.
Qed.

Lemma cache_node_dead (now : timeval) (n : node) (w : world) :
  connect_pending n = true ->
  __cache_node now n w
  = set_dead_nodes (dead_form now n :: unlink n (dead_nodes w)) (list_del n w).
Proof. intro H. unfold __cache_node. rewrite H. reflexivity. Qed.

Lemma cache_node_idle_head (now : timeval) (n : node) (w : world) :
  cache_ok w -> idle n w = false -> connect_pending n = false ->
  exists rest, node_cache (__cache_node now n w) = idle_form n :: rest.
Proof.
  intros Hok Hidle Hp.
  destruct (Z.eq_dec (Z.of_nat (List.length (node_cache w))) CACHE_MAX) as [E|E].
  - destruct (release_ok now n w Hok Hidle) as [_ Hev].
    destruct (Hev Hp E) as [Hc _]. eauto.
  - destruct Hok as (Hcnt & Hmax & _ & _).
    unfold __cache_node. rewrite Hp. simpl cache_count.
    assert (Hu : u32 (cache_count w + 1) = cache_count w + 1).
    { unfold u32, CACHE_MAX in *. rewrite Z.mod_small; lia. }
    rewrite Hu.
    destruct (Z.ltb_spec CACHE_MAX (cache_count w + 1)); [lia|].
    simpl. eauto.
Qed.

Lemma cache_node_idle_room (now : timeval) (n : node) (w : world) :
  cache_ok w -> idle n w = false -> connect_pending n = false ->
  Z.of_nat (List.length (node_cache w)) < CACHE_MAX ->
  node_cache (__cache_node now n w) = idle_form n :: node_cache w /\
  cache_count (__cache_node now n w) = cache_count w + 1.
Proof.
  intros (Hcnt & Hmax & _ & _) Hidle Hp Hlt.
  apply idle_false in Hidle.
  unfold __cache_node. rewrite Hp. simpl cache_count.
  assert (Hu : u32 (cache_count w + 1) = cache_count w + 1).
  { unfold u32, CACHE_MAX in *. rewrite Z.mod_small; lia. }
  rewrite Hu.
  destruct (Z.ltb_spec CACHE_MAX (cache_count w + 1)); [lia|].
  simpl. rewrite (unlink_absent _ _ Hidle). split; reflexivity.
Qed.

(** C6.  A released node leaves the request's list.  If its connect
    watcher is still pending it becomes the head of the dead list with its
    socket closed and its stamp set to the clock plus 60 seconds, and the
    idle list does not get it; otherwise it becomes the head of the idle
    list, detached and with its I/O disabled, in front of the nodes that
    were idle before, all of them while there is room and all but the one
    at the tail when the list was full. *)
Theorem release_dead_or_idle :
  forall (now : timeval) (n : node) (w : world),
    cache_ok w -> idle n w = false ->
    let w' := __cache_node now n w in
    lookup (node_id n) (node_list (rq w')) = None /\
    (connect_pending n = true ->
       exists d, dead_nodes w' = d :: unlink n (dead_nodes w) /\
         node_cache w' = node_cache w /\
         node_id d = node_id n /\ addr d = addr n /\ sk_open d = false /\
         stamp d = mk_tv (tv_sec now + 60) (tv_usec now) /\
         connect_pending d = false /\ attached d = false) /\
    (connect_pending n = false ->
       exists i,
         node_cache w'
         = i :: (if Z.of_nat (List.length (node_cache w)) <? CACHE_MAX
                 then node_cache w else removelast (node_cache w)) /\
         node_id i = node_id n /\ addr i = addr n /\ sk_open i = sk_open n /\
         attached i = false /\ bev_enabled i = false /\
         connect_pending i = false).
Proof.
  intros now n w Hok Hidle w'. subst w'.
  split; [apply cache_node_unlinked|]. split; intro Hp.
  - exists (dead_form now n). rewrite (cache_node_dead now n w Hp). simpl.
    apply idle_false in Hidle. rewrite (unlink_absent _ _ Hidle).
    repeat split.
  - exists (idle_form n).
    split; [|simpl; repeat split; exact Hp].
    destruct (Z.ltb_spec (Z.of_nat (List.length (node_cache w))) CACHE_MAX)
      as [Hlt|Hge].
    + exact (proj1 (cache_node_idle_room now n w Hok Hidle Hp Hlt)).
    + destruct (release_ok now n w Hok Hidle) as [_ Hev].
      assert (E : Z.of_nat (List.length (node_cache w)) = CACHE_MAX).
      { destruct Hok as (_ & Hmax & _). lia. }
      exact (proj1 (Hev Hp E)).
Qed.

(** *** What the cache and connection code leaves alone *)

Ltac split_ifs :=
  repeat match goal with
         | |- context [if ?c then _ else _] => destruct c
         end.

Ltac frame := unfold keeps_request; simpl; repeat split; reflexivity.

Lemma keeps_refl (w : world) : keeps_request w w.
Proof. frame. Qed.

Lemma keeps_trans (w1 w2 w3 : world) :
  keeps_request w1 w2 -> keeps_request w2 w3 -> keeps_request w1 w3.
Proof.
  unfold keeps_request.
  intros (A1 & A2 & A3 & A4 & A5 & A6) (B1 & B2 & B3 & B4 & B5 & B6).
  repeat split; congruence.
Qed.

Lemma keeps_list_del (n : node) (w : world) : keeps_request w (list_del n w).
Proof. frame. Qed.

Lemma keeps_free_node (n : node) (w : world) :
  keeps_request w (free_node n w).
Proof. unfold free_node. split_ifs; frame. Qed.

Lemma keeps_scan_dead (now : timeval) (sa : sockaddr_in) (l : list node) :
  forall w, keeps_request w (snd (scan_dead now sa l w)).
Proof.
  induction l as [|d r IH]; intro w; simpl; [apply keeps_refl|].
  destruct (timercmp_gt now (stamp d)).
  - eapply keeps_trans; [apply keeps_free_node | apply IH].
  - destruct (node_is_addr d sa); [apply keeps_refl | apply IH].
Qed.

Lemma keeps_find_node (now : timeval) (sa : sockaddr_in) (w : world) :
  keeps_request w (snd (find_node now sa w)).
Proof.
  unfold find_node. destruct (scan_cache sa (node_cache w)); [frame|].
  pose proof (keeps_scan_dead now sa (dead_nodes w) w) as H.
  destruct (scan_dead now sa (dead_nodes w) w) as [[] w']; exact H.
Qed.

Lemma keeps_cache_node (now : timeval) (n : node) (w : world) :
  keeps_request w (__cache_node now n w).
Proof. unfold __cache_node, free_node. split_ifs; frame. Qed.

Lemma keeps_update_node (n : node) (w : world) :
  keeps_request w (update_node n w).
Proof. frame. Qed.

Lemma keeps_try_connect (res : connect_result) (now : timeval) (n : node)
    (w : world) : keeps_request w (try_connect res now n w).
Proof.
  destruct res; unfold try_connect, cache_node.
  - apply keeps_update_node.
  - apply keeps_update_node.
  - eapply keeps_trans; [apply keeps_update_node | apply keeps_cache_node].
Qed.

Lemma keeps_write_request (p : string) (n : node) (w : world) :
  keeps_request w (snd (write_request p n w)).
Proof. frame. Qed.

Lemma keeps_send_request_to (p : string) (o : dispatch_outcome)
    (sa : sockaddr_in) (w : world) :
  keeps_request w (snd (send_request_to p o sa w)).
Proof.
  unfold send_request_to.
  pose proof (keeps_find_node (d_now o) sa w) as H.
  destruct (find_node (d_now o) sa w) as [[n| |] w1]; simpl in H.
  - eapply keeps_trans; [exact H|]. frame.
  - exact H.
  - destruct (d_malloc o); simpl; [|exact H].
    destruct (d_socket o); simpl.
    + destruct (d_bev o); simpl.
      * eapply keeps_trans; [exact H|].
        eapply keeps_trans; [|apply keeps_try_connect]. frame.
      * eapply keeps_trans; [exact H|]. frame.
    + eapply keeps_trans; [exact H|]. frame.
Qed.

Lemma keeps_release_all (clock : nat -> timeval) (fuel : nat) :
  forall k w, keeps_request w (release_all fuel clock k w).
Proof.
  induction fuel as [|f IH]; intros k w; simpl; [apply keeps_refl|].
  destruct (node_list (rq w)); [apply keeps_refl|].
  eapply keeps_trans; [apply keeps_cache_node | apply IH].
Qed.

(** *** The request loop *)

Section Loop.

Variable payload : string.
Variable db_info : zdb_info.
Variable digest : list byte.
Variable chunk_arg : bool.
Variable denv : nat -> dispatch_outcome.

Let loop := request_loop payload db_info digest chunk_arg denv.
Let pass := dispatch payload db_info denv.
Let turn := event_base_loop digest.
Let rearm := rearm chunk_arg.

Lemma request_loop_nil (err : Z) (w : world) :
  loop [] err w =
  if negb (timeout_pending (pass w)) then ([], Some (- ETIMEDOUT, pass w))
  else match node_list (rq (pass w)) with
       | [] => ([], Some (err, pass w))
       | _ :: _ => ([pass w], None)
       end.
Proof. reflexivity. Qed.

Lemma request_loop_cons (s : step) (rest : list step) (err : Z) (w : world) :
  loop (s :: rest) err w =
  if negb (timeout_pending (pass w)) then ([], Some (- ETIMEDOUT, pass w))
  else match node_list (rq (pass w)) with
       | [] => ([], Some (err, pass w))
       | _ :: _ =>
         if st_loop_err s then ([pass w], Some (err, turn s (pass w)))
         else if done (rq (turn s (pass w))) =? 0 then
           let (tr, res) := loop rest err (turn s (pass w)) in
           (pass w :: tr, res)
         else if negb chunk_arg then
           let (tr, res) := loop rest CHUNK_SIZE (turn s (pass w)) in
           (pass w :: tr, res)
         else if (negb (chunk (rq (turn s (pass w))))
                  && verify_chunk (chunk_buf (turn s (pass w))) digest)%bool
         then ([pass w], Some (CHUNK_SIZE, turn s (pass w)))
         else
           let (tr, res) := loop rest err (rearm (turn s (pass w))) in
           (pass w :: tr, res)
       end.
Proof. reflexivity. Qed.


(** A read returns [CHUNK_SIZE] only from the branch that has just checked
    the captured body. *)
Lemma read_loop_verified (steps : list step) :
  forall w tr e w',
    0 < CHUNK_SIZE -> chunk_arg = true ->
    loop steps (- EIO) w = (tr, Some (e, w')) -> e = CHUNK_SIZE ->
    chunk (rq w') = false /\ verify_chunk (chunk_buf w') digest = true.
Proof.
  induction steps as [|s rest IH]; intros w tr e w' Hpos Hread H He.
  - rewrite request_loop_nil in H.
    destruct (negb (timeout_pending (pass w))).
    { inversion H; subst. unfold ETIMEDOUT in *. lia. }
    destruct (node_list (rq (pass w))); inversion H; subst.
    unfold EIO in *. lia.
  - rewrite request_loop_cons in H.
    destruct (negb (timeout_pending (pass w))).
    { inversion H; subst. unfold ETIMEDOUT in *. lia. }
    destruct (node_list (rq (pass w))).
    { inversion H; subst. unfold EIO in *. lia. }
    destruct (st_loop_err s).
    { inversion H; subst. unfold EIO in *. lia. }
    destruct (done (rq (turn s (pass w))) =? 0).
    { destruct (loop rest (- EIO) (turn s (pass w))) as [tr' res] eqn:E.
      inversion H; subst. eapply IH; eauto. }
    rewrite Hread in H. simpl negb in H. cbv iota in H.
    destruct (negb (chunk (rq (turn s (pass w))))) eqn:Hc;
      [destruct (verify_chunk (chunk_buf (turn s (pass w))) digest) eqn:Hv|];
      simpl andb in H; cbv iota in H.
    + inversion H; subst. apply negb_true_iff in Hc. auto.
    + destruct (loop rest (- EIO) (rearm (turn s (pass w)))) as [tr' res] eqn:E.
      inversion H; subst. eapply IH; eauto.
    + destruct (loop rest (- EIO) (rearm (turn s (pass w)))) as [tr' res] eqn:E.
      inversion H; subst. eapply IH; eauto.
Qed.


(** Whatever holds at the loop head and is kept by a dispatch pass, by a
    turn of the event loop and by re-arming holds at every suspension point
    and at the [break]. *)
Lemma loop_invariant (P : world -> Prop) :
  (forall w, P w -> P (pass w)) ->
  (forall s w, P w -> P (turn s w)) ->
  (forall w, P w -> P (rearm w)) ->
  forall steps err w tr res,
    P w -> loop steps err w = (tr, res) ->
    Forall P tr /\ (forall e w', res = Some (e, w') -> P w').
Proof.
  intros Hpass Hturn Hrearm.
  induction steps as [|s rest IH]; intros err w tr res Hw H.
  - rewrite request_loop_nil in H.
    destruct (negb (timeout_pending (pass w))).
    { inversion H; subst. split; [constructor|].
      intros e w' E. inversion E; subst. auto. }
    destruct (node_list (rq (pass w))); inversion H; subst.
    + split; [constructor|]. intros e w' E. inversion E; subst. auto.
    + split; [repeat constructor; auto | discriminate].
  - rewrite request_loop_cons in H.
    destruct (negb (timeout_pending (pass w))).
    { inversion H; subst. split; [constructor|].
      intros e w' E. inversion E; subst. auto. }
    destruct (node_list (rq (pass w))).
    { inversion H; subst. split; [constructor|].
      intros e w' E. inversion E; subst. auto. }
    assert (Hp : P (pass w)) by auto.
    assert (Ht : P (turn s (pass w))) by auto.
    destruct (st_loop_err s).
    { inversion H; subst. split; [repeat constructor; auto|].
      intros e w' E. inversion E; subst. auto. }
    assert (Hrec : forall err' v tr' res',
              P v -> loop rest err' v = (tr', res') ->
              (pass w :: tr', res') = (tr, res) ->
              Forall P tr /\ (forall e w', res = Some (e, w') -> P w')).
    { intros err' v tr' res' Hv E Eq. inversion Eq; subst.
      destruct (IH err' v tr' res Hv E) as [F R].
      split; [constructor; auto | exact R]. }
    destruct (done (rq (turn s (pass w))) =? 0).
    { destruct (loop rest err (turn s (pass w))) as [tr' res'] eqn:E.
      exact (Hrec _ _ _ _ Ht E H). }
    destruct (negb chunk_arg).
    { destruct (loop rest CHUNK_SIZE (turn s (pass w))) as [tr' res'] eqn:E.
      exact (Hrec _ _ _ _ Ht E H). }
    destruct (negb (chunk (rq (turn s (pass w)))) &&
              verify_chunk (chunk_buf (turn s (pass w))) digest)%bool.
    { inversion H; subst. split; [repeat constructor; auto|].
      intros e w' E. inversion E; subst. auto. }
    destruct (loop rest err (rearm (turn s (pass w)))) as [tr' res'] eqn:E.
    exact (Hrec _ _ _ _ (Hrearm _ Ht) E H).
Qed.

(** A dispatch pass keeps the request data, moves the cursor forward over
    at most the candidates it was given, and stops short only when the
    counter has reached [max_concurrency]. *)
Lemma dispatch_loop_spec (todo : list sockaddr_in) :
  forall w,
    let w' := dispatch_loop payload db_info denv todo w in
    chunk (rq w') = chunk (rq w) /\
    addr_list (rq w') = addr_list (rq w) /\
    done (rq w') = done (rq w) /\
    chunk_buf w' = chunk_buf w /\
    timeout_pending w' = timeout_pending w /\
    addr_index (rq w) <= addr_index (rq w')
      <= addr_index (rq w) + Z.of_nat (List.length todo) /\
    (addr_index (rq w') = addr_index (rq w) + Z.of_nat (List.length todo) \/
     max_concurrency db_info <= addr_concurrency (rq w')).
Proof.
  induction todo as [|a rest IH]; intro w; cbn [dispatch_loop].
  - simpl. repeat split; lia.
  - destruct (Z.leb_spec (max_concurrency db_info) (addr_concurrency (rq w))).
    + cbn [List.length]. repeat split; lia.
    + pose proof (keeps_send_request_to payload
                    (denv (Z.to_nat (addr_index (rq w)))) a w) as K.
      destruct (send_request_to payload _ a w) as [ret w1]. simpl in K.
      destruct K as (K1 & K2 & K3 & K4 & K5 & K6).
      match goal with
      | |- context [dispatch_loop _ _ _ rest ?v] => specialize (IH v)
      end.
      cbv zeta in IH. simpl in IH.
      destruct IH as (I1 & I2 & I3 & I4 & I5 & I6 & I7).
      cbv zeta. rewrite I1, I2, I3, I4, I5.
      cbn [List.length]. rewrite Nat2Z.inj_succ.
      repeat split; solve [congruence | lia].
Qed.

Lemma dispatch_spec (w : world) :
  0 <= addr_index (rq w) <= addr_count (rq w) ->
  chunk (rq (pass w)) = chunk (rq w) /\
  addr_list (rq (pass w)) = addr_list (rq w) /\
  done (rq (pass w)) = done (rq w) /\
  chunk_buf (pass w) = chunk_buf w /\
  timeout_pending (pass w) = timeout_pending w /\
  addr_index (rq w) <= addr_index (rq (pass w)) <= addr_count (rq (pass w)) /\
  (addr_index (rq (pass w)) = addr_count (rq (pass w)) \/
   max_concurrency db_info <= addr_concurrency (rq (pass w))).
Proof.
  intro Hi. unfold pass, dispatch.
  pose proof (dispatch_loop_spec
                (skipn (Z.to_nat (addr_index (rq w))) (addr_list (rq w))) w) as H.
  cbv zeta in H. destruct H as (H1 & H2 & H3 & H4 & H5 & H6 & H7).
  rewrite length_skipn in H6, H7. unfold addr_count in *. rewrite H2.
  repeat split; solve [assumption | lia].
Qed.

Lemma dispatch_addr_list (w : world) :
  addr_list (rq (pass w)) = addr_list (rq w).
Proof.
  unfold pass, dispatch.
  apply (dispatch_loop_spec
           (skipn (Z.to_nat (addr_index (rq w))) (addr_list (rq w))) w).
Qed.

Lemma dispatch_timeout (w : world) :
  timeout_pending (pass w) = timeout_pending w.
Proof.
  unfold pass, dispatch.
  apply (dispatch_loop_spec
           (skipn (Z.to_nat (addr_index (rq w))) (addr_list (rq w))) w).
Qed.


Lemma loop_exit_empty (steps : list step) (err : Z) (w : world) :
  timeout_pending (pass w) = true -> node_list (rq (pass w)) = [] ->
  loop steps err w = ([], Some (err, pass w)).
Proof.
  intros Ht Hn.
  destruct steps; [rewrite request_loop_nil | rewrite request_loop_cons];
    rewrite Ht, Hn; reflexivity.
Qed.

Lemma loop_exit_timeout (steps : list step) (err : Z) (w : world) :
  timeout_pending (pass w) = false ->
  loop steps err w = ([], Some (- ETIMEDOUT, pass w)).
Proof.
  intros Ht.
  destruct steps; [rewrite request_loop_nil | rewrite request_loop_cons];
    rewrite Ht; reflexivity.
Qed.

End Loop.



(** *** Whole calls *)

(** C1.  When [zdb_read_chunk] returns [CHUNK_SIZE], a candidate body has
    been captured ([request.chunk] is NULL) and the bytes in the caller's
    buffer pass [verify_chunk] against the digest of the request. *)
Theorem read_chunk_verified :
  forall (digest : list byte) (db_info : zdb_info) (env : environment)
         (w : world) (tr : list world) (w' : world),
    0 < CHUNK_SIZE ->
    zdb_read_chunk digest db_info env w = (tr, Some (CHUNK_SIZE, w')) ->
    chunk (rq w') = false /\ verify_chunk (chunk_buf w') digest = true.
Proof.
  intros digest db_info env w tr w' Hpos H.
  unfold zdb_read_chunk in H.
  destruct (e_evbuf_ok env); simpl in H;
    [|inversion H; unfold ENOMEM in *; lia].
  destruct (e_printf_ok env); simpl in H;
    [|inversion H; unfold EIO in *; lia].
  unfold send_request in H.
  destruct (e_base_ok env); simpl in H;
    [|inversion H; unfold EIO in *; lia].
  match type of H with
  | context [request_loop ?p ?d ?g ?c ?e ?s ?er ?v] =>
      destruct (request_loop p d g c e s er v) as [tr' [[e' w3]|]] eqn:E
  end; inversion H; subst.
  eapply read_loop_verified in E; eauto.
  destruct (keeps_release_all (e_final_clock env)
              (List.length (node_list (rq w3))) 0 w3)
    as (K1 & _ & _ & _ & K5 & _).
  rewrite K1, K5. exact E.
Qed.

(** *** Candidate addresses *)

Lemma store_node_addr_spec (ok : bool) (a : sockaddr_in) (r : request) :
  __store_node ok a r = r \/
  (existsb (same_addr a) (addr_list r) = false /\
   __store_node ok a r = set_addr_list (addr_list r ++ [a]) r).
Proof.
  unfold __store_node.
  destruct (existsb (same_addr a) (addr_list r)); [now left|].
  destruct ok; [right; split; reflexivity | now left].
Qed.

Lemma existsb_same_addr (a : sockaddr_in) (l : list sockaddr_in) :
  existsb (same_addr a) l = false <-> ~ In a l.
Proof.
  split.
  - intros H Hin.
    assert (E : existsb (same_addr a) l = true).
    { apply existsb_exists. exists a. split; [exact Hin|].
      now apply same_addr_eq. }
    congruence.
  - intro H. destruct (existsb (same_addr a) l) eqn:E; [|reflexivity].
    apply existsb_exists in E. destruct E as (b & Hb & E).
    apply same_addr_eq in E. subst b. contradiction.
Qed.

Lemma NoDup_snoc (a : sockaddr_in) (l : list sockaddr_in) :
  NoDup l -> ~ In a l -> NoDup (l ++ [a]).
Proof.
  intros Hl Ha. apply NoDup_app; [exact Hl | |].
  - constructor; [intros [] | constructor].
  - intros b Hb [<- | []]. contradiction.
Qed.

Lemma extends_refl (w : world) : extends w w.
Proof. unfold extends. auto. Qed.

Lemma extends_trans (w1 w2 w3 : world) :
  extends w1 w2 -> extends w2 w3 -> extends w1 w3.
Proof.
  unfold extends. intros (A1 & A2 & A3) (B1 & B2 & B3).
  repeat split; [congruence | lia | auto].
Qed.

Lemma keeps_extends (w w' : world) : keeps_request w w' -> extends w w'.
Proof.
  unfold keeps_request, extends. intros (_ & E & I & _).
  rewrite E, I. auto.
Qed.

Lemma extends_store_node (ok : bool) (a : sockaddr_in) (w : world) :
  extends w (upd_rq (__store_node ok a) w).
Proof.
  unfold extends, upd_rq.
  destruct (store_node_addr_spec ok a (rq w)) as [E | [Hex E]]; rewrite E; simpl.
  - auto.
  - rewrite length_app. simpl. repeat split; [lia|].
    intro Hnd. apply NoDup_snoc; [exact Hnd|].
    now apply existsb_same_addr.
Qed.

Lemma extends_store_node_str (ok : bool) (s : string) (w : world) :
  extends w (upd_rq (store_node ok s) w).
Proof.
  unfold store_node.
  destruct (split_at ":"%char s) as [[host port]|].
  - destruct (inet_aton host).
    + apply extends_store_node.
    + unfold upd_rq. rewrite world_eta. apply extends_refl.
  - unfold upd_rq. rewrite world_eta. apply extends_refl.
Qed.

Lemma extends_proc_msg (digest : list byte) (ok : bool) (now : timeval)
    (buf : string) (n : node) (w : world) :
  extends w (snd (proc_msg digest ok now buf n w)).
Proof.
  unfold proc_msg.
  destruct (prefix STORE_CHUNK buf).
  { destruct (chunk (rq w)); simpl; [|apply extends_refl].
    unfold extends; simpl; auto. }
  destruct (prefix REQUEST_DONE buf).
  { destruct (String.eqb _ _); simpl; [|apply extends_refl].
    eapply extends_trans; [|apply keeps_extends, keeps_cache_node].
    unfold extends; simpl; auto. }
  destruct (prefix STORE_NODE buf); simpl; [|apply extends_refl].
  apply extends_store_node_str.
Qed.

Lemma extends_readcb_lines (digest : list byte) (ok : nat -> bool)
    (now : timeval) (n : node) (lines : list string) :
  forall k d w, extends w (readcb_lines digest ok now lines k d n w).
Proof.
  induction lines as [|l rest IH]; intros k d w; simpl; [apply extends_refl|].
  destruct d; [apply IH|].
  pose proof (extends_proc_msg digest (ok k) now l n w) as H.
  destruct (proc_msg digest (ok k) now l n w) as [d' w']; simpl in H.
  eapply extends_trans; [exact H | apply IH].
Qed.

Lemma extends_readcb (digest : list byte) (data : string) (ok : nat -> bool)
    (now : timeval) (n : node) (w : world) :
  extends w (readcb digest data ok now n w).
Proof.
  unfold readcb.
  destruct (split_lines EmptyString (String.append (input n) data)) as [ls r].
  eapply extends_trans; [|apply extends_readcb_lines].
  apply keeps_extends, keeps_update_node.
Qed.

Lemma extends_run_event (digest : list byte) (e : event) (w : world) :
  extends w (run_event digest e w).
Proof.
  destruct e as [id data ok now | id | id res now]; simpl;
    destruct (lookup id (node_list (rq w))) as [n|]; try apply extends_refl.
  - destruct (bev_enabled n); [apply extends_readcb | apply extends_refl].
  - destruct (bev_enabled n); [|apply extends_refl].
    apply keeps_extends, keeps_free_node.
  - destruct (connect_pending n); [|apply extends_refl].
    apply keeps_extends.
    eapply keeps_trans; [apply keeps_update_node | apply keeps_try_connect].
Qed.

Lemma extends_events (digest : list byte) (evs : list event) :
  forall w, extends w (fold_left (fun w e => run_event digest e w) evs w).
Proof.
  induction evs as [|e r IH]; intro w; simpl; [apply extends_refl|].
  eapply extends_trans; [apply extends_run_event | apply IH].
Qed.

Lemma extends_turn (digest : list byte) (s : step) (w : world) :
  extends w (event_base_loop digest s w).
Proof.
  unfold event_base_loop.
  pose proof (extends_events digest (st_events s) w) as H.
  destruct (st_timeout s); [|exact H].
  eapply extends_trans; [exact H|]. unfold extends; simpl; auto.
Qed.

Lemma nodup_loop (payload : string) (db_info : zdb_info) (digest : list byte)
    (chunk_arg : bool) (denv : nat -> dispatch_outcome) (steps : list step)
    (err : Z) (w : world) (tr : list world) (res : option (Z * world)) :
  NoDup (addr_list (rq w)) ->
  request_loop payload db_info digest chunk_arg denv steps err w = (tr, res) ->
  Forall (fun v => NoDup (addr_list (rq v))) tr /\
  (forall e w', res = Some (e, w') -> NoDup (addr_list (rq w'))).
Proof.
  apply (loop_invariant payload db_info digest chunk_arg denv
           (fun v => NoDup (addr_list (rq v)))).
  - intros v Hv. now rewrite dispatch_addr_list.
  - intros s v Hv. now apply (extends_turn digest s v).
  - intros v Hv. exact Hv.
Qed.

(** C8.  [__store_node] appends an address only when no entry of the
    candidate list has the same IPv4 address and port, and so at every
    suspension point of a request and at its return the candidate list
    holds no address twice. *)
Theorem candidates_distinct :
  forall (payload : string) (db_info : zdb_info) (digest : list byte)
         (chunk : bool) (env : environment) (w : world)
         (tr : list world) (res : option (Z * world)),
    send_request payload db_info digest chunk env w = (tr, res) ->
    Forall (fun v => NoDup (addr_list (rq v))) tr /\
    (forall e w', res = Some (e, w') -> NoDup (addr_list (rq w'))) /\
    (forall ok a r,
       addr_list (__store_node ok a r) <> addr_list r ->
       existsb (same_addr a) (addr_list r) = false /\
       addr_list (__store_node ok a r) = addr_list r ++ [a]).
Proof.
  intros payload db_info digest chunk env w tr res H.
  assert (Hstore : forall ok a r,
            addr_list (__store_node ok a r) <> addr_list r ->
            existsb (same_addr a) (addr_list r) = false /\
            addr_list (__store_node ok a r) = addr_list r ++ [a]).
  { intros ok a r Hne.
    destruct (store_node_addr_spec ok a r) as [E | [Hex E]].
    - rewrite E in Hne. contradiction.
    - rewrite E. split; [exact Hex | reflexivity]. }
  unfold send_request in H.
  destruct (e_base_ok env); simpl in H.
  - match type of H with
    | context [request_loop ?p ?d ?g ?c ?e ?s ?er ?v] =>
        destruct (request_loop p d g c e s er v) as [tr' res'] eqn:E
    end.
    apply nodup_loop in E.
    + destruct E as [F R].
      destruct res' as [[e' w3]|]; inversion H; subst;
        (split; [exact F|]); (split; [|exact Hstore]).
      * intros e w' Eq. inversion Eq; subst.
        destruct (keeps_release_all (e_final_clock env)
                    (List.length (node_list (rq w3))) 0 w3) as (_ & K & _).
        rewrite K. eapply R. reflexivity.
      * discriminate.
    + unfold request_start. simpl.
      apply (extends_store_node (e_realloc_ok env) (start_node db_info)
               (set_rq (init_request chunk) w)).
      simpl. constructor.
  - inversion H; subst. split; [constructor|]. split; [|exact Hstore].
    intros e w' Eq. inversion Eq; subst. simpl. constructor.
Qed.



(** *** The dead list *)

Lemma scan_dead_live (now : timeval) (sa : sockaddr_in) (d : node)
    (l : list node) :
  forall w,
    In d l -> node_is_addr d sa = true ->
    timercmp_gt now (stamp d) = false ->
    fst (scan_dead now sa l w) = true.
Proof.
  induction l as [|n r IH]; intros w Hin Ha Ht; [contradiction|].
  simpl. destruct (timercmp_gt now (stamp n)) eqn:En.
  - destruct Hin as [-> | Hin]; [congruence|]. now apply IH.
  - destruct (node_is_addr n sa) eqn:An; [reflexivity|].
    destruct Hin as [-> | Hin]; [congruence|]. now apply IH.
Qed.

Lemma scan_dead_quiet (now : timeval) (sa : sockaddr_in) (l : list node) :
  forall w,
    let w' := snd (scan_dead now sa l w) in
    sock_calls w' = sock_calls w /\ next_node w' = next_node w /\
    (node_list (rq w) = [] -> node_list (rq w') = []).
Proof.
  induction l as [|n r IH]; intro w; simpl; [auto|].
  destruct (timercmp_gt now (stamp n)).
  - destruct (IH (free_node n w)) as (H1 & H2 & H3).
    cbv zeta. rewrite H1, H2. repeat split.
    + unfold free_node. destruct (attached n); reflexivity.
    + unfold free_node. destruct (attached n); reflexivity.
    + intro E. apply H3. rewrite free_node_list, E. reflexivity.
  - destruct (node_is_addr n sa); simpl; [auto | apply IH].
Qed.

Lemma find_node_dead (now : timeval) (sa : sockaddr_in) (d : node)
    (w : world) :
  scan_cache sa (node_cache w) = None ->
  In d (dead_nodes w) -> node_is_addr d sa = true ->
  timercmp_gt now (stamp d) = false ->
  exists w1, find_node now sa w = (Dead, w1) /\
    keeps_request w w1 /\
    sock_calls w1 = sock_calls w /\ next_node w1 = next_node w /\
    (node_list (rq w) = [] -> node_list (rq w1) = []).
Proof.
  intros Hc Hin Ha Ht. unfold find_node. rewrite Hc.
  pose proof (scan_dead_live now sa d (dead_nodes w) w Hin Ha Ht) as Hf.
  pose proof (scan_dead_quiet now sa (dead_nodes w) w) as Hq.
  pose proof (keeps_scan_dead now sa (dead_nodes w) w) as Hk.
  destruct (scan_dead now sa (dead_nodes w) w) as [b w1]. simpl in *.
  subst b. exists w1. destruct Hq as (Q1 & Q2 & Q3). auto.
Qed.

Lemma request_start_rq (db_info : zdb_info) (chunk : bool) (w : world) :
  rq (request_start db_info chunk true w)
  = mk_request chunk [] [start_node db_info] 0 0 0.
Proof. reflexivity. Qed.

(** C7.  When the dead list holds a live entry for the start node (and the
    idle list holds no connection to it), the dispatch to the start node
    answers [-EINVAL] with no [socket] call and no node put on the
    request's list, and [send_request] returns [-EIO] without ever blocking
    in the event loop, with no socket opened and no node created or
    attached. *)
Theorem dead_start_node_rejected :
  forall (payload : string) (db_info : zdb_info) (digest : list byte)
         (chunk : bool) (env : environment) (w : world) (d : node),
    scan_cache (start_node db_info) (node_cache w) = None ->
    In d (dead_nodes w) ->
    node_is_addr d (start_node db_info) = true ->
    timercmp_gt (d_now (e_dispatch env 0)) (stamp d) = false ->
    (exists w1,
       send_request_to payload (e_dispatch env 0) (start_node db_info)
         (request_start db_info chunk true w) = (- EINVAL, w1) /\
       sock_calls w1 = sock_calls w /\ node_list (rq w1) = []) /\
    (exists w',
       send_request payload db_info digest chunk env w
         = ([], Some (- EIO, w')) /\
       sock_calls w' = sock_calls w /\ next_node w' = next_node w /\
       node_list (rq w') = []).
Proof.
  intros payload db_info digest chunk env w d Hc Hin Ha Ht.
  assert (Hdisp : forall ok,
            exists w1,
              send_request_to payload (e_dispatch env 0) (start_node db_info)
                (request_start db_info chunk ok w) = (- EINVAL, w1) /\
              keeps_request (request_start db_info chunk ok w) w1 /\
              sock_calls w1 = sock_calls w /\ next_node w1 = next_node w /\
              node_list (rq w1) = []).
  { intro ok.
    destruct (find_node_dead (d_now (e_dispatch env 0)) (start_node db_info)
                d (request_start db_info chunk ok w))
      as (w1 & E & K & S & N & L); auto.
    exists w1. unfold send_request_to. rewrite E.
    repeat split; try apply K; auto.
    apply L. unfold request_start, __store_node. simpl.
    destruct ok; reflexivity. }
  split.
  { destruct (Hdisp true) as (w1 & E & _ & S & _ & L). eauto. }
  unfold send_request. destruct (e_base_ok env); cbn [negb].
  2:{ eexists. split; [reflexivity|]. simpl. auto. }
  set (w0 := request_start db_info chunk (e_realloc_ok env) w).
  assert (Hpass : timeout_pending (dispatch payload db_info (e_dispatch env) w0) = true /\
                  node_list (rq (dispatch payload db_info (e_dispatch env) w0)) = [] /\
                  sock_calls (dispatch payload db_info (e_dispatch env) w0) = sock_calls w /\
                  next_node (dispatch payload db_info (e_dispatch env) w0) = next_node w).
  { unfold dispatch. subst w0.
    destruct (e_realloc_ok env) eqn:Hr.
    - rewrite request_start_rq. simpl skipn. cbn [dispatch_loop].
      rewrite request_start_rq. simpl addr_concurrency. simpl addr_index.
      destruct (max_concurrency db_info <=? 0); [repeat split; reflexivity|].
      destruct (Hdisp true) as (w1 & E & K & S & N & L).
      change (Z.to_nat 0) with 0%nat. rewrite E. simpl.
      destruct K as (_ & _ & _ & _ & _ & K6).
      rewrite K6. repeat split; auto.
    - simpl. repeat split; reflexivity. }
  destruct Hpass as (P1 & P2 & P3 & P4).
  rewrite (loop_exit_empty payload db_info digest chunk (e_dispatch env)
             (e_steps env) (- EIO) w0 P1 P2).
  rewrite P2. simpl. eexists. split; [reflexivity|]. auto.
Qed.

(** *** Fan-out accounting *)

Lemma detached_unlink (n : node) (l : list node) :
  detached l -> detached (unlink n l).
Proof.
  unfold detached. rewrite !Forall_forall.
  intros H m Hm. apply unlink_In in Hm. apply H. tauto.
Qed.

Lemma calm_refl (w : world) : both_detached w -> calm w w.
Proof. intro H. unfold calm. repeat split; try apply H; lia. Qed.

Lemma calm_trans (w1 w2 w3 : world) :
  calm w1 w2 -> calm w2 w3 -> calm w1 w3.
Proof.
  unfold calm. intros (_ & A2 & A3) (B1 & B2 & B3).
  repeat split; try apply B1; [congruence | lia].
Qed.

Lemma in_flight_unlink (n : node) (w : world) (l : list node) :
  node_list (rq w) = unlink n l ->
  in_flight w <= Z.of_nat (List.length l).
Proof.
  intro E. unfold in_flight. rewrite E.
  pose proof (unlink_length n l). lia.
Qed.

Lemma calm_list_del (n : node) (w : world) :
  both_detached w -> calm w (list_del n w).
Proof.
  intros [Hc Hd]. unfold calm, both_detached. simpl.
  repeat split; try now apply detached_unlink.
  now apply (in_flight_unlink n _ (node_list (rq w))).
Qed.

Lemma calm_free_node (n : node) (w : world) :
  attached n = false -> both_detached w -> calm w (free_node n w).
Proof.
  intros Ha [Hc Hd]. unfold free_node. rewrite Ha.
  unfold calm, both_detached. simpl.
  repeat split; try now apply detached_unlink.
  now apply (in_flight_unlink n _ (node_list (rq w))).
Qed.

Lemma calm_scan_dead (now : timeval) (sa : sockaddr_in) (l : list node) :
  forall w, detached l -> both_detached w ->
            calm w (snd (scan_dead now sa l w)).
Proof.
  induction l as [|d r IH]; intros w Hl Hw; simpl; [now apply calm_refl|].
  inversion Hl as [|? ? Hd Hr]; subst.
  destruct (timercmp_gt now (stamp d)).
  - pose proof (calm_free_node d w Hd Hw) as C.
    eapply calm_trans; [exact C|]. apply IH; [exact Hr | apply C].
  - destruct (node_is_addr d sa); simpl; [now apply calm_refl | now apply IH].
Qed.

Lemma calm_find_node (now : timeval) (sa : sockaddr_in) (w : world) :
  both_detached w ->
  calm w (snd (find_node now sa w)) /\
  (forall n, fst (find_node now sa w) = Hit n -> attached n = false).
Proof.
  intros Hw. unfold find_node.
  destruct (scan_cache sa (node_cache w)) as [n|] eqn:E.
  - simpl. split.
    + apply (calm_list_del n (set_cache_count (u32 (cache_count w - 1)) w)).
      exact Hw.
    + intros m Hm. inversion Hm; subst.
      apply scan_cache_In in E. destruct E as [Hin _].
      destruct Hw as [Hc _]. unfold detached in Hc.
      rewrite Forall_forall in Hc. now apply Hc.
  - pose proof (calm_scan_dead now sa (dead_nodes w) w (proj2 Hw) Hw) as C.
    destruct (scan_dead now sa (dead_nodes w) w) as [[] w']; simpl in *;
      (split; [exact C | discriminate]).
Qed.

Lemma in_flight_unlink_member (n : node) (l : list node) :
  In (node_id n) (ids l) ->
  (List.length (unlink n l) < List.length l)%nat.
Proof.
  induction l as [|m l IH]; simpl; intro H; [contradiction|].
  unfold same_node at 1.
  destruct (Nat.eqb_spec (node_id m) (node_id n)) as [E|E]; simpl.
  - pose proof (unlink_length n l). lia.
  - destruct H as [H|H]; [contradiction|]. apply IH in H. lia.
Qed.

Lemma last_detached (d : node) (l : list node) :
  attached d = false -> detached l -> attached (last l d) = false.
Proof.
  intros Hd Hl. destruct l as [|a l]; [exact Hd|].
  unfold detached in Hl. rewrite Forall_forall in Hl.
  apply Hl. apply last_In. discriminate.
Qed.

(** [__cache_node] keeps the counter and takes the node off the request's
    list. *)
Lemma calm_cache_node (now : timeval) (n : node) (w : world) :
  both_detached w ->
  calm w (__cache_node now n w) /\
  (In (node_id n) (ids (node_list (rq w))) ->
   in_flight (__cache_node now n w) < in_flight w).
Proof.
  intros [Hc Hd].
  assert (Hlt : In (node_id n) (ids (node_list (rq w))) ->
                Z.of_nat (List.length (unlink n (node_list (rq w))))
                < in_flight w).
  { intro H. apply in_flight_unlink_member in H. unfold in_flight. lia. }
  assert (Hle : Z.of_nat (List.length (unlink n (node_list (rq w))))
                <= in_flight w).
  { pose proof (unlink_length n (node_list (rq w))). unfold in_flight. lia. }
  unfold __cache_node. fold (idle_form n).
  destruct (connect_pending n).
  - unfold calm, both_detached, in_flight. simpl.
    repeat split; try now apply detached_unlink.
    + constructor; [reflexivity | now apply detached_unlink].
    + exact Hle.
    + exact Hlt.
  - set (w2 := set_cache_count _ (set_node_cache _ (list_del n w))).
    assert (H2 : both_detached w2).
    { subst w2. unfold both_detached. simpl. split.
      - constructor; [reflexivity | now apply detached_unlink].
      - now apply detached_unlink. }
    assert (L2 : node_list (rq w2) = unlink n (node_list (rq w))) by reflexivity.
    assert (C2 : addr_concurrency (rq w2) = addr_concurrency (rq w))
      by reflexivity.
    assert (F2 : in_flight w2
                 = Z.of_nat (List.length (unlink n (node_list (rq w)))))
      by (unfold in_flight; now rewrite L2).
    destruct (CACHE_MAX <? cache_count w2).
    + assert (Ht : attached (last (node_cache w2) (idle_form n)) = false).
      { apply last_detached; [reflexivity | apply H2]. }
      destruct (calm_free_node _ w2 Ht H2) as (J3 & C3 & F3).
      set (w3 := free_node _ w2) in *.
      unfold calm. change (rq (set_cache_count ?z w3)) with (rq w3).
      unfold in_flight in *.
      change (rq (set_cache_count ?z w3)) with (rq w3).
      repeat split; try apply J3; try congruence; try lia.
      intro H. apply Hlt in H. unfold in_flight in H. lia.
    + unfold calm. repeat split; try apply H2; try congruence; try lia.
      intro H. apply Hlt in H. lia.
Qed.

Lemma ids_store (n : node) (l : list node) : ids (store n l) = ids l.
Proof.
  unfold ids, store. rewrite map_map. apply map_ext_in.
  intros m _. unfold same_node.
  destruct (Nat.eqb_spec (node_id m) (node_id n)); congruence.
Qed.

Lemma calm_update_node (n : node) (w : world) :
  both_detached w -> calm w (update_node n w).
Proof.
  intros Hw. unfold calm, in_flight. simpl. rewrite store_length.
  repeat split; try apply Hw. lia.
Qed.

Lemma update_node_ids (n : node) (w : world) :
  ids (node_list (rq (update_node n w))) = ids (node_list (rq w)).
Proof. simpl. apply ids_store. Qed.

Lemma calm_try_connect (res : connect_result) (now : timeval) (n : node)
    (w : world) : both_detached w -> calm w (try_connect res now n w).
Proof.
  intro Hw. destruct res; unfold try_connect, cache_node.
  - now apply calm_update_node.
  - now apply calm_update_node.
  - pose proof (calm_update_node (set_connect_pending true n) w Hw) as C.
    eapply calm_trans; [exact C|]. apply calm_cache_node. apply C.
Qed.

Lemma calm_fanout (maxc : Z) (w w' : world) :
  fanout_inv maxc w -> calm w w' -> fanout_inv maxc w'.
Proof.
  unfold fanout_inv, slots_ok, calm. intros (_ & S) (J & C & F).
  split; [exact J | lia].
Qed.

Lemma in_flight_nonneg (w : world) : 0 <= in_flight w.
Proof. unfold in_flight. lia. Qed.

Lemma send_request_to_slots (p : string) (o : dispatch_outcome)
    (sa : sockaddr_in) (w : world) :
  both_detached w ->
  let w' := snd (send_request_to p o sa w) in
  both_detached w' /\
  addr_concurrency (rq w') = addr_concurrency (rq w) /\
  in_flight w' <= in_flight w + 1.
Proof.
  intro Hw. unfold send_request_to.
  destruct (calm_find_node (d_now o) sa w Hw) as [C Hhit].
  destruct (find_node (d_now o) sa w) as [[n| |] w1]; simpl in C, Hhit;
    destruct C as (J & Cc & F).
  - unfold in_flight in *. simpl. rewrite store_length. simpl.
    repeat split; try apply J; try congruence; lia.
  - simpl. repeat split; try apply J; try congruence; lia.
  - assert (Hsame : forall k,
              both_detached (set_sock_calls k w1) /\
              addr_concurrency (rq (set_sock_calls k w1))
              = addr_concurrency (rq w) /\
              in_flight (set_sock_calls k w1) <= in_flight w + 1).
    { intro k. unfold in_flight in *. simpl.
      repeat split; try apply J; try congruence; lia. }
    destruct (d_malloc o); cbn [negb];
      [|cbn [snd]; repeat split; try apply J; try congruence; lia].
    destruct (d_socket o) as [fd|]; [|apply Hsame].
    destruct (d_bev o); cbn [negb]; [|apply Hsame].
    cbn [write_request]. cbv zeta. cbn [snd].
    match goal with
    | |- context [try_connect ?r ?t ?m ?v] =>
        assert (Hv : both_detached v) by exact J;
        destruct (calm_try_connect r t m v Hv) as (J' & C' & F');
        set (w3 := try_connect r t m v) in *
    end.
    repeat split; try apply J'.
    + rewrite C'. simpl. exact Cc.
    + unfold in_flight in *. simpl in F'. lia.
Qed.

Lemma fanout_dispatch_loop (p : string) (db : zdb_info)
    (denv : nat -> dispatch_outcome) (todo : list sockaddr_in) :
  max_concurrency db < 2 ^ 32 ->
  forall w, fanout_inv (max_concurrency db) w ->
            fanout_inv (max_concurrency db) (dispatch_loop p db denv todo w).
Proof.
  intro Hmax. induction todo as [|a rest IH]; intros w Hw; cbn [dispatch_loop].
  - exact Hw.
  - destruct (Z.leb_spec (max_concurrency db) (addr_concurrency (rq w)));
      [exact Hw|].
    destruct Hw as [J [S1 S2]].
    pose proof (send_request_to_slots p (denv (Z.to_nat (addr_index (rq w))))
                  a w J) as H1.
    destruct (send_request_to p _ a w) as [ret w1]. simpl in H1.
    destruct H1 as (J1 & C1 & F1).
    apply IH. unfold fanout_inv, slots_ok, both_detached, in_flight in *.
    simpl. split; [exact J1|].
    assert (Hn : 0 <= Z.of_nat (List.length (node_list (rq w)))) by lia.
    unfold u32. rewrite Z.mod_small; lia.
Qed.

Lemma fanout_free_node (maxc : Z) (n : node) (w : world) :
  maxc < 2 ^ 32 -> fanout_inv maxc w ->
  In (node_id n) (ids (node_list (rq w))) ->
  fanout_inv maxc (free_node n w).
Proof.
  intros Hmax Hw Hin. destruct (attached n) eqn:Ha.
  - destruct Hw as [[Hc Hd] [S1 S2]].
    apply in_flight_unlink_member in Hin.
    unfold free_node. rewrite Ha.
    unfold fanout_inv, both_detached, slots_ok, in_flight in *. simpl.
    repeat split; try now apply detached_unlink.
    + unfold u32. rewrite Z.mod_small; lia.
    + unfold u32. rewrite Z.mod_small; lia.
  - eapply calm_fanout; [exact Hw|]. apply calm_free_node; [exact Ha|apply Hw].
Qed.

Lemma fanout_proc_msg (maxc : Z) (digest : list byte) (ok : bool)
    (now : timeval) (buf : string) (n : node) (w : world) :
  maxc < 2 ^ 32 -> fanout_inv maxc w ->
  In (node_id n) (ids (node_list (rq w))) ->
  fanout_inv maxc (snd (proc_msg digest ok now buf n w)) /\
  (fst (proc_msg digest ok now buf n w) = false ->
   node_list (rq (snd (proc_msg digest ok now buf n w))) = node_list (rq w)).
Proof.
  intros Hmax Hw Hin. unfold proc_msg.
  destruct (prefix STORE_CHUNK buf).
  { destruct (chunk (rq w)); simpl; split; auto. }
  destruct (prefix REQUEST_DONE buf).
  { destruct (String.eqb _ _); simpl fst; simpl snd;
      [|split; auto].
    split; [|discriminate].
    set (w1 := upd_rq _ w).
    assert (L1 : node_list (rq w1) = node_list (rq w)) by reflexivity.
    assert (C1 : addr_concurrency (rq w1)
                 = u32 (addr_concurrency (rq w) - 1)) by reflexivity.
    assert (J1 : both_detached w1) by apply Hw.
    destruct (calm_cache_node now n w1 J1) as [(J & C & F) Hlt].
    rewrite L1 in Hlt. specialize (Hlt Hin).
    destruct Hw as [_ [S1 S2]].
    pose proof (in_flight_unlink_member n _ Hin) as Hpos.
    unfold cache_node, fanout_inv, slots_ok, in_flight in *.
    rewrite L1 in *. split; [exact J|].
    rewrite C, C1. unfold u32. rewrite Z.mod_small; lia. }
  destruct (prefix STORE_NODE buf); simpl; [|split; auto].
  split.
  - unfold store_node.
    destruct (split_at ":"%char _) as [[host port]|];
      [destruct (inet_aton host)|]; unfold upd_rq, __store_node;
      try (rewrite world_eta; exact Hw).
    destruct (existsb _ _); [rewrite world_eta; exact Hw|].
    destruct ok; [exact Hw | rewrite world_eta; exact Hw].
  - intros _. unfold store_node.
    destruct (split_at ":"%char _) as [[host port]|];
      [destruct (inet_aton host)|]; unfold __store_node; try reflexivity.
    destruct (existsb _ _); [reflexivity|]. destruct ok; reflexivity.
Qed.

Lemma fanout_readcb_lines (maxc : Z) (digest : list byte) (ok : nat -> bool)
    (now : timeval) (n : node) (lines : list string) :
  maxc < 2 ^ 32 ->
  forall k d w,
    fanout_inv maxc w ->
    (d = false -> In (node_id n) (ids (node_list (rq w)))) ->
    fanout_inv maxc (readcb_lines digest ok now lines k d n w).
Proof.
  intro Hmax. induction lines as [|l rest IH]; intros k d w Hw Hin; simpl;
    [exact Hw|].
  destruct d; [apply IH; [exact Hw | discriminate]|].
  destruct (fanout_proc_msg maxc digest (ok k) now l n w Hmax Hw (Hin eq_refl))
    as [H1 H2].
  destruct (proc_msg digest (ok k) now l n w) as [d' w']. simpl in *.
  apply IH; [exact H1|]. intro E. rewrite (H2 E). auto.
Qed.

Lemma lookup_ids (id : nat) (l : list node) (n : node) :
  lookup id l = Some n -> In (node_id n) (ids l).
Proof.
  intro H. apply lookup_In in H. destruct H as [H _].
  unfold ids. now apply in_map.
Qed.

Lemma fanout_run_event (maxc : Z) (digest : list byte) (e : event)
    (w : world) :
  maxc < 2 ^ 32 -> fanout_inv maxc w ->
  fanout_inv maxc (run_event digest e w).
Proof.
  intros Hmax Hw.
  destruct e as [id data ok now | id | id res now]; simpl;
    destruct (lookup id (node_list (rq w))) as [n|] eqn:E; try exact Hw.
  - destruct (bev_enabled n); [|exact Hw].
    unfold readcb.
    destruct (split_lines EmptyString (String.append (input n) data))
      as [ls r].
    apply fanout_readcb_lines; [exact Hmax | |].
    + eapply calm_fanout; [exact Hw|]. apply calm_update_node. apply Hw.
    + intros _. rewrite update_node_ids. simpl. now apply lookup_ids in E.
  - destruct (bev_enabled n); [|exact Hw].
    apply fanout_free_node; auto. now apply lookup_ids in E.
  - destruct (connect_pending n); [|exact Hw].
    eapply calm_fanout; [exact Hw|].
    pose proof (calm_update_node (set_connect_pending false n) w (proj1 Hw))
      as C.
    eapply calm_trans; [exact C|]. apply calm_try_connect. apply C.
Qed.

Lemma fanout_turn (maxc : Z) (digest : list byte) (s : step) (w : world) :
  maxc < 2 ^ 32 -> fanout_inv maxc w ->
  fanout_inv maxc (event_base_loop digest s w).
Proof.
  intros Hmax Hw. unfold event_base_loop.
  assert (H : forall evs v, fanout_inv maxc v ->
            fanout_inv maxc
              (fold_left (fun w e => run_event digest e w) evs v)).
  { induction evs as [|e r IH]; intros v Hv; simpl; [exact Hv|].
    apply IH. now apply fanout_run_event. }
  specialize (H (st_events s) w Hw).
  destruct (st_timeout s); exact H.
Qed.

(** C4.  At every suspension point of a request the in-flight
    counter is at least the number of nodes on the request's list and at
    most [max_concurrency]. *)
Theorem in_flight_bounded :
  forall (payload : string) (db_info : zdb_info) (digest : list byte)
         (chunk : bool) (env : environment) (w : world)
         (tr : list world) (res : option (Z * world)),
    0 <= max_concurrency db_info < 2 ^ 32 ->
    detached (node_cache w) -> detached (dead_nodes w) ->
    send_request payload db_info digest chunk env w = (tr, res) ->
    Forall (fun v => in_flight v <= addr_concurrency (rq v)
                     /\ addr_concurrency (rq v) <= max_concurrency db_info) tr.
Proof.
  intros payload db_info digest chunk env w tr res Hmax Hc Hd H.
  unfold send_request in H.
  destruct (e_base_ok env); cbn [negb] in H;
    [|inversion H; constructor].
  match type of H with
  | context [request_loop ?p ?d ?g ?c ?e ?s ?er ?v] =>
      destruct (request_loop p d g c e s er v) as [tr' res'] eqn:E
  end.
  assert (Htr : tr' = tr) by (destruct res' as [[? ?]|]; now inversion H).
  subst tr'.
  eapply (loop_invariant payload db_info digest chunk (e_dispatch env)
            (fanout_inv (max_concurrency db_info))) in E.
  - destruct E as [F _]. eapply Forall_impl; [|exact F].
    intros v [_ S]. exact S.
  - intros v Hv. unfold dispatch. apply fanout_dispatch_loop; [lia|exact Hv].
  - intros s v Hv. apply fanout_turn; [lia|exact Hv].
  - intros v Hv. exact Hv.
  - unfold fanout_inv, both_detached, slots_ok, in_flight, request_start,
      __store_node. simpl.
    destruct (e_realloc_ok env); simpl; repeat split; auto; lia.
Qed.

(** *** How the loop ends *)

Section Exits.

Variable payload : string.
Variable db_info : zdb_info.
Variable digest : list byte.
Variable denv : nat -> dispatch_outcome.

Let pass := dispatch payload db_info denv.
Let turn := event_base_loop digest.

Lemma cursor_ok_pass (w : world) : cursor_ok w -> cursor_ok (pass w).
Proof.
  intro H. destruct (dispatch_spec payload db_info denv w H)
    as (_ & _ & _ & _ & _ & H6 & _).
  unfold cursor_ok, pass in *. lia.
Qed.

Lemma cursor_ok_turn (s : step) (w : world) :
  cursor_ok w -> cursor_ok (turn s w).
Proof.
  intro H. destruct (extends_turn digest s w) as (E1 & E2 & _).
  unfold cursor_ok, addr_count, turn in *. rewrite E1. lia.
Qed.

(** The loop hands back [-EIO] only from the check of the empty in-flight
    set or after a failed turn of the event loop. *)
Lemma io_error_loop (chunk_arg : bool) (steps : list step) :
  forall err v tr e w',
    0 < CHUNK_SIZE -> cursor_ok v ->
    request_loop payload db_info digest chunk_arg denv steps err v
      = (tr, Some (e, w')) ->
    e = - EIO ->
    (timeout_pending w' = true /\ node_list (rq w') = [] /\
     (addr_index (rq w') = addr_count (rq w') \/
      max_concurrency db_info <= addr_concurrency (rq w')))
    \/ (exists s, In s steps /\ st_loop_err s = true).
Proof.
  induction steps as [|s rest IH]; intros err v tr e w' Hpos Hv H He.
  - rewrite request_loop_nil in H. fold pass in H.
    destruct (negb (timeout_pending (pass v))) eqn:Ht.
    { inversion H; subst. unfold ETIMEDOUT, EIO in *. lia. }
    destruct (node_list (rq (pass v))) eqn:Hn; inversion H; subst.
    left. apply negb_false_iff in Ht.
    destruct (dispatch_spec payload db_info denv v Hv)
      as (_ & _ & _ & _ & _ & _ & H7).
    auto.
  - rewrite request_loop_cons in H. fold pass turn in H.
    destruct (negb (timeout_pending (pass v))) eqn:Ht.
    { inversion H; subst. unfold ETIMEDOUT, EIO in *. lia. }
    destruct (node_list (rq (pass v))) eqn:Hn.
    { inversion H; subst. left. apply negb_false_iff in Ht.
      destruct (dispatch_spec payload db_info denv v Hv)
        as (_ & _ & _ & _ & _ & _ & H7).
      auto. }
    assert (Hc : cursor_ok (turn s (pass v)))
      by (apply cursor_ok_turn, cursor_ok_pass, Hv).
    destruct (st_loop_err s) eqn:Hs.
    { right. exists s. split; [now left | exact Hs]. }
    assert (Hrec : forall err' u tr' res',
              cursor_ok u ->
              request_loop payload db_info digest chunk_arg denv rest err' u
                = (tr', res') ->
              (pass v :: tr', res') = (tr, Some (e, w')) ->
              (timeout_pending w' = true /\ node_list (rq w') = [] /\
               (addr_index (rq w') = addr_count (rq w') \/
                max_concurrency db_info <= addr_concurrency (rq w')))
              \/ (exists s0, In s0 (s :: rest) /\ st_loop_err s0 = true)).
    { intros err' u tr' res' Hu E Eq. inversion Eq; subst.
      destruct (IH err' u tr' (- EIO) w' Hpos Hu E eq_refl)
        as [L | (s0 & I0 & S0)]; [now left | right].
      exists s0. split; [now right | exact S0]. }
    destruct (done (rq (turn s (pass v))) =? 0).
    { destruct (request_loop payload db_info digest chunk_arg denv rest err
                  (turn s (pass v))) as [tr' res'] eqn:E.
      exact (Hrec _ _ _ _ Hc E H). }
    destruct (negb chunk_arg).
    { destruct (request_loop payload db_info digest chunk_arg denv rest
                  CHUNK_SIZE (turn s (pass v))) as [tr' res'] eqn:E.
      exact (Hrec _ _ _ _ Hc E H). }
    destruct (negb (chunk (rq (turn s (pass v)))) &&
              verify_chunk (chunk_buf (turn s (pass v))) digest)%bool.
    { inversion H; subst. unfold EIO in *. lia. }
    destruct (request_loop payload db_info digest chunk_arg denv rest err
                (rearm chunk_arg (turn s (pass v)))) as [tr' res'] eqn:E.
    exact (Hrec _ (rearm chunk_arg (turn s (pass v))) _ _ Hc E H).
Qed.



Lemma turn_fires (s : step) (w : world) :
  st_timeout s = true -> timeout_pending (turn s w) = false.
Proof. intro H. unfold turn, event_base_loop. rewrite H. reflexivity. Qed.

(** The call returns: a script in which the deadline fires is never left
    blocked. *)
Lemma request_returns (chunk_arg : bool) (steps : list step) :
  forall err v,
    (exists s, In s steps /\ st_timeout s = true) ->
    snd (request_loop payload db_info digest chunk_arg denv steps err v)
    <> None.
Proof.
  induction steps as [|s rest IH]; intros err v (s0 & Hin & Hs0);
    [contradiction|].
  rewrite request_loop_cons. fold pass turn.
  destruct (negb (timeout_pending (pass v))); [discriminate|].
  destruct (node_list (rq (pass v))); [discriminate|].
  destruct (st_loop_err s); [discriminate|].
  assert (Hrec : forall err' u,
            timeout_pending u = timeout_pending (turn s (pass v)) ->
            snd (let (tr, res) :=
                   request_loop payload db_info digest chunk_arg denv rest
                     err' u in (pass v :: tr, res)) <> None).
  { intros err' u Hu.
    destruct (st_timeout s) eqn:Hs.
    - rewrite loop_exit_timeout; [discriminate|].
      rewrite dispatch_timeout, Hu. now apply turn_fires.
    - destruct Hin as [-> | Hin]; [congruence|].
      specialize (IH err' u (ex_intro _ s0 (conj Hin Hs0))).
      destruct (request_loop payload db_info digest chunk_arg denv rest
                  err' u) as [tr res]. exact IH. }
  destruct (done (rq (turn s (pass v))) =? 0); [now apply Hrec|].
  destruct (negb chunk_arg); [now apply Hrec|].
  destruct (negb (chunk (rq (turn s (pass v)))) &&
            verify_chunk (chunk_buf (turn s (pass v))) digest)%bool;
    [discriminate|].
  now apply Hrec.
Qed.

End Exits.

(** C3.  [send_request] returns [-EIO] only when [event_base_new] fails,
    when a turn of the event loop fails, or when, with the deadline still
    pending, the in-flight set is empty after a dispatch pass; in the last
    case the cursor is at the end of the candidate list or the in-flight
    counter has reached [max_concurrency].  And whenever a dispatch pass
    ends with the deadline pending and the in-flight set empty, the loop
    stops there and hands back [err], which is [-EIO] unless a write has
    recorded [CHUNK_SIZE]. *)
Theorem io_error_exits :
  forall (payload : string) (db_info : zdb_info) (digest : list byte)
         (chunk : bool) (env : environment) (w : world) (tr : list world)
         (e : Z) (wf : world),
    0 < CHUNK_SIZE ->
    send_request payload db_info digest chunk env w = (tr, Some (e, wf)) ->
    (e = - EIO ->
     e_base_ok env = false \/
     (exists s, In s (e_steps env) /\ st_loop_err s = true) \/
     (exists w',
        request_loop payload db_info digest chunk (e_dispatch env)
          (e_steps env) (- EIO)
          (request_start db_info chunk (e_realloc_ok env) w)
        = (tr, Some (- EIO, w')) /\
        timeout_pending w' = true /\ node_list (rq w') = [] /\
        (addr_index (rq w') = addr_count (rq w') \/
         max_concurrency db_info <= addr_concurrency (rq w')))) /\
    (forall steps err v,
       timeout_pending (dispatch payload db_info (e_dispatch env) v) = true ->
       node_list (rq (dispatch payload db_info (e_dispatch env) v)) = [] ->
       request_loop payload db_info digest chunk (e_dispatch env) steps err v
       = ([], Some (err, dispatch payload db_info (e_dispatch env) v))).
Proof.
  intros payload db_info digest chunk env w tr e wf Hpos H.
  split; [|intros steps err v; apply loop_exit_empty].
  intro He. unfold send_request in H.
  destruct (e_base_ok env); cbn [negb] in H; [|now left].
  right.
  match type of H with
  | context [request_loop ?p ?d ?g ?c ?en ?s ?er ?v] =>
      destruct (request_loop p d g c en s er v) as [tr' [[e' w']|]] eqn:E
  end; inversion H; subst.
  assert (Hc : cursor_ok (request_start db_info chunk (e_realloc_ok env) w)).
  { unfold cursor_ok, addr_count, request_start, __store_node. simpl.
    destruct (e_realloc_ok env); simpl; lia. }
  destruct (io_error_loop payload db_info digest (e_dispatch env) chunk
              (e_steps env) _ _ _ _ _ Hpos Hc E eq_refl) as [L | R].
  - right. exists w'. auto.
  - now left.
Qed.








(** *** The final release *)

Lemma cache_node_shrinks (now : timeval) (n : node) (w : world) :
  In (node_id n) (ids (node_list (rq w))) ->
  (List.length (node_list (rq (__cache_node now n w)))
   < List.length (node_list (rq w)))%nat.
Proof.
  intro Hin. apply in_flight_unlink_member in Hin.
  unfold __cache_node. destruct (connect_pending n); [exact Hin|].
  match goal with |- context [if ?c then _ else _] => destruct c end;
    [|exact Hin].
  change (rq (set_cache_count ?z ?v)) with (rq v).
  rewrite free_node_list.
  eapply Nat.le_lt_trans; [apply unlink_length | exact Hin].
Qed.

(** The fuel given to [release_all] by [send_request] is enough: the
    request's list is empty when the call returns. *)
Lemma release_all_empties (clock : nat -> timeval) (fuel : nat) :
  forall k w,
    (List.length (node_list (rq w)) <= fuel)%nat ->
    node_list (rq (release_all fuel clock k w)) = [].
Proof.
  induction fuel as [|f IH]; intros k w Hlen; simpl.
  - destruct (node_list (rq w)); [reflexivity | simpl in Hlen; lia].
  - destruct (node_list (rq w)) as [|n l] eqn:E; [exact E|].
    apply IH.
    assert (Hin : In (node_id n) (ids (node_list (rq w))))
      by (rewrite E; now left).
    pose proof (cache_node_shrinks (clock k) n w Hin) as Hs.
    rewrite E in Hs. simpl in Hs, Hlen. lia.
Qed.

(** *** Construction *)

Lemma u32_range (z : Z) : 0 <= u32 z < 2 ^ 32.
Proof. unfold u32. apply Z.mod_pos_bound. reflexivity. Qed.

Lemma parse_opt_ok (opt : string) (zi zi' : zdb_info) :
  config_ok zi -> parse_opt opt zi = (0, zi') ->
  config_ok zi' /\ start_node zi' = start_node zi.
Proof.
  intros (H1 & H2 & H3) H. unfold parse_opt, EINVAL in H.
  destruct (prefix "timeout=" opt).
  { set (v := atoi (skip 8 opt)) in *. clearbody v.
    cbn [timeout tv_sec set_timeout_sec] in H.
    destruct (Z.eqb_spec v 0) as [E|E]; [discriminate|].
    injection H as Hzi. subst zi'. unfold config_ok. simpl. auto. }
  destruct (prefix "concurrency=" opt); [|discriminate].
  pose proof (u32_range (atoi (skip 12 opt))) as Hr.
  set (v := u32 (atoi (skip 12 opt))) in *. clearbody v.
  cbn [max_concurrency set_max_concurrency] in H.
  destruct (Z.eqb_spec v 0) as [E|E]; [discriminate|].
  injection H as Hzi. subst zi'. unfold config_ok. simpl.
  repeat split; auto; lia.
Qed.

Lemma parse_opts_later (opts : list string) :
  forall k zi zi',
    config_ok zi -> parse_opts opts (S k) zi = (0, zi') ->
    config_ok zi' /\ start_node zi' = start_node zi.
Proof.
  induction opts as [|opt r IH]; intros k zi zi' Hok H; simpl in H.
  - inversion H; subst. auto.
  - destruct (parse_opt opt zi) as [e zi1] eqn:E.
    destruct (Z.eqb_spec e 0) as [E0|E0]; [subst e|].
    + destruct (parse_opt_ok opt zi zi1 Hok E) as [Hok1 Hs1].
      destruct (IH (S k) zi1 zi' Hok1 H) as [Hok' Hs']. split; [exact Hok'|].
      congruence.
    + inversion H; subst. contradiction.
Qed.

(** Every handle the constructor returns has the write operation exactly
    when it was opened read-write, a non-zero timeout in whole seconds, a
    fan-out between 1 and 2^32 - 1, and as start node the address that
    [inet_aton] gave for the text before the first [':'] with the port
    [htons(atoi(...))] of the text after it. *)
Theorem ctor_handle_well_formed :
  forall (malloc_ok mode_rw : bool) (spec : string) (zi : zdb_info)
         (can_write : bool),
    zdb_chunkdb_ctor malloc_ok mode_rw spec = CtorOk zi can_write ->
    can_write = mode_rw /\ malloc_ok = true /\
    prefix "zunkdb:" (cstr spec) = true /\
    config_ok zi /\
    exists host port rest ip,
      strsep_all EmptyString (skip 7 (cstr spec))
        = String.append host (String ":" port) :: rest /\
      has_char ":"%char host = false /\
      inet_aton host = Some ip /\
      start_node zi = mk_addr ip (htons (atoi port)).
Proof.
  intros malloc_ok mode_rw spec zi can_write H.
  unfold zdb_chunkdb_ctor in H.
  destruct (prefix "zunkdb:" (cstr spec)) eqn:Hp; [|discriminate].
  destruct malloc_ok; [|discriminate]. cbn [negb] in H.
  destruct (parse_spec _ _) as [e zi'] eqn:E.
  destruct (Z.eqb_spec e 0) as [E0|E0]; [subst e|discriminate].
  inversion H; subst. repeat (split; [reflexivity|]).
  unfold parse_spec in E.
  destruct (strsep_all EmptyString (skip 7 (cstr spec))) as [|opt r] eqn:Es;
    [inversion E|].
  cbn [parse_opts Nat.eqb] in E.
  destruct (parse_first opt _) as [e1 zi1] eqn:E1.
  destruct (Z.eqb_spec e1 0) as [E10|E10]; [subst e1|inversion E; contradiction].
  unfold parse_first in E1.
  destruct (split_at ":"%char opt) as [[host port]|] eqn:Hs; [|inversion E1].
  destruct (inet_aton host) as [ip|] eqn:Hi; [|inversion E1].
  inversion E1; subst zi1.
  assert (Hok1 : config_ok
            (set_start_addr ip
               (set_start_port (htons (atoi port))
                  (mk_info (mk_addr 0 0) (mk_tv 60 0) (u32 (-1)))))).
  { unfold config_ok. simpl. repeat split; try discriminate. }
  destruct (parse_opts_later r 0 _ zi Hok1 E) as [Hok Hst].
  split; [exact Hok|].
  exists host, port, r, ip.
  assert (Hopt : opt = String.append host (String ":" port)
                 /\ has_char ":"%char host = false).
  { clear - Hs. revert host Hs. induction opt as [|c o IH]; intros host Hs;
      simpl in Hs; [discriminate|].
    destruct (Ascii.eqb_spec c ":"%char) as [Ec|Ec].
    - inversion Hs; subst. simpl. auto.
    - destruct (split_at ":"%char o) as [[a b]|]; [|discriminate].
      inversion Hs; subst. destruct (IH a eq_refl) as [-> Hh]. simpl.
      split; [reflexivity|].
      destruct (Ascii.eqb_spec c ":"%char); [contradiction|exact Hh]. }
  destruct Hopt as [-> Hh]. repeat split; auto.
Qed.

Lemma strsep_all_comma (a b cur : string) :
  has_char ","%char a = false ->
  strsep_all cur (String.append a (String "," b))
  = String.append cur a :: strsep_all EmptyString b.
Proof.
  revert cur. induction a as [|d r IH]; simpl; intros cur H.
  - rewrite append_empty. reflexivity.
  - apply orb_false_iff in H. destruct H as [Hd Hr].
    rewrite Hd, (IH _ Hr), append_assoc. reflexivity.
Qed.

Lemma prefix_append (a b : string) : prefix a (String.append a b) = true.
Proof.
  induction a as [|c a IH]; simpl; [apply prefix_empty|].
  destruct (ascii_dec c c); [exact IH | contradiction].
Qed.

Lemma skip_append (a b : string) :
  skip (String.length a) (String.append a b) = b.
Proof. induction a as [|c a IH]; simpl; [destruct b; reflexivity | exact IH]. Qed.

Lemma ctor_one_option (mode_rw : bool) (host port opt : string) (ip : Z) :
  has_char NUL host = false -> has_char ","%char host = false ->
  has_char ":"%char host = false ->
  has_char NUL port = false -> has_char ","%char port = false ->
  has_char NUL opt = false -> has_char ","%char opt = false ->
  inet_aton host = Some ip ->
  zdb_chunkdb_ctor true mode_rw
    (String.append "zunkdb:"
       (String.append (String.append host (String ":" port))
          (String "," opt)))
  = let (e, zi) :=
      parse_opt opt
        (mk_info (mk_addr ip (htons (atoi port))) (mk_tv 60 0) (u32 (-1))) in
    if e =? 0 then CtorOk zi mode_rw else CtorErr e.
Proof.
  intros Hn Hc Hcol Pn Pc Tn Tc Hip.
  assert (Hhp : has_char ","%char (String.append host (String ":" port)) = false).
  { rewrite has_char_app. simpl. rewrite Hc, Pc. reflexivity. }
  assert (Hz : has_char NUL
                 (String.append (String.append host (String ":" port))
                    (String "," opt)) = false).
  { rewrite !has_char_app. simpl. rewrite Hn, Pn, Tn. reflexivity. }
  unfold zdb_chunkdb_ctor. simpl cstr. rewrite (cstr_id _ Hz). simpl.
  rewrite prefix_empty. cbn [negb].
  unfold parse_spec. rewrite (strsep_all_comma _ _ _ Hhp). simpl String.append.
  rewrite (strsep_all_single _ _ Tc).
  cbn [parse_opts Nat.eqb]. unfold parse_first.
  rewrite (split_at_app _ _ _ Hcol), Hip. cbn [Z.eqb].
  simpl String.append.
  unfold set_start_addr, set_start_port. simpl.
  destruct (parse_opt opt _) as [e zi].
  destruct (e =? 0) eqn:E; simpl; rewrite ?E; reflexivity.
Qed.

(** One option after the address.  [timeout=<t>] sets the timeout to
    [atoi(t)] seconds, negative values included, and [concurrency=<t>] sets
    the fan-out to [atoi(t)] as an unsigned 32-bit value; either is
    rejected with [-EINVAL] exactly when that value is zero. *)
Theorem ctor_option_values :
  forall (mode_rw : bool) (host port t : string) (ip : Z),
    has_char NUL host = false -> has_char ","%char host = false ->
    has_char ":"%char host = false ->
    has_char NUL port = false -> has_char ","%char port = false ->
    has_char NUL t = false -> has_char ","%char t = false ->
    inet_aton host = Some ip ->
    zdb_chunkdb_ctor true mode_rw
      (String.append "zunkdb:"
         (String.append (String.append host (String ":" port))
            (String "," (String.append "timeout=" t))))
    = (if atoi t =? 0 then CtorErr (- EINVAL)
       else CtorOk (mk_info (mk_addr ip (htons (atoi port)))
                      (mk_tv (atoi t) 0) (u32 (-1))) mode_rw) /\
    zdb_chunkdb_ctor true mode_rw
      (String.append "zunkdb:"
         (String.append (String.append host (String ":" port))
            (String "," (String.append "concurrency=" t))))
    = (if u32 (atoi t) =? 0 then CtorErr (- EINVAL)
       else CtorOk (mk_info (mk_addr ip (htons (atoi port)))
                      (mk_tv 60 0) (u32 (atoi t))) mode_rw).
Proof.
  intros mode_rw host port t ip Hn Hc Hcol Pn Pc Tn Tc Hip.
  assert (Hk : forall key, has_char NUL key = false ->
            has_char ","%char key = false ->
            has_char NUL (String.append key t) = false /\
            has_char ","%char (String.append key t) = false).
  { intros key K1 K2. rewrite !has_char_app, K1, K2, Tn, Tc. auto. }
  split.
  - destruct (Hk "timeout="%string eq_refl eq_refl) as [K1 K2].
    rewrite (ctor_one_option mode_rw host port (String.append "timeout=" t) ip
               Hn Hc Hcol Pn Pc K1 K2 Hip).
    unfold parse_opt. rewrite prefix_append.
    change 8%nat with (String.length "timeout=").
    rewrite skip_append. cbn [timeout tv_sec set_timeout_sec].
    destruct (atoi t =? 0); reflexivity.
  - destruct (Hk "concurrency="%string eq_refl eq_refl) as [K1 K2].
    rewrite (ctor_one_option mode_rw host port
               (String.append "concurrency=" t) ip
               Hn Hc Hcol Pn Pc K1 K2 Hip).
    unfold parse_opt.
    assert (Hnt : prefix "timeout=" (String.append "concurrency=" t) = false)
      by reflexivity.
    rewrite Hnt, prefix_append.
    change 12%nat with (String.length "concurrency=").
    rewrite skip_append. cbn [max_concurrency set_max_concurrency].
    destruct (u32 (atoi t) =? 0); reflexivity.
Qed.

(** *** What a turn of the event loop leaves alone *)

Lemma handled_refl (w : world) : handled w w.
Proof.
  unfold handled. repeat split; auto. exists []. now rewrite app_nil_r.
Qed.

Lemma handled_trans (w1 w2 w3 : world) :
  handled w1 w2 -> handled w2 w3 -> handled w1 w3.
Proof.
  unfold handled.
  intros (A1 & (x & A2) & A3 & A4 & A5) (B1 & (y & B2) & B3 & B4 & B5).
  split; [congruence|]. split.
  { exists (x ++ y). rewrite B2, A2, app_assoc. reflexivity. }
  split; [congruence|]. split; [congruence|].
  intro H. destruct (A5 H) as [C1 C2]. destruct (B5 C1) as [D1 D2].
  split; congruence.
Qed.

Lemma handled_list_del (n : node) (w : world) : handled w (list_del n w).
Proof.
  unfold handled. simpl. repeat split; auto. exists []. now rewrite app_nil_r.
Qed.

Lemma handled_free_node (n : node) (w : world) : handled w (free_node n w).
Proof.
  unfold free_node, handled. destruct (attached n); simpl; repeat split; auto;
    exists []; now rewrite app_nil_r.
Qed.

Lemma handled_cache_node (now : timeval) (n : node) (w : world) :
  handled w (__cache_node now n w).
Proof.
  unfold __cache_node, free_node, handled.
  split_ifs; simpl; repeat split; auto; exists []; now rewrite app_nil_r.
Qed.

Lemma handled_update_node (n : node) (w : world) :
  handled w (update_node n w).
Proof.
  unfold handled. simpl. repeat split; auto. exists []. now rewrite app_nil_r.
Qed.

Lemma handled_try_connect (res : connect_result) (now : timeval) (n : node)
    (w : world) : handled w (try_connect res now n w).
Proof.
  destruct res; unfold try_connect, cache_node.
  - apply handled_update_node.
  - apply handled_update_node.
  - eapply handled_trans; [apply handled_update_node | apply handled_cache_node].
Qed.

Lemma handled_store_node (ok : bool) (s : string) (w : world) :
  handled w (upd_rq (store_node ok s) w).
Proof.
  unfold store_node.
  destruct (split_at ":"%char s) as [[host port]|];
    [destruct (inet_aton host) as [ip|]|];
    try (unfold upd_rq; rewrite world_eta; apply handled_refl).
  unfold upd_rq.
  destruct (store_node_addr_spec ok (mk_addr ip (htons (atoi port))) (rq w))
    as [E | [_ E]]; rewrite E.
  - rewrite world_eta. apply handled_refl.
  - unfold handled. simpl. repeat split; auto. eauto.
Qed.

Lemma handled_proc_msg (digest : list byte) (ok : bool) (now : timeval)
    (buf : string) (n : node) (w : world) :
  handled w (snd (proc_msg digest ok now buf n w)).
Proof.
  unfold proc_msg.
  destruct (prefix STORE_CHUNK buf).
  { destruct (chunk (rq w)) eqn:Hc; simpl; [|apply handled_refl].
    unfold handled. simpl. rewrite Hc. repeat split; try discriminate.
    exists []. now rewrite app_nil_r. }
  destruct (prefix REQUEST_DONE buf).
  { destruct (String.eqb _ _); simpl; [|apply handled_refl].
    eapply handled_trans; [|apply handled_cache_node].
    unfold handled. simpl. repeat split; auto.
    exists []. now rewrite app_nil_r. }
  destruct (prefix STORE_NODE buf); simpl; [|apply handled_refl].
  apply handled_store_node.
Qed.

Lemma handled_readcb_lines (digest : list byte) (ok : nat -> bool)
    (now : timeval) (n : node) (lines : list string) :
  forall k d w, handled w (readcb_lines digest ok now lines k d n w).
Proof.
  induction lines as [|l rest IH]; intros k d w; simpl; [apply handled_refl|].
  destruct d; [apply IH|].
  pose proof (handled_proc_msg digest (ok k) now l n w) as H.
  destruct (proc_msg digest (ok k) now l n w) as [d' w']; simpl in H.
  eapply handled_trans; [exact H | apply IH].
Qed.

Lemma handled_run_event (digest : list byte) (e : event) (w : world) :
  handled w (run_event digest e w).
Proof.
  destruct e as [id data ok now | id | id res now]; simpl;
    destruct (lookup id (node_list (rq w))) as [n|]; try apply handled_refl.
  - destruct (bev_enabled n); [|apply handled_refl]. unfold readcb.
    destruct (split_lines EmptyString (String.append (input n) data))
      as [ls r].
    eapply handled_trans; [apply handled_update_node
                          | apply handled_readcb_lines].
  - destruct (bev_enabled n); [apply handled_free_node | apply handled_refl].
  - destruct (connect_pending n); [|apply handled_refl].
    eapply handled_trans; [apply handled_update_node
                          | apply handled_try_connect].
Qed.

Lemma handled_events (digest : list byte) (evs : list event) :
  forall w, handled w (fold_left (fun w e => run_event digest e w) evs w).
Proof.
  induction evs as [|e r IH]; intro w; simpl; [apply handled_refl|].
  eapply handled_trans; [apply handled_run_event | apply IH].
Qed.

Lemma handled_turn (digest : list byte) (s : step) (w : world) :
  handled w (event_base_loop digest s w).
Proof.
  unfold event_base_loop.
  pose proof (handled_events digest (st_events s) w) as H.
  destruct (st_timeout s); [|exact H].
  eapply handled_trans; [exact H|].
  unfold handled. simpl. repeat split; auto. exists []. now rewrite app_nil_r.
Qed.

(** The deadline timer is disarmed by nothing but its own firing. *)
Lemma keeps_timer_proc_msg (digest : list byte) (ok : bool) (now : timeval)
    (buf : string) (n : node) (w : world) :
  timeout_pending (snd (proc_msg digest ok now buf n w)) = timeout_pending w.
Proof.
  unfold proc_msg.
  destruct (prefix STORE_CHUNK buf).
  { destruct (chunk (rq w)); reflexivity. }
  destruct (prefix REQUEST_DONE buf).
  { destruct (String.eqb _ _); simpl; [|reflexivity].
    match goal with
    | |- timeout_pending (cache_node ?t ?m ?v) = _ =>
        destruct (keeps_cache_node t m v) as (_ & _ & _ & _ & _ & K)
    end. exact K. }
  destruct (prefix STORE_NODE buf); reflexivity.
Qed.

Lemma keeps_timer_readcb_lines (digest : list byte) (ok : nat -> bool)
    (now : timeval) (n : node) (lines : list string) :
  forall k d w,
    timeout_pending (readcb_lines digest ok now lines k d n w)
    = timeout_pending w.
Proof.
  induction lines as [|l rest IH]; intros k d w; simpl; [reflexivity|].
  destruct d; [apply IH|].
  pose proof (keeps_timer_proc_msg digest (ok k) now l n w) as H.
  destruct (proc_msg digest (ok k) now l n w) as [d' w']; simpl in H.
  rewrite IH. exact H.
Qed.

Lemma keeps_timer_run_event (digest : list byte) (e : event) (w : world) :
  timeout_pending (run_event digest e w) = timeout_pending w.
Proof.
  destruct e as [id data ok now | id | id res now]; simpl;
    destruct (lookup id (node_list (rq w))) as [n|]; try reflexivity.
  - destruct (bev_enabled n); [|reflexivity]. unfold readcb.
    destruct (split_lines EmptyString (String.append (input n) data))
      as [ls r].
    rewrite keeps_timer_readcb_lines. reflexivity.
  - destruct (bev_enabled n); [|reflexivity].
    apply (keeps_free_node n w).
  - destruct (connect_pending n); [|reflexivity].
    match goal with
    | |- timeout_pending (try_connect ?r ?t ?m ?v) = _ =>
        destruct (keeps_try_connect r t m v) as (_ & _ & _ & _ & _ & K)
    end. rewrite K. reflexivity.
Qed.

Lemma keeps_timer_turn (digest : list byte) (s : step) (w : world) :
  st_timeout s = false ->
  timeout_pending (event_base_loop digest s w) = timeout_pending w.
Proof.
  intro H. unfold event_base_loop. rewrite H.
  generalize (st_events s). intro evs. revert w.
  induction evs as [|e r IH]; intro w; simpl; [reflexivity|].
  rewrite IH. apply keeps_timer_run_event.
Qed.

(** *** Properties of whole requests *)

Lemma dispatch_keeps (payload : string) (db_info : zdb_info)
    (denv : nat -> dispatch_outcome) (w : world) :
  chunk (rq (dispatch payload db_info denv w)) = chunk (rq w) /\
  addr_list (rq (dispatch payload db_info denv w)) = addr_list (rq w) /\
  chunk_buf (dispatch payload db_info denv w) = chunk_buf w /\
  addr_index (rq w) <= addr_index (rq (dispatch payload db_info denv w)).
Proof.
  unfold dispatch.
  destruct (dispatch_loop_spec payload db_info denv
              (skipn (Z.to_nat (addr_index (rq w))) (addr_list (rq w))) w)
    as (H1 & H2 & _ & H4 & _ & H6 & _).
  repeat split; auto. lia.
Qed.

(** A write never writes the caller's chunk buffer: at every suspension
    point and at the return of [zdb_write_chunk] the buffer holds what it
    held at the call, whatever frames the peers send. *)
Theorem write_leaves_buffer :
  forall (body : list byte) (digest : list byte) (db_info : zdb_info)
         (env : environment) (w : world) (tr : list world)
         (res : option (Z * world)),
    zdb_write_chunk body digest db_info env w = (tr, res) ->
    Forall (fun v => chunk_buf v = chunk_buf w) tr /\
    (forall e w', res = Some (e, w') -> chunk_buf w' = chunk_buf w).
Proof.
  intros c digest db_info env w tr res H.
  unfold zdb_write_chunk in H.
  destruct (e_evbuf_ok env); cbn [negb] in H.
  2:{ inversion H; subst. split; [constructor|].
      intros e w' E. now inversion E. }
  destruct (e_printf_ok env); cbn [negb] in H.
  2:{ inversion H; subst. split; [constructor|].
      intros e w' E. now inversion E. }
  unfold send_request in H.
  destruct (e_base_ok env); cbn [negb] in H.
  2:{ inversion H; subst. split; [constructor|].
      intros e w' E. now inversion E. }
  match type of H with
  | context [request_loop ?p ?d ?g ?c ?en ?s ?er ?v] =>
      destruct (request_loop p d g c en s er v) as [tr' res'] eqn:E;
      apply (loop_invariant p d g c en
               (fun u => chunk (rq u) = false
                         /\ chunk_buf u = chunk_buf w)) in E
  end.
  - destruct E as [F R].
    assert (Htr : tr' = tr) by (destruct res' as [[? ?]|]; now inversion H).
    subst tr'. split.
    + eapply Forall_impl; [|exact F]. intros v [_ Hv]. exact Hv.
    + intros e w' Eq. subst res.
      destruct res' as [[e' w3]|]; inversion H; subst.
      destruct (R e w3 eq_refl) as [_ Hb].
      destruct (keeps_release_all (e_final_clock env)
                  (List.length (node_list (rq w3))) 0 w3)
        as (_ & _ & _ & _ & K & _).
      congruence.
  - intros v [Hc Hb].
    match goal with
    | |- context [dispatch ?p ?d ?e v] =>
        destruct (dispatch_keeps p d e v) as (K1 & _ & K3 & _)
    end.
    split; congruence.
  - intros s v [Hc Hb].
    destruct (handled_turn digest s v) as (_ & _ & _ & _ & K).
    destruct (K Hc) as [K1 K2]. split; congruence.
  - intros v [Hc Hb]. split; [reflexivity | exact Hb].
  - unfold request_start, __store_node. simpl.
    destruct (e_realloc_ok env); simpl; auto.
Qed.

(** The call cannot hang: whenever the deadline fires in some turn of the
    event loop, [send_request] returns. *)
Theorem send_request_returns :
  forall (payload : string) (db_info : zdb_info) (digest : list byte)
         (chunk : bool) (env : environment) (w : world),
    (exists s, In s (e_steps env) /\ st_timeout s = true) ->
    exists e w', snd (send_request payload db_info digest chunk env w)
                 = Some (e, w').
Proof.
  intros payload db_info digest chunk env w Hs.
  unfold send_request. destruct (e_base_ok env); cbn [negb]; [|simpl; eauto].
  pose proof (request_returns payload db_info digest (e_dispatch env) chunk
                (e_steps env) (- EIO)
                (request_start db_info chunk (e_realloc_ok env) w) Hs) as H.
  destruct (request_loop _ _ _ _ _ _ _ _) as [tr [[e w3]|]]; simpl in *.
  - eauto.
  - contradiction.
Qed.

Lemma timed_out_loop (payload : string) (db_info : zdb_info)
    (digest : list byte) (chunk_arg : bool) (denv : nat -> dispatch_outcome)
    (steps : list step) :
  forall err v tr e w',
    timeout_pending v = true ->
    request_loop payload db_info digest chunk_arg denv steps err v
      = (tr, Some (e, w')) ->
    timeout_pending w' = false ->
    exists s, In s steps /\ st_timeout s = true.
Proof.
  induction steps as [|s rest IH]; intros err v tr e w' Hv H Hw.
  - rewrite request_loop_nil in H. rewrite dispatch_timeout, Hv in H.
    cbn [negb] in H.
    destruct (node_list (rq (dispatch payload db_info denv v)));
      inversion H; subst.
    rewrite dispatch_timeout in Hw. congruence.
  - rewrite request_loop_cons in H. rewrite dispatch_timeout, Hv in H.
    cbn [negb] in H.
    destruct (node_list (rq (dispatch payload db_info denv v))).
    { inversion H; subst. rewrite dispatch_timeout in Hw. congruence. }
    destruct (st_timeout s) eqn:Hs; [exists s; split; [now left|exact Hs]|].
    set (v2 := event_base_loop digest s (dispatch payload db_info denv v)) in *.
    assert (H2 : timeout_pending v2 = true).
    { subst v2. rewrite (keeps_timer_turn digest s _ Hs), dispatch_timeout.
      exact Hv. }
    destruct (st_loop_err s); [inversion H; subst; congruence|].
    assert (Hrec : forall err' u tr' res',
              timeout_pending u = true ->
              request_loop payload db_info digest chunk_arg denv rest err' u
                = (tr', res') ->
              (dispatch payload db_info denv v :: tr', res')
                = (tr, Some (e, w')) ->
              exists s0, In s0 (s :: rest) /\ st_timeout s0 = true).
    { intros err' u tr' res' Hu E Eq. inversion Eq; subst.
      destruct (IH err' u tr' e w' Hu E Hw) as (s0 & I0 & S0).
      exists s0. split; [now right | exact S0]. }
    destruct (done (rq v2) =? 0).
    { destruct (request_loop payload db_info digest chunk_arg denv rest err v2)
        as [tr' res'] eqn:E. exact (Hrec _ _ _ _ H2 E H). }
    destruct (negb chunk_arg).
    { destruct (request_loop payload db_info digest chunk_arg denv rest
                  CHUNK_SIZE v2) as [tr' res'] eqn:E.
      exact (Hrec _ _ _ _ H2 E H). }
    destruct (negb (chunk (rq v2)) &&
              verify_chunk (chunk_buf v2) digest)%bool.
    { inversion H; subst. congruence. }
    destruct (request_loop payload db_info digest chunk_arg denv rest err
                (rearm chunk_arg v2)) as [tr' res'] eqn:E.
    exact (Hrec _ (rearm chunk_arg v2) _ _ H2 E H).
Qed.

Lemma timed_out_code (payload : string) (db_info : zdb_info)
    (digest : list byte) (chunk_arg : bool) (denv : nat -> dispatch_outcome)
    (steps : list step) :
  forall err v tr w',
    0 < CHUNK_SIZE -> err <> - ETIMEDOUT ->
    request_loop payload db_info digest chunk_arg denv steps err v
      = (tr, Some (- ETIMEDOUT, w')) ->
    timeout_pending w' = false.
Proof.
  induction steps as [|s rest IH]; intros err v tr w' Hpos Herr H.
  - rewrite request_loop_nil in H.
    destruct (negb (timeout_pending (dispatch payload db_info denv v))) eqn:Ht.
    { inversion H; subst. now apply negb_true_iff in Ht. }
    destruct (node_list (rq (dispatch payload db_info denv v)));
      inversion H; subst. contradiction.
  - rewrite request_loop_cons in H.
    destruct (negb (timeout_pending (dispatch payload db_info denv v))) eqn:Ht.
    { inversion H; subst. now apply negb_true_iff in Ht. }
    destruct (node_list (rq (dispatch payload db_info denv v))).
    { inversion H; subst. contradiction. }
    destruct (st_loop_err s); [inversion H; subst; contradiction|].
    assert (Hcs : CHUNK_SIZE <> - ETIMEDOUT) by (unfold ETIMEDOUT; lia).
    set (v2 := event_base_loop digest s (dispatch payload db_info denv v)) in *.
    destruct (done (rq v2) =? 0).
    { destruct (request_loop payload db_info digest chunk_arg denv rest err v2)
        as [tr' res'] eqn:E. inversion H; subst.
      exact (IH err v2 tr' w' Hpos Herr E). }
    destruct (negb chunk_arg).
    { destruct (request_loop payload db_info digest chunk_arg denv rest
                  CHUNK_SIZE v2) as [tr' res'] eqn:E.
      inversion H; subst. exact (IH CHUNK_SIZE v2 tr' w' Hpos Hcs E). }
    destruct (negb (chunk (rq v2)) &&
              verify_chunk (chunk_buf v2) digest)%bool.
    { inversion H; subst. contradiction. }
    destruct (request_loop payload db_info digest chunk_arg denv rest err
                (rearm chunk_arg v2)) as [tr' res'] eqn:E.
    inversion H; subst. exact (IH err (rearm chunk_arg v2) tr' w' Hpos Herr E).
Qed.

(** [-ETIMEDOUT] is returned only after the deadline timer has fired in
    some turn of the event loop. *)
Theorem timeout_only_after_deadline :
  forall (payload : string) (db_info : zdb_info) (digest : list byte)
         (chunk : bool) (env : environment) (w : world) (tr : list world)
         (w' : world),
    0 < CHUNK_SIZE ->
    send_request payload db_info digest chunk env w
      = (tr, Some (- ETIMEDOUT, w')) ->
    exists s, In s (e_steps env) /\ st_timeout s = true.
Proof.
  intros payload db_info digest chunk env w tr w' Hpos H.
  unfold send_request in H.
  destruct (e_base_ok env); cbn [negb] in H; [|inversion H].
  match type of H with
  | context [request_loop ?p ?d ?g ?c ?en ?s ?er ?v] =>
      destruct (request_loop p d g c en s er v) as [tr' [[e' w3]|]] eqn:E
  end; inversion H; subst.
  assert (Hf : timeout_pending w3 = false).
  { eapply timed_out_code; [exact Hpos | | exact E].
    unfold EIO, ETIMEDOUT. lia. }
  eapply timed_out_loop; [|exact E|exact Hf]. reflexivity.
Qed.

Lemma advances_refl (w : world) : advances w w.
Proof. split; [exists []; now rewrite app_nil_r | lia]. Qed.

Lemma advances_trans (w1 w2 w3 : world) :
  advances w1 w2 -> advances w2 w3 -> advances w1 w3.
Proof.
  intros [(x & A1) A2] [(y & B1) B2]. split; [|lia].
  exists (x ++ y). rewrite B1, A1, app_assoc. reflexivity.
Qed.

Lemma advances_pass (payload : string) (db_info : zdb_info)
    (denv : nat -> dispatch_outcome) (w : world) :
  advances w (dispatch payload db_info denv w).
Proof.
  destruct (dispatch_keeps payload db_info denv w) as (_ & K2 & _ & K4).
  split; [exists []; now rewrite K2, app_nil_r | exact K4].
Qed.

Lemma advances_turn (digest : list byte) (s : step) (w : world) :
  advances w (event_base_loop digest s w).
Proof.
  destruct (handled_turn digest s w) as (K1 & K2 & _).
  split; [exact K2 | lia].
Qed.

Lemma advances_loop (payload : string) (db_info : zdb_info)
    (digest : list byte) (chunk_arg : bool) (denv : nat -> dispatch_outcome)
    (steps : list step) :
  forall err v tr res,
    request_loop payload db_info digest chunk_arg denv steps err v
      = (tr, res) ->
    Forall (advances v) tr /\ ForallOrdPairs advances tr.
Proof.
  induction steps as [|s rest IH]; intros err v tr res H.
  - rewrite request_loop_nil in H.
    pose proof (advances_pass payload db_info denv v) as Hp.
    destruct (negb (timeout_pending (dispatch payload db_info denv v))).
    { inversion H; subst. split; constructor. }
    destruct (node_list (rq (dispatch payload db_info denv v)));
      inversion H; subst.
    + split; constructor.
    + split; [constructor; [exact Hp | constructor]
             | constructor; constructor].
  - rewrite request_loop_cons in H.
    pose proof (advances_pass payload db_info denv v) as Hp.
    destruct (negb (timeout_pending (dispatch payload db_info denv v))).
    { inversion H; subst. split; constructor. }
    destruct (node_list (rq (dispatch payload db_info denv v))).
    { inversion H; subst. split; constructor. }
    set (v1 := dispatch payload db_info denv v) in *.
    pose proof (advances_turn digest s v1) as Ht.
    set (v2 := event_base_loop digest s v1) in *.
    destruct (st_loop_err s).
    { inversion H; subst.
      split; [constructor; [exact Hp | constructor]
             | constructor; constructor]. }
    assert (Hrec : forall err' u tr' res',
              advances v1 u ->
              request_loop payload db_info digest chunk_arg denv rest err' u
                = (tr', res') ->
              (v1 :: tr', res') = (tr, res) ->
              Forall (advances v) tr /\ ForallOrdPairs advances tr).
    { intros err' u tr' res' Hu E Eq. inversion Eq; subst.
      destruct (IH err' u tr' res E) as (F & O).
      assert (F1 : Forall (advances v1) tr').
      { eapply Forall_impl; [|exact F].
        intros a Ha. eapply advances_trans; eauto. }
      split.
      - constructor; [exact Hp|].
        eapply Forall_impl; [|exact F1].
        intros a Ha. eapply advances_trans; eauto.
      - constructor; assumption. }
    destruct (done (rq v2) =? 0).
    { destruct (request_loop payload db_info digest chunk_arg denv rest err v2)
        as [tr' res'] eqn:E. exact (Hrec _ _ _ _ Ht E H). }
    destruct (negb chunk_arg).
    { destruct (request_loop payload db_info digest chunk_arg denv rest
                  CHUNK_SIZE v2) as [tr' res'] eqn:E.
      exact (Hrec _ _ _ _ Ht E H). }
    destruct (negb (chunk (rq v2)) &&
              verify_chunk (chunk_buf v2) digest)%bool.
    { inversion H; subst.
      split; [constructor; [exact Hp | constructor]
             | constructor; constructor]. }
    destruct (request_loop payload db_info digest chunk_arg denv rest err
                (rearm chunk_arg v2)) as [tr' res'] eqn:E.
    exact (Hrec _ (rearm chunk_arg v2) _ _ Ht E H).
Qed.

(** Candidates only accumulate and the cursor stays inside the list: at
    every suspension point and at the return the cursor is between 0 and
    the number of candidates, and from any suspension point to a later one
    the candidate list is extended at its end only and the cursor does not
    move back. *)
Theorem cursor_within_candidates :
  forall (payload : string) (db_info : zdb_info) (digest : list byte)
         (chunk : bool) (env : environment) (w : world)
         (tr : list world) (res : option (Z * world)),
    send_request payload db_info digest chunk env w = (tr, res) ->
    Forall cursor_ok tr /\ ForallOrdPairs advances tr /\
    (forall e w', res = Some (e, w') -> cursor_ok w').
Proof.
  intros payload db_info digest chunk env w tr res H.
  unfold send_request in H.
  destruct (e_base_ok env); cbn [negb] in H.
  2:{ inversion H; subst. split; [constructor|]. split; [constructor|].
      intros e w' E. inversion E; subst.
      unfold cursor_ok, addr_count; simpl; lia. }
  match type of H with
  | context [request_loop ?p ?d ?g ?c ?en ?s ?er ?v] =>
      destruct (request_loop p d g c en s er v) as [tr' res'] eqn:E
  end.
  assert (Htr : tr' = tr) by (destruct res' as [[? ?]|]; now inversion H).
  subst tr'.
  assert (Hc : cursor_ok (request_start db_info chunk (e_realloc_ok env) w)).
  { unfold cursor_ok, addr_count, request_start, __store_node. simpl.
    destruct (e_realloc_ok env); simpl; lia. }
  destruct (advances_loop _ _ _ _ _ _ _ _ _ _ E) as (_ & O).
  apply (loop_invariant payload db_info digest chunk (e_dispatch env)
           cursor_ok) in E; auto.
  2:{ intros v Hv. now apply cursor_ok_pass. }
  2:{ intros s v Hv. now apply cursor_ok_turn. }
  destruct E as [F R].
  split; [exact F|]. split; [exact O|].
  intros e w' Eq. subst res.
  destruct res' as [[e' w3]|]; inversion H; subst.
  destruct (keeps_release_all (e_final_clock env)
              (List.length (node_list (rq w3))) 0 w3)
    as (_ & K2 & K3 & _).
  specialize (R e w3 eq_refl). unfold cursor_ok, addr_count in *.
  rewrite K2, K3. exact R.
Qed.

(** *** More on the node cache *)

Lemma release_all_detached (clock : nat -> timeval) (fuel : nat) :
  forall k w, both_detached w -> both_detached (release_all fuel clock k w).
Proof.
  induction fuel as [|f IH]; intros k w Hw; simpl; [exact Hw|].
  destruct (node_list (rq w)) as [|n l]; [exact Hw|].
  apply IH. apply (calm_cache_node (clock k) n w Hw).
Qed.

(** A request gives back everything it held: when [send_request] returns,
    no node is left on the request's list, and the process-wide lists hold
    only detached nodes again, as they did at the call. *)
Theorem request_releases_nodes :
  forall (payload : string) (db_info : zdb_info) (digest : list byte)
         (chunk : bool) (env : environment) (w : world) (tr : list world)
         (e : Z) (w' : world),
    0 <= max_concurrency db_info < 2 ^ 32 ->
    detached (node_cache w) -> detached (dead_nodes w) ->
    send_request payload db_info digest chunk env w = (tr, Some (e, w')) ->
    node_list (rq w') = [] /\
    detached (node_cache w') /\ detached (dead_nodes w').
Proof.
  intros payload db_info digest chunk env w tr e w' Hmax Hc Hd H.
  unfold send_request in H.
  destruct (e_base_ok env); cbn [negb] in H.
  2:{ inversion H; subst. simpl. auto. }
  match type of H with
  | context [request_loop ?p ?d ?g ?c ?en ?s ?er ?v] =>
      destruct (request_loop p d g c en s er v) as [tr' [[e' w3]|]] eqn:E
  end; inversion H; subst.
  split; [apply release_all_empties; lia|].
  apply release_all_detached.
  eapply (loop_invariant payload db_info digest chunk (e_dispatch env)
            (fanout_inv (max_concurrency db_info))) in E.
  - destruct E as [_ R]. apply (R e w3 eq_refl).
  - intros v Hv. unfold dispatch. apply fanout_dispatch_loop; [lia|exact Hv].
  - intros s v Hv. apply fanout_turn; [lia|exact Hv].
  - intros v Hv. exact Hv.
  - unfold fanout_inv, both_detached, slots_ok, in_flight, request_start,
      __store_node. simpl.
    destruct (e_realloc_ok env); simpl; repeat split; auto; lia.
Qed.

Lemma same_addr_refl (a : sockaddr_in) : same_addr a a = true.
Proof. now apply same_addr_eq. Qed.

(** Release followed by acquire is a round trip: a connected node that is
    released is at once the one [find_node] hands out for its address, and
    taking it leaves the idle list as it was after the release without its
    head, with [cache_count] matching; when the list was not full, that is
    the list and the count from before the release. *)
Theorem release_then_acquire :
  forall (now now' : timeval) (n : node) (w : world),
    cache_ok w -> idle n w = false -> connect_pending n = false ->
    let w1 := __cache_node now n w in
    let r := find_node now' (addr n) w1 in
    fst r = Hit (idle_form n) /\
    node_cache w1 = idle_form n :: node_cache (snd r) /\
    cache_count (snd r) = Z.of_nat (List.length (node_cache (snd r))) /\
    (Z.of_nat (List.length (node_cache w)) < CACHE_MAX ->
     node_cache (snd r) = node_cache w /\ cache_count (snd r) = cache_count w).
Proof.
  intros now now' n w Hok Hidle Hp w1 r.
  destruct (cache_node_idle_head now n w Hok Hidle Hp) as (rest & Hrest).
  destruct (release_ok now n w Hok Hidle) as [(Hc1 & Hm1 & Hnd1 & _) _].
  fold w1 in Hrest, Hc1, Hm1, Hnd1.
  assert (Hscan : scan_cache (addr n) (node_cache w1) = Some (idle_form n)).
  { rewrite Hrest. simpl. unfold node_is_addr. simpl.
    now rewrite same_addr_refl. }
  assert (Habs : ~ In (node_id n) (ids rest)).
  { rewrite Hrest in Hnd1. simpl in Hnd1. now inversion Hnd1. }
  assert (Hun : unlink (idle_form n) (node_cache w1) = rest).
  { rewrite Hrest. cbn [unlink filter]. unfold same_node at 1. simpl.
    rewrite Nat.eqb_refl. simpl.
    apply (unlink_absent (idle_form n) rest Habs). }
  subst r. unfold find_node. rewrite Hscan. simpl fst. simpl snd.
  simpl node_cache. simpl cache_count. rewrite Hun.
  assert (Hlen : cache_count w1 = Z.of_nat (List.length rest) + 1).
  { rewrite Hc1, Hrest. simpl List.length. lia. }
  assert (Hcnt : u32 (cache_count w1 - 1) = Z.of_nat (List.length rest)).
  { rewrite Hlen. unfold u32. rewrite Hrest in Hm1. simpl List.length in Hm1.
    unfold CACHE_MAX in Hm1. rewrite Z.mod_small; lia. }
  split; [reflexivity|]. split; [exact Hrest|]. split; [exact Hcnt|].
  intro Hlt.
  destruct (cache_node_idle_room now n w Hok Hidle Hp Hlt) as [E1 E2].
  fold w1 in E1, E2. rewrite Hrest in E1. injection E1 as Er.
  destruct Hok as (Hc & _). rewrite Hcnt, Er, Hc. split; reflexivity.
Qed.

Lemma scan_cache_none (sa : sockaddr_in) (l : list node) :
  scan_cache sa l = None <-> forall m, In m l -> node_is_addr m sa = false.
Proof.
  induction l as [|a l IH]; simpl.
  - split; [intros _ m [] | reflexivity].
  - destruct (node_is_addr a sa) eqn:E.
    + split; [discriminate|]. intro H. specialize (H a (or_introl eq_refl)).
      congruence.
    + rewrite IH. split.
      * intros H m [<- | Hm]; auto.
      * intros H m Hm. apply H. now right.
Qed.

(** A node released while its connect watcher is pending is put at the
    head of the dead list, its socket closed and its stamp at the clock
    plus 60 seconds, and the idle list does not get it.  While no idle
    connection to its address is cached, a dispatch to that address at any
    clock reading not past the stamp fails with [-EINVAL], opens no socket
    and changes nothing. *)
Theorem unconnected_node_refused :
  forall (payload : string) (o : dispatch_outcome) (now : timeval)
         (n : node) (w : world),
    connect_pending n = true ->
    scan_cache (addr n) (node_cache w) = None ->
    timercmp_gt (d_now o) (mk_tv (tv_sec now + 60) (tv_usec now)) = false ->
    let w1 := __cache_node now n w in
    dead_nodes w1 = dead_form now n :: unlink n (dead_nodes w) /\
    node_cache w1 = unlink n (node_cache w) /\
    lookup (node_id n) (node_list (rq w1)) = None /\
    sk_open (dead_form now n) = false /\
    stamp (dead_form now n) = mk_tv (tv_sec now + 60) (tv_usec now) /\
    send_request_to payload o (addr n) w1 = (- EINVAL, w1).
Proof.
  intros payload o now n w Hp Hc Ht w1.
  pose proof (cache_node_unlinked now n w) as Hun. fold w1 in Hun.
  subst w1. revert Hun.
  rewrite (cache_node_dead now n w Hp). intro Hun.
  split; [reflexivity|]. split; [reflexivity|]. split; [exact Hun|].
  split; [reflexivity|]. split; [reflexivity|].
  unfold send_request_to, find_node. simpl node_cache.
  assert (Hs : scan_cache (addr n) (unlink n (node_cache w)) = None).
  { apply scan_cache_none. intros m Hm. apply unlink_In in Hm.
    destruct Hm as [Hm _]. revert m Hm. now apply scan_cache_none. }
  rewrite Hs. simpl dead_nodes. cbn [scan_dead].
  change (stamp (dead_form now n)) with (mk_tv (tv_sec now + 60) (tv_usec now)).
  rewrite Ht.
  change (node_is_addr (dead_form now n) (addr n))
    with (same_addr (addr n) (addr n)).
  rewrite same_addr_refl. reflexivity.
Qed.



(** *** Dispatch to one address *)

Lemma handled_scan_dead (now : timeval) (sa : sockaddr_in) (l : list node) :
  forall w, handled w (snd (scan_dead now sa l w)).
Proof.
  induction l as [|d r IH]; intro w; simpl; [apply handled_refl|].
  destruct (timercmp_gt now (stamp d)).
  - eapply handled_trans; [apply handled_free_node | apply IH].
  - destruct (node_is_addr d sa); [apply handled_refl | apply IH].
Qed.

Lemma handled_find_node (now : timeval) (sa : sockaddr_in) (w : world) :
  handled w (snd (find_node now sa w)).
Proof.
  unfold find_node. destruct (scan_cache sa (node_cache w)).
  - unfold handled. simpl. repeat split; auto.
    exists []. now rewrite app_nil_r.
  - pose proof (handled_scan_dead now sa (dead_nodes w) w) as H.
    destruct (scan_dead now sa (dead_nodes w) w) as [[] w']; exact H.
Qed.

Lemma scan_dead_list_le (now : timeval) (sa : sockaddr_in) (l : list node) :
  forall w,
    (List.length (node_list (rq (snd (scan_dead now sa l w))))
     <= List.length (node_list (rq w)))%nat.
Proof.
  induction l as [|d r IH]; intro w; simpl; [lia|].
  destruct (timercmp_gt now (stamp d)).
  - eapply Nat.le_trans; [apply IH|]. rewrite free_node_list.
    apply unlink_length.
  - destruct (node_is_addr d sa); [simpl; lia | apply IH].
Qed.

Lemma find_node_list_le (now : timeval) (sa : sockaddr_in) (w : world) :
  (List.length (node_list (rq (snd (find_node now sa w))))
   <= List.length (node_list (rq w)))%nat.
Proof.
  unfold find_node. destruct (scan_cache sa (node_cache w)).
  - simpl. apply unlink_length.
  - pose proof (scan_dead_list_le now sa (dead_nodes w) w) as H.
    destruct (scan_dead now sa (dead_nodes w) w) as [[] w']; exact H.
Qed.

Lemma store_unlinked (n m : node) (l : list node) :
  node_id m = node_id n -> store m (unlink n l) = unlink n l.
Proof.
  intro E. induction l as [|a l IH]; [reflexivity|].
  change (unlink n (a :: l))
    with (if negb (same_node n a) then a :: unlink n l else unlink n l).
  unfold same_node at 1 2.
  destruct (Nat.eqb_spec (node_id a) (node_id n)) as [Ea|Ea]; cbn [negb];
    [exact IH|].
  change (store m (a :: unlink n l))
    with ((if same_node m a then m else a) :: store m (unlink n l)).
  unfold same_node at 1. rewrite E.
  destruct (Nat.eqb_spec (node_id a) (node_id n)); [contradiction|].
  f_equal. exact IH.
Qed.

(** A dispatch to an address with an idle connection reuses it: the first
    idle node with that address is taken off the idle list and counted
    out, put at the head of the request's list attached and enabled, with
    the payload queued behind what its output buffer held; no socket is
    opened and no node is created. *)
Theorem dispatch_reuses_idle_node :
  forall (payload : string) (o : dispatch_outcome) (sa : sockaddr_in)
         (n : node) (w : world),
    scan_cache sa (node_cache w) = Some n ->
    let r := send_request_to payload o sa w in
    fst r = 0 /\
    node_list (rq (snd r))
    = set_bev_enabled true
        (set_output (String.append (output n) payload) (set_attached true n))
      :: unlink n (node_list (rq w)) /\
    node_cache (snd r) = unlink n (node_cache w) /\
    cache_count (snd r) = u32 (cache_count w - 1) /\
    sock_calls (snd r) = sock_calls w /\ next_node (snd r) = next_node w.
Proof.
  intros payload o sa n w Hs r. subst r.
  unfold send_request_to, find_node. rewrite Hs.
  cbn [write_request]. cbv zeta. cbn [fst snd].
  split; [reflexivity|]. split; [|repeat split].
  simpl node_list. cbn [store map]. unfold same_node at 1. simpl node_id.
  rewrite Nat.eqb_refl. f_equal.
  apply (store_unlinked n). reflexivity.
Qed.

(** A dispatch that fails attaches nothing: a non-zero return is
    [-EINVAL], [-ENOMEM] or [-EIO], the request's list has not grown and no
    node was created; [socket] was called exactly when the return is
    [-EIO]. *)
Theorem dispatch_failure_attaches_nothing :
  forall (payload : string) (o : dispatch_outcome) (sa : sockaddr_in)
         (w : world),
    let r := send_request_to payload o sa w in
    fst r <> 0 ->
    (fst r = - EINVAL \/ fst r = - ENOMEM \/ fst r = - EIO) /\
    (List.length (node_list (rq (snd r)))
     <= List.length (node_list (rq w)))%nat /\
    next_node (snd r) = next_node w /\
    sock_calls (snd r)
    = (if fst r =? - EIO then S (sock_calls w) else sock_calls w).
Proof.
  intros payload o sa w r Hr. subst r. revert Hr.
  unfold send_request_to.
  pose proof (handled_find_node (d_now o) sa w) as (_ & _ & Hs & Hn & _).
  pose proof (find_node_list_le (d_now o) sa w) as Hl.
  destruct (find_node (d_now o) sa w) as [[n| |] w1]; simpl in Hs, Hn, Hl.
  - cbn [write_request]. cbv zeta. cbn [fst]. intro H. contradiction.
  - cbn [fst snd]. intros _. repeat split; auto.
  - destruct (d_malloc o); cbn [negb fst snd].
    2:{ intros _. repeat split; auto. }
    destruct (d_socket o) as [fd|].
    2:{ cbn [fst snd]. intros _. simpl. repeat split; auto. }
    destruct (d_bev o); cbn [negb].
    2:{ cbn [fst snd]. intros _. simpl. repeat split; auto. }
    cbn [write_request]. cbv zeta. cbn [fst]. intro H. contradiction.
Qed.

(** *** Error codes of the constructor *)

Lemma parse_first_codes (opt : string) (zi : zdb_info) :
  fst (parse_first opt zi) = 0 \/ fst (parse_first opt zi) = - EINVAL.
Proof.
  unfold parse_first. destruct (split_at ":"%char opt) as [[a port]|];
    [|now right].
  destruct (inet_aton a); [now left | now right].
Qed.

Lemma parse_opt_codes (opt : string) (zi : zdb_info) :
  fst (parse_opt opt zi) = 0 \/ fst (parse_opt opt zi) = - EINVAL.
Proof.
  unfold parse_opt.
  destruct (prefix "timeout=" opt).
  { match goal with |- context [if ?c then _ else _] => destruct c end;
      [now right | now left]. }
  destruct (prefix "concurrency=" opt); [|now right].
  match goal with |- context [if ?c then _ else _] => destruct c end;
    [now right | now left].
Qed.

Lemma parse_opts_codes (opts : list string) :
  forall (k : nat) (zi : zdb_info),
    fst (parse_opts opts k zi) = 0 \/ fst (parse_opts opts k zi) = - EINVAL.
Proof.
  induction opts as [|opt rest IH]; intros k zi; [now left|].
  cbn [parse_opts].
  assert (H : forall p : Z * zdb_info,
             fst p = 0 \/ fst p = - EINVAL ->
             fst (let (e, zi') := p in
                  if e =? 0 then parse_opts rest (S k) zi' else (e, zi')) = 0
             \/ fst (let (e, zi') := p in
                  if e =? 0 then parse_opts rest (S k) zi' else (e, zi'))
                = - EINVAL).
  { intros [e zi'] [E|E]; simpl in E; subst e.
    - simpl. apply IH.
    - right. reflexivity. }
  apply H. destruct (Nat.eqb k 0);
    [apply parse_first_codes | apply parse_opt_codes].
Qed.

(** The constructor reports two error values and they differ in sign: the
    positive [ENOMEM] exactly when the handle cannot be allocated, and
    [-EINVAL] for every spec that [parse_spec] rejects.  Either way the
    spec carried the [zunkdb:] prefix. *)
Theorem ctor_error_codes :
  forall (malloc_ok mode_rw : bool) (spec : string) (e : Z),
    zdb_chunkdb_ctor malloc_ok mode_rw spec = CtorErr e ->
    prefix "zunkdb:" (cstr spec) = true /\
    ((malloc_ok = false /\ e = ENOMEM) \/
     (malloc_ok = true /\ e = - EINVAL)).
Proof.
  intros malloc_ok mode_rw spec e H. unfold zdb_chunkdb_ctor in H.
  destruct (prefix "zunkdb:" (cstr spec)); cbn [negb] in H; [|discriminate].
  split; [reflexivity|].
  destruct malloc_ok; cbn [negb] in H.
  2:{ left. split; [reflexivity|]. now inversion H. }
  right. split; [reflexivity|].
  match type of H with
  | (let (_, _) := parse_spec ?s ?z in _) = _ =>
      assert (Hc : fst (parse_spec s z) = 0 \/ fst (parse_spec s z) = - EINVAL);
      [|destruct (parse_spec s z) as [e' zi']]
  end.
  { unfold parse_spec.
    match goal with |- context [strsep_all ?a ?b] =>
      destruct (strsep_all a b) as [|o os] end; [now right|].
    apply parse_opts_codes. }
  simpl in Hc. destruct Hc as [Hc|Hc]; subst e'.
  - simpl in H. discriminate.
  - simpl in H. now inversion H.
Qed.

(** *** Framing of the input *)

Lemma no_crlf_tail (c : ascii) (s : string) :
  no_crlf (String c s) = true -> no_crlf s = true.
Proof.
  destruct s as [|d r]; [reflexivity|].
  change (no_crlf (String c (String d r)))
    with (negb (Ascii.eqb c CR && Ascii.eqb d LF) && no_crlf (String d r))%bool.
  intro H. apply andb_true_iff in H. tauto.
Qed.

Lemma split_lines_plain (s : string) :
  forall cur, no_crlf s = true ->
    split_lines cur s = ([], String.append cur s).
Proof.
  induction s as [|c r IH]; intros cur H.
  - simpl. now rewrite append_empty.
  - destruct r as [|d r'].
    + reflexivity.
    + change (no_crlf (String c (String d r')))
        with (negb (Ascii.eqb c CR && Ascii.eqb d LF)
              && no_crlf (String d r'))%bool in H.
      apply andb_true_iff in H. destruct H as [Hp Hr].
      apply negb_true_iff in Hp.
      change (split_lines cur (String c (String d r')))
        with (if (Ascii.eqb c CR && Ascii.eqb d LF)%bool
              then let (ls, rest) := split_lines EmptyString r' in
                   (cur :: ls, rest)
              else split_lines (String.append cur (String c EmptyString))
                     (String d r')).
      rewrite Hp. rewrite (IH _ Hr). now rewrite append_assoc.
Qed.

Lemma split_lines_frame (a : string) :
  forall cur s, no_crlf a = true ->
    split_lines cur (String.append (line a) s)
    = (let (ls, rest) := split_lines EmptyString s in
       (String.append cur a :: ls, rest)).
Proof.
  unfold line. induction a as [|c r IH]; intros cur s H.
  - simpl. rewrite append_empty. reflexivity.
  - assert (Hr : no_crlf r = true) by exact (no_crlf_tail c r H).
    assert (Hp : forall d t, String.append (String.append r CRLF) s
                             = String d t ->
                 (Ascii.eqb c CR && Ascii.eqb d LF)%bool = false).
    { destruct r as [|d0 r0]; simpl; intros d t E.
      - inversion E; subst. destruct (Ascii.eqb c CR); reflexivity.
      - inversion E; subst.
        change (no_crlf (String c (String d r0)))
          with (negb (Ascii.eqb c CR && Ascii.eqb d LF)
                && no_crlf (String d r0))%bool in H.
        apply andb_true_iff in H. destruct H as [H _].
        now apply negb_true_iff in H. }
    specialize (IH (String.append cur (String c EmptyString)) s Hr).
    change (String.append (String.append (String c r) CRLF) s)
      with (String c (String.append (String.append r CRLF) s)).
    destruct (String.append (String.append r CRLF) s) as [|d t] eqn:E.
    { destruct r; discriminate. }
    change (split_lines cur (String c (String d t)))
      with (if (Ascii.eqb c CR && Ascii.eqb d LF)%bool
            then let (ls, rest) := split_lines EmptyString t in
                 (cur :: ls, rest)
            else split_lines (String.append cur (String c EmptyString))
                   (String d t)).
    rewrite (Hp d t eq_refl). rewrite IH.
    rewrite append_assoc. reflexivity.
Qed.

Lemma split_lines_frames (ls : list string) (rest : string) :
  Forall (fun l => no_crlf l = true) ls -> no_crlf rest = true ->
  split_lines EmptyString (String.append (frames ls) rest) = (ls, rest).
Proof.
  induction ls as [|l r IH]; intros Hl Hr.
  - simpl. now rewrite split_lines_plain.
  - inversion Hl as [|? ? H1 H2]; subst.
    cbn [frames]. rewrite append_assoc.
    rewrite split_lines_frame by exact H1.
    rewrite (IH H2 Hr). reflexivity.
Qed.



(** *** A reply that completes a read *)

Lemma no_crlf_cons (c : ascii) (s : string) :
  Ascii.eqb c CR = false -> no_crlf s = true -> no_crlf (String c s) = true.
Proof.
  intros Hc Hs. destruct s as [|d r]; [reflexivity|].
  change (no_crlf (String c (String d r)))
    with (negb (Ascii.eqb c CR && Ascii.eqb d LF) && no_crlf (String d r))%bool.
  rewrite Hc, Hs. reflexivity.
Qed.

Lemma proc_msg_store_chunk (digest : list byte) (ok : bool) (now : timeval)
    (body : string) (n : node) (w : world) :
  chunk (rq w) = true ->
  proc_msg digest ok now (String.append "store_chunk " body) n w
  = (false, upd_rq (set_chunk false)
              (set_chunk_buf (base64_decode (cstr body) (chunk_buf w)) w)).
Proof.
  intro Hc. unfold proc_msg.
  assert (Hp : prefix STORE_CHUNK (String.append "store_chunk " body) = true)
    by exact (prefix_append STORE_CHUNK (String " " body)).
  rewrite Hp, Hc. reflexivity.
Qed.

Lemma proc_msg_request_done (digest : list byte) (ok : bool) (now : timeval)
    (n : node) (w : world) :
  has_char NUL (digest_string digest) = false ->
  proc_msg digest ok now
    (String.append "request_done " (digest_string digest)) n w
  = (true,
     cache_node now n
       (upd_rq (fun r =>
          set_addr_concurrency (u32 (addr_concurrency r - 1))
            (set_done (u32 (done r + 1)) r)) w)).
Proof.
  intro Hd. unfold proc_msg.
  assert (H1 : prefix STORE_CHUNK
                 (String.append "request_done " (digest_string digest))
               = false) by reflexivity.
  assert (H2 : prefix REQUEST_DONE
                 (String.append "request_done " (digest_string digest))
               = true)
    by exact (prefix_append REQUEST_DONE (String " " (digest_string digest))).
  assert (H3 : skip (REQUEST_DONE_LEN + 1)
                 (String.append "request_done " (digest_string digest))
               = digest_string digest) by reflexivity.
  rewrite H1, H2, H3, (cstr_id _ Hd), String.eqb_refl. reflexivity.
Qed.

(** One delivery that carries the body and the matching [request_done]
    completes a read on that node: the body (up to its first NUL) is
    decoded into the caller's buffer and the chunk pointer is cleared, one
    result is counted and one slot is given back, and the node leaves the
    request's list, its input buffer drained. *)
Theorem reply_completes_read :
  forall (digest : list byte) (ok : nat -> bool) (now : timeval)
         (body : string) (n : node) (w : world),
    chunk (rq w) = true -> input n = EmptyString ->
    detached (node_cache w) -> detached (dead_nodes w) ->
    no_crlf body = true ->
    no_crlf (digest_string digest) = true ->
    has_char NUL (digest_string digest) = false ->
    let w' :=
      readcb digest
        (frames [String.append "store_chunk " body;
                 String.append "request_done " (digest_string digest)])
        ok now n w in
    chunk (rq w') = false /\
    chunk_buf w' = base64_decode (cstr body) (chunk_buf w) /\
    done (rq w') = u32 (done (rq w) + 1) /\
    addr_concurrency (rq w') = u32 (addr_concurrency (rq w) - 1) /\
    lookup (node_id n) (node_list (rq w')) = None.
Proof.
  intros digest ok now body n w Hc Hin Hdc Hdd Hb Hds Hnul w'. subst w'.
  unfold readcb. rewrite Hin.
  change (String.append EmptyString ?s) with s.
  rewrite <- (append_empty (frames _)).
  rewrite split_lines_frames.
  2:{ constructor; [|constructor; [|constructor]].
      - cbn [String.append].
        repeat (apply no_crlf_cons; [reflexivity|]). exact Hb.
      - cbn [String.append].
        repeat (apply no_crlf_cons; [reflexivity|]). exact Hds. }
  2:{ reflexivity. }
  set (n' := set_input EmptyString n).
  cbn [readcb_lines].
  rewrite proc_msg_store_chunk by exact Hc.
  rewrite proc_msg_request_done by exact Hnul.
  unfold cache_node.
  match goal with
  | |- context [__cache_node now n' ?v] => set (w1 := v)
  end.
  pose proof (keeps_cache_node now n' w1) as (K1 & _ & _ & K4 & K5 & _).
  assert (Hdet : both_detached w1) by (split; [exact Hdc | exact Hdd]).
  destruct (calm_cache_node now n' w1 Hdet) as [(_ & Hac & _) _].
  rewrite K1, K4, K5, Hac.
  repeat split.
  exact (cache_node_unlinked now n' w1).
Qed.

(** *** The node cache over a whole request *)

Lemma linked_same (w w' : world) :
  node_list (rq w') = node_list (rq w) -> node_cache w' = node_cache w ->
  dead_nodes w' = dead_nodes w -> cache_count w' = cache_count w ->
  next_node w' = next_node w -> linked_ok w -> linked_ok w'.
Proof.
  intros H1 H2 H3 H4 H5. unfold linked_ok, cache_ok.
  rewrite H1, H2, H3, H4, H5. tauto.
Qed.

Lemma linked_shrink (w w' : world) :
  cache_ok w' ->
  (forall x, In x (ids (node_list (rq w'))) -> In x (ids (node_list (rq w)))) ->
  (forall x, In x (ids (node_cache w')) -> In x (ids (node_cache w))) ->
  next_node w' = next_node w -> linked_ok w -> linked_ok w'.
Proof.
  intros Hok Hl Hc Hn (_ & Hdis & Hlt). unfold linked_ok. rewrite Hn.
  split; [exact Hok|]. split.
  - intros x Hx Hx'. apply (Hdis x); auto.
  - intros x [Hx|Hx]; apply Hlt; auto.
Qed.

Lemma ids_unlink_incl (n : node) (l : list node) (x : nat) :
  In x (ids (unlink n l)) -> In x (ids l).
Proof. intro H. now apply unlink_ids in H. Qed.

Lemma linked_free_node (n : node) (w : world) :
  linked_ok w -> ~ In (node_id n) (ids (node_cache w)) ->
  linked_ok (free_node n w).
Proof.
  intros Hw Hn.
  destruct (free_node_cache n w) as (Hc & Hd & Hcnt & _).
  pose proof (unlink_absent n (node_cache w) Hn) as Hu.
  apply (linked_shrink w); [| | | |exact Hw].
  - destruct Hw as ((C1 & C2 & C3 & C4) & _).
    unfold cache_ok. rewrite Hc, Hd, Hcnt, Hu. repeat split; auto.
    intros d Hd'. apply unlink_In in Hd'. apply C4. tauto.
  - intros x. rewrite free_node_list. apply ids_unlink_incl.
  - intros x. rewrite Hc. apply ids_unlink_incl.
  - apply (handled_free_node n w).
Qed.

Lemma linked_scan_dead (now : timeval) (sa : sockaddr_in) (l : list node) :
  forall w,
    linked_ok w ->
    (forall d, In d l -> ~ In (node_id d) (ids (node_cache w))) ->
    linked_ok (snd (scan_dead now sa l w)).
Proof.
  induction l as [|d r IH]; intros w Hw Hl; simpl; [exact Hw|].
  destruct (timercmp_gt now (stamp d)).
  - apply IH.
    + apply linked_free_node; [exact Hw|]. apply Hl. now left.
    + intros d' Hd'. destruct (free_node_cache d w) as (Hc & _).
      rewrite Hc. intro Hx. apply ids_unlink_incl in Hx.
      revert Hx. apply Hl. now right.
  - destruct (node_is_addr d sa); [exact Hw|].
    apply IH; [exact Hw|]. intros d' Hd'. apply Hl. now right.
Qed.

Lemma linked_find_node (now : timeval) (sa : sockaddr_in) (w : world) :
  linked_ok w ->
  linked_ok (snd (find_node now sa w)) /\
  (forall n, fst (find_node now sa w) = Hit n ->
     ~ In (node_id n) (ids (node_cache (snd (find_node now sa w)))) /\
     (node_id n < next_node (snd (find_node now sa w)))%nat).
Proof.
  intro Hw. pose proof (find_node_ok now sa w (proj1 Hw)) as Hok.
  unfold find_node in *.
  destruct (scan_cache sa (node_cache w)) as [n|] eqn:E.
  - cbn [fst snd] in *. split.
    + apply (linked_shrink w); [exact Hok | | | reflexivity | exact Hw].
      * intro x. simpl. apply ids_unlink_incl.
      * intro x. simpl. apply ids_unlink_incl.
    + intros m Hm. inversion Hm; subst m. simpl. split.
      * intro Hx. apply unlink_ids in Hx. tauto.
      * apply scan_cache_In in E. destruct E as [Hin _].
        destruct Hw as (_ & _ & Hlt). apply Hlt. right.
        now apply in_map.
  - split.
    + pose proof (linked_scan_dead now sa (dead_nodes w) w Hw) as H.
      destruct Hw as ((_ & _ & _ & C4) & _).
      specialize (H C4).
      destruct (scan_dead now sa (dead_nodes w) w) as [[] w']; exact H.
    + intros m Hm.
      destruct (scan_dead now sa (dead_nodes w) w) as [[] w']; discriminate.
Qed.

Lemma linked_attach (n : node) (w : world) :
  linked_ok w -> ~ In (node_id n) (ids (node_cache w)) ->
  (node_id n < next_node w)%nat ->
  linked_ok (upd_rq (fun r => set_node_list (n :: node_list r) r) w).
Proof.
  intros (Hok & Hdis & Hlt) Hn Hb. unfold linked_ok. simpl.
  split; [exact Hok|]. split.
  - intros x [Hx|Hx]; [now subst x | now apply Hdis].
  - intros x [[Hx|Hx]|Hx]; [now subst x | apply Hlt; now left
                            | apply Hlt; now right].
Qed.

Lemma linked_update_node (n : node) (w : world) :
  linked_ok w -> linked_ok (update_node n w).
Proof.
  intros (Hok & Hdis & Hlt). unfold linked_ok. simpl. rewrite ids_store.
  auto.
Qed.

Lemma cache_node_ids (now : timeval) (n : node) (w : world) :
  (forall x, In x (ids (node_cache (__cache_node now n w))) ->
     x = node_id n \/ In x (ids (node_cache w))) /\
  (forall x, In x (ids (node_list (rq (__cache_node now n w)))) ->
     In x (ids (node_list (rq w)))).
Proof.
  unfold __cache_node. destruct (connect_pending n).
  - simpl. split; intros x Hx; apply ids_unlink_incl in Hx; auto.
  - match goal with |- context [if ?c then _ else _] => destruct c end.
    + change (rq (set_cache_count ?z ?v)) with (rq v).
      change (node_cache (set_cache_count ?z ?v)) with (node_cache v).
      rewrite free_node_list.
      match goal with |- context [free_node ?t ?v] =>
        destruct (free_node_cache t v) as (Hc & _); rewrite Hc end.
      split; intros x Hx; apply ids_unlink_incl in Hx; simpl in Hx.
      * destruct Hx as [Hx|Hx]; [now left|].
        apply ids_unlink_incl in Hx. now right.
      * now apply ids_unlink_incl in Hx.
    + simpl. split; intros x Hx.
      * destruct Hx as [Hx|Hx]; [now left|].
        apply ids_unlink_incl in Hx. now right.
      * now apply ids_unlink_incl in Hx.
Qed.

Lemma linked_release (now : timeval) (n : node) (w : world) :
  linked_ok w -> In (node_id n) (ids (node_list (rq w))) ->
  linked_ok (__cache_node now n w).
Proof.
  intros Hw Hin. destruct Hw as (Hok & Hdis & Hlt).
  assert (Hidle : idle n w = false) by (apply idle_false; now apply Hdis).
  destruct (release_ok now n w Hok Hidle) as [Hok' _].
  destruct (cache_node_ids now n w) as [Hc Hl].
  pose proof (handled_cache_node now n w) as (_ & _ & _ & Hn & _).
  pose proof (cache_node_unlinked now n w) as Hun.
  unfold cache_node in Hn. unfold linked_ok. rewrite Hn.
  split; [exact Hok'|]. split.
  - intros x Hx Hx'. destruct (Hc x Hx') as [E|Hx''].
    + subst x. apply in_map_iff in Hx. destruct Hx as (m & E & Hm).
      revert Hun. clear - E Hm.
      induction (node_list (rq (__cache_node now n w))) as [|a l IH];
        [contradiction|].
      simpl. destruct Hm as [Hm|Hm].
      * subst a. rewrite E, Nat.eqb_refl. discriminate.
      * destruct (Nat.eqb (node_id a) (node_id n)); [discriminate|auto].
    + apply (Hdis x); auto.
  - intros x [Hx|Hx].
    + apply Hlt. left. auto.
    + destruct (Hc x Hx) as [E|Hx'].
      * subst x. apply Hlt. now left.
      * apply Hlt. now right.
Qed.

Lemma linked_try_connect (res : connect_result) (now : timeval) (n : node)
    (w : world) :
  linked_ok w -> In (node_id n) (ids (node_list (rq w))) ->
  linked_ok (try_connect res now n w).
Proof.
  intros Hw Hin. destruct res; unfold try_connect, cache_node.
  - now apply linked_update_node.
  - now apply linked_update_node.
  - apply linked_release; [now apply linked_update_node|].
    simpl. rewrite ids_store. exact Hin.
Qed.

Lemma linked_send_request_to (p : string) (o : dispatch_outcome)
    (sa : sockaddr_in) (w : world) :
  linked_ok w -> linked_ok (snd (send_request_to p o sa w)).
Proof.
  intro Hw. unfold send_request_to.
  destruct (linked_find_node (d_now o) sa w Hw) as [Hw1 Hhit].
  destruct (find_node (d_now o) sa w) as [[n| |] w1]; cbn [fst snd] in *.
  - destruct (Hhit n eq_refl) as [Hn Hb].
    cbn [write_request]. cbv zeta. cbn [snd].
    apply linked_update_node. now apply linked_attach.
  - exact Hw1.
  - destruct (d_malloc o); cbn [negb snd]; [|exact Hw1].
    destruct (d_socket o) as [fd|]; [|exact Hw1].
    destruct (d_bev o); cbn [negb snd]; [|exact Hw1].
    cbn [write_request]. cbv zeta. cbn [snd].
    apply linked_try_connect; [|simpl; now left].
    apply linked_attach; simpl; [| |lia].
    + destruct Hw1 as (Hok & Hdis & Hlt). unfold linked_ok. simpl.
      split; [exact Hok|]. split; [exact Hdis|].
      intros x Hx. apply Hlt in Hx. lia.
    + intro Hx. destruct Hw1 as (_ & _ & Hlt).
      assert (next_node w1 < next_node w1)%nat by (apply Hlt; now right).
      lia.
Qed.

Lemma linked_dispatch (p : string) (db : zdb_info)
    (denv : nat -> dispatch_outcome) (todo : list sockaddr_in) :
  forall w, linked_ok w -> linked_ok (dispatch_loop p db denv todo w).
Proof.
  induction todo as [|a rest IH]; intros w Hw; simpl; [exact Hw|].
  destruct (max_concurrency db <=? addr_concurrency (rq w)); [exact Hw|].
  pose proof (linked_send_request_to p
                (denv (Z.to_nat (addr_index (rq w)))) a w Hw) as H.
  destruct (send_request_to p (denv (Z.to_nat (addr_index (rq w)))) a w)
    as [e w1].
  apply IH. exact H.
Qed.

Lemma store_node_list (ok : bool) (s : string) (r : request) :
  node_list (store_node ok s r) = node_list r.
Proof.
  unfold store_node. destruct (split_at ":"%char s) as [[h p]|]; [|reflexivity].
  destruct (inet_aton h); [|reflexivity].
  unfold __store_node. split_ifs; reflexivity.
Qed.

Lemma linked_proc_msg (digest : list byte) (ok : bool) (now : timeval)
    (buf : string) (n : node) (w : world) :
  linked_ok w -> In (node_id n) (ids (node_list (rq w))) ->
  linked_ok (snd (proc_msg digest ok now buf n w)) /\
  (fst (proc_msg digest ok now buf n w) = false ->
   node_list (rq (snd (proc_msg digest ok now buf n w))) = node_list (rq w)).
Proof.
  intros Hw Hin. unfold proc_msg.
  destruct (prefix STORE_CHUNK buf).
  { destruct (chunk (rq w)); simpl; split; auto. }
  destruct (prefix REQUEST_DONE buf).
  { match goal with |- context [if ?c then _ else _] => destruct c end;
      cbn [fst snd]; [|split; auto].
    split; [|discriminate]. unfold cache_node.
    apply linked_release; [exact Hw | exact Hin]. }
  destruct (prefix STORE_NODE buf); cbn [fst snd]; [|split; auto].
  split.
  - apply (linked_same w); try reflexivity; [|exact Hw].
    simpl. apply store_node_list.
  - intros _. simpl. apply store_node_list.
Qed.

Lemma linked_readcb_lines (digest : list byte) (ok : nat -> bool)
    (now : timeval) (n : node) (lines : list string) :
  forall k d w,
    linked_ok w ->
    (d = false -> In (node_id n) (ids (node_list (rq w)))) ->
    linked_ok (readcb_lines digest ok now lines k d n w).
Proof.
  induction lines as [|l rest IH]; intros k d w Hw Hin; simpl; [exact Hw|].
  destruct d.
  - apply IH; [exact Hw | discriminate].
  - destruct (linked_proc_msg digest (ok k) now l n w Hw (Hin eq_refl))
      as [H1 H2].
    destruct (proc_msg digest (ok k) now l n w) as [d' w']; simpl in *.
    apply IH; [exact H1|]. intro E. rewrite (H2 E). now apply Hin.
Qed.

Lemma linked_run_event (digest : list byte) (e : event) (w : world) :
  linked_ok w -> linked_ok (run_event digest e w).
Proof.
  intro Hw. destruct e as [id data ok now | id | id res now]; simpl.
  - destruct (lookup id (node_list (rq w))) as [n|] eqn:E; [|exact Hw].
    destruct (bev_enabled n); [|exact Hw].
    apply lookup_In in E. destruct E as [E _]. unfold readcb.
    destruct (split_lines EmptyString (String.append (input n) data))
      as [ls r].
    apply linked_readcb_lines; [now apply linked_update_node|].
    intros _. simpl. rewrite ids_store.
    apply (in_map node_id) in E. exact E.
  - destruct (lookup id (node_list (rq w))) as [n|] eqn:E; [|exact Hw].
    destruct (bev_enabled n); [|exact Hw].
    apply lookup_In in E. destruct E as [E _]. unfold errorcb.
    apply linked_free_node; [exact Hw|].
    destruct Hw as (_ & Hdis & _). apply Hdis. now apply in_map.
  - destruct (lookup id (node_list (rq w))) as [n|] eqn:E; [|exact Hw].
    destruct (connect_pending n); [|exact Hw].
    apply lookup_In in E. destruct E as [E _].
    apply linked_try_connect; [now apply linked_update_node|].
    simpl. rewrite ids_store. apply (in_map node_id) in E. exact E.
Qed.

Lemma linked_turn (digest : list byte) (s : step) (w : world) :
  linked_ok w -> linked_ok (event_base_loop digest s w).
Proof.
  intro Hw. unfold event_base_loop.
  assert (H : linked_ok
                (fold_left (fun w e => run_event digest e w) (st_events s) w)).
  { revert w Hw. induction (st_events s) as [|e r IH]; intros w Hw; simpl;
      [exact Hw|]. apply IH. now apply linked_run_event. }
  destruct (st_timeout s); exact H.
Qed.

Lemma linked_release_all (clock : nat -> timeval) (fuel : nat) :
  forall k w, linked_ok w -> linked_ok (release_all fuel clock k w).
Proof.
  induction fuel as [|f IH]; intros k w Hw; simpl; [exact Hw|].
  destruct (node_list (rq w)) as [|n l] eqn:E; [exact Hw|].
  apply IH. apply linked_release; [exact Hw|]. rewrite E. now left.
Qed.

(** The node cache stays well-formed over a whole request: at every
    suspension point and at the return its counter equals the length of
    the idle list, the bound of 100 holds, no node is linked twice there
    or on both process-wide lists, and no node of the request is idle at
    the same time.  So every release the request makes is one the cache
    accepts. *)
Theorem request_keeps_cache :
  forall (payload : string) (db_info : zdb_info) (digest : list byte)
         (c : bool) (env : environment) (w : world)
         (tr : list world) (res : option (Z * world)),
    cache_ok w -> cache_fresh w ->
    send_request payload db_info digest c env w = (tr, res) ->
    Forall linked_ok tr /\
    (forall e w', res = Some (e, w') ->
       linked_ok w' /\ cache_ok w' /\ cache_fresh w').
Proof.
  intros payload db_info digest c env w tr res Hok Hfresh H.
  assert (Hfin : forall v, linked_ok v ->
                   linked_ok v /\ cache_ok v /\ cache_fresh v).
  { intros v Hv. split; [exact Hv|]. split; [apply Hv|].
    intros n Hn. destruct Hv as (_ & _ & Hlt). apply Hlt. right.
    now apply in_map. }
  assert (Hstart : forall r, node_list r = [] ->
                     linked_ok (set_rq r w)).
  { intros r Hr. unfold linked_ok. simpl. rewrite Hr.
    split; [exact Hok|]. split; [intros x []|].
    intros x [[]|Hx]. apply in_map_iff in Hx.
    destruct Hx as (m & <- & Hm). now apply Hfresh. }
  unfold send_request in H.
  destruct (e_base_ok env); cbn [negb] in H.
  2:{ inversion H; subst. split; [constructor|].
      intros e w' E. inversion E; subst. apply Hfin. now apply Hstart. }
  match type of H with
  | context [request_loop ?p ?d ?g ?ch ?en ?s ?er ?v] =>
      destruct (request_loop p d g ch en s er v) as [tr' res'] eqn:E
  end.
  apply (loop_invariant payload db_info digest c (e_dispatch env) linked_ok)
    in E.
  - destruct E as [F R]. destruct res' as [[e' w3]|]; inversion H; subst.
    + split; [exact F|]. intros e w' Eq. inversion Eq; subst.
      apply Hfin. apply linked_release_all. now apply (R e w3).
    + split; [exact F | discriminate].
  - intros v Hv. unfold dispatch. now apply linked_dispatch.
  - intros s v Hv. now apply linked_turn.
  - intros v Hv. exact Hv.
  - unfold request_start.
    apply (linked_same (set_rq (init_request c) w)); try reflexivity.
    + simpl. unfold __store_node. split_ifs; reflexivity.
    + now apply Hstart.
Qed.

(** *** A referral *)

Lemma proc_msg_store_node (digest : list byte) (ok : bool) (now : timeval)
    (host port : string) (ip : Z) (n : node) (w : world) :
  has_char ":"%char host = false ->
  has_char NUL host = false -> has_char NUL port = false ->
  inet_aton host = Some ip ->
  proc_msg digest ok now
    (String.append "store_node " (String.append host (String ":" port))) n w
  = (false,
     upd_rq (__store_node ok (mk_addr ip (htons (atoi port)))) w).
Proof.
  intros Hc Hh Hp Hip. unfold proc_msg.
  set (buf := String.append "store_node "
                (String.append host (String ":" port))).
  assert (H1 : prefix STORE_CHUNK buf = false) by reflexivity.
  assert (H2 : prefix REQUEST_DONE buf = false) by reflexivity.
  assert (H3 : prefix STORE_NODE buf = true)
    by exact (prefix_append STORE_NODE
                (String " " (String.append host (String ":" port)))).
  assert (H4 : skip (STORE_NODE_LEN + 1) buf
               = String.append host (String ":" port)) by reflexivity.
  rewrite H1, H2, H3, H4. unfold store_node.
  rewrite cstr_id.
  2:{ rewrite has_char_app, Hh. simpl. exact Hp. }
  rewrite (split_at_app ":"%char host port Hc), Hip. reflexivity.
Qed.

(** A well-formed referral makes its address a candidate once: after the
    frame the address is on the candidate list, appended at the end if it
    was not there and with nothing changed if it was, so the same frame a
    second time changes nothing.  When the list cannot be grown the frame
    is dropped. *)
Theorem referral_adds_candidate_once :
  forall (digest : list byte) (now : timeval) (host port : string) (ip : Z)
         (n : node) (w : world),
    has_char ":"%char host = false ->
    has_char NUL host = false -> has_char NUL port = false ->
    inet_aton host = Some ip ->
    let buf := String.append "store_node "
                 (String.append host (String ":" port)) in
    let a := mk_addr ip (htons (atoi port)) in
    let r := proc_msg digest true now buf n w in
    fst r = false /\
    In a (addr_list (rq (snd r))) /\
    (In a (addr_list (rq w)) -> snd r = w) /\
    (~ In a (addr_list (rq w)) ->
     addr_list (rq (snd r)) = addr_list (rq w) ++ [a]) /\
    proc_msg digest true now buf n (snd r) = (false, snd r) /\
    proc_msg digest false now buf n w = (false, w).
Proof.
  intros digest now host port ip n w Hc Hh Hp Hip buf a r.
  subst r buf.
  rewrite !(proc_msg_store_node digest _ now host port ip n _ Hc Hh Hp Hip).
  fold a. cbn [fst snd].
  assert (Hsame : forall v, existsb (same_addr a) (addr_list (rq v)) = true ->
                    upd_rq (__store_node true a) v = v).
  { intros v Hv. unfold upd_rq, __store_node. rewrite Hv. apply world_eta. }
  assert (Hin : In a (addr_list (rq (upd_rq (__store_node true a) w)))).
  { unfold upd_rq, __store_node.
    destruct (existsb (same_addr a) (addr_list (rq w))) eqn:E; simpl.
    - apply existsb_exists in E. destruct E as (b & Hb & E).
      apply same_addr_eq in E. now subst b.
    - apply in_or_app. right. now left. }
  split; [reflexivity|]. split; [exact Hin|]. split; [|split; [|split]].
  - intro H. apply Hsame.
    destruct (existsb (same_addr a) (addr_list (rq w))) eqn:E; [reflexivity|].
    apply existsb_same_addr in E. contradiction.
  - intro H. apply existsb_same_addr in H.
    unfold upd_rq, __store_node. rewrite H. reflexivity.
  - f_equal. apply Hsame.
    destruct (existsb (same_addr a) _) eqn:E; [reflexivity|].
    apply existsb_same_addr in E. contradiction.
  - f_equal. unfold upd_rq, __store_node.
    destruct (existsb (same_addr a) (addr_list (rq w))); apply world_eta.
Qed.

(** *** Node states over a whole request *)

























(** *** What a chunk call returns *)

Lemma loop_codes (payload : string) (db_info : zdb_info) (digest : list byte)
    (chunk_arg : bool) (denv : nat -> dispatch_outcome) (steps : list step) :
  forall err w tr e w',
    request_loop payload db_info digest chunk_arg denv steps err w
      = (tr, Some (e, w')) ->
    e = err \/ e = CHUNK_SIZE \/ e = - ETIMEDOUT.
Proof.
  induction steps as [|s rest IH]; intros err w tr e w' H.
  - rewrite request_loop_nil in H.
    destruct (negb (timeout_pending _)); [inversion H; auto|].
    destruct (node_list _); inversion H; auto.
  - rewrite request_loop_cons in H.
    destruct (negb (timeout_pending _)); [inversion H; auto|].
    destruct (node_list _); [inversion H; auto|].
    destruct (st_loop_err s); [inversion H; auto|].
    destruct (done _ =? 0).
    { destruct (request_loop _ _ _ _ _ rest err _) as [tr' res'] eqn:E.
      inversion H; subst. exact (IH _ _ _ _ _ E). }
    destruct (negb chunk_arg).
    { destruct (request_loop _ _ _ _ _ rest CHUNK_SIZE _) as [tr' res'] eqn:E.
      inversion H; subst. destruct (IH _ _ _ _ _ E) as [?|[?|?]]; auto. }
    destruct (negb _ && _)%bool; [inversion H; auto|].
    destruct (request_loop _ _ _ _ _ rest err _) as [tr' res'] eqn:E.
    inversion H; subst. exact (IH _ _ _ _ _ E).
Qed.

Lemma send_request_codes (payload : string) (db_info : zdb_info)
    (digest : list byte) (c : bool) (env : environment) (w : world)
    (tr : list world) (e : Z) (w' : world) :
  send_request payload db_info digest c env w = (tr, Some (e, w')) ->
  e = - EIO \/ e = CHUNK_SIZE \/ e = - ETIMEDOUT.
Proof.
  intro H. unfold send_request in H.
  destruct (e_base_ok env); cbn [negb] in H; [|inversion H; auto].
  match type of H with
  | context [request_loop ?p ?d ?g ?ch ?en ?s ?er ?v] =>
      destruct (request_loop p d g ch en s er v) as [tr' [[e' w3]|]] eqn:E
  end; inversion H; subst.
  exact (loop_codes _ _ _ _ _ _ _ _ _ _ _ E).
Qed.

(** A chunk call returns the chunk size or one of three errors, never a
    partial count and never zero: [-ENOMEM] only when the request buffer
    cannot be allocated, and then before anything else has happened;
    otherwise [-EIO], [-ETIMEDOUT] or [CHUNK_SIZE].  [body] is the chunk to
    write, or [None] for a read. *)
Theorem chunk_call_results :
  forall (body : option (list byte)) (digest : list byte)
         (db_info : zdb_info) (env : environment) (w : world)
         (tr : list world) (e : Z) (w' : world),
    0 < CHUNK_SIZE ->
    match body with
    | None => zdb_read_chunk digest db_info env w
    | Some b => zdb_write_chunk b digest db_info env w
    end = (tr, Some (e, w')) ->
    (e = CHUNK_SIZE \/ e = - EIO \/ e = - ETIMEDOUT \/ e = - ENOMEM) /\
    (e = - ENOMEM <-> e_evbuf_ok env = false) /\
    (e_evbuf_ok env = false -> tr = [] /\ w' = w).
Proof.
  intros body digest db_info env w tr e w' Hpos H.
  assert (Hcall :
    (if negb (e_evbuf_ok env) then ([], Some (- ENOMEM, w))
     else if negb (e_printf_ok env) then ([], Some (- EIO, w))
     else send_request
            (match body with
             | None => String.append FIND_CHUNK
                         (String " " (String.append (digest_string digest) CRLF))
             | Some b => String.append STORE_CHUNK
                           (String " " (String.append (base64_encode b) CRLF))
             end) db_info digest
            (match body with None => true | Some _ => false end) env w)
    = (tr, Some (e, w'))).
  { destruct body; exact H. }
  clear H. destruct (e_evbuf_ok env); cbn [negb] in Hcall.
  - assert (Hc : e = - EIO \/ e = CHUNK_SIZE \/ e = - ETIMEDOUT).
    { destruct (e_printf_ok env); cbn [negb] in Hcall;
        [|inversion Hcall; auto].
      exact (send_request_codes _ _ _ _ _ _ _ _ _ Hcall). }
    split; [tauto|]. split; [|discriminate].
    split; [|discriminate].
    unfold EIO, ETIMEDOUT, ENOMEM in *. lia.
  - inversion Hcall; subst. split; [tauto|]. split; [tauto|]. auto.
Qed.

(** *** The verdicts of [find_node] *)

Lemma scan_dead_found (now : timeval) (sa : sockaddr_in) (l : list node) :
  forall w,
    fst (scan_dead now sa l w) = true ->
    exists d, In d l /\ node_is_addr d sa = true /\
              timercmp_gt now (stamp d) = false.
Proof.
  induction l as [|d r IH]; intros w H; simpl in H; [discriminate|].
  destruct (timercmp_gt now (stamp d)) eqn:Et.
  - destruct (IH _ H) as (x & Hx & Hr). exists x. split; [now right|exact Hr].
  - destruct (node_is_addr d sa) eqn:Ea.
    + exists d. repeat split; auto. now left.
    + destruct (IH _ H) as (x & Hx & Hr). exists x.
      split; [now right|exact Hr].
Qed.

(** The two positive verdicts of [find_node] are sound.  A node it hands
    out was on the idle list with the wanted address and is no longer
    there.  It answers "dead" only when no idle node has the address and
    the dead list holds an entry with the address whose stamp has not
    passed. *)
Theorem find_node_verdicts :
  forall (now : timeval) (sa : sockaddr_in) (w : world),
    let r := find_node now sa w in
    (forall n, fst r = Hit n ->
       In n (node_cache w) /\ node_is_addr n sa = true /\
       ~ In (node_id n) (ids (node_cache (snd r)))) /\
    (fst r = Dead ->
       scan_cache sa (node_cache w) = None /\
       exists d, In d (dead_nodes w) /\ node_is_addr d sa = true /\
                 timercmp_gt now (stamp d) = false).
Proof.
  intros now sa w r. subst r. unfold find_node.
  destruct (scan_cache sa (node_cache w)) as [n|] eqn:E; cbn [fst snd].
  - split; [|discriminate]. intros m Hm. inversion Hm; subst m.
    apply scan_cache_In in E. destruct E as [Hin Ha].
    split; [exact Hin|]. split; [exact Ha|].
    simpl. intro Hx. apply unlink_ids in Hx. tauto.
  - pose proof (scan_dead_found now sa (dead_nodes w) w) as H.
    destruct (scan_dead now sa (dead_nodes w) w) as [[] w']; cbn [fst snd] in *.
    + split; [discriminate|]. intros _. split; [reflexivity|]. now apply H.
    + split; discriminate.
Qed.

End Properties.

(** ** Scenarios *)

Lemma empty_cache_ok : cache_ok empty_world.
Proof.
  unfold cache_ok, CACHE_MAX. simpl.
  repeat split; [lia | constructor | intros d []].
Qed.

Lemma read_chunk_verified_witness :
  0 < @CHUNK_SIZE sample /\
  @zdb_read_chunk sample digestD (conf 4) read_script empty_world
  = (suspensions read_run, Some (@CHUNK_SIZE sample, final_world read_run)) /\
  chunk (rq (final_world read_run)) = false /\
  @verify_chunk sample (chunk_buf (final_world read_run)) digestD = true.
Proof.
  assert (H0 : 0 < @CHUNK_SIZE sample) by reflexivity.
  assert (Hr : @zdb_read_chunk sample digestD (conf 4) read_script empty_world
               = (suspensions read_run,
                  Some (@CHUNK_SIZE sample, final_world read_run)))
    by (vm_compute; reflexivity).
  split; [exact H0|]. split; [exact Hr|].
  exact (@read_chunk_verified sample digestD (conf 4) read_script empty_world
           (suspensions read_run) (final_world read_run) H0 Hr).
Defined.



(** A read with fan-out 1 whose second candidate is on the dead list: the
    slot it took is never given back, and the call returns [-EIO] with the
    cursor at 2 of 3 candidates; the third address was never tried. *)
Lemma io_error_with_untried_candidate :
  returned stranded_run = Some (- EIO) /\
  addr_index (rq (final_world stranded_run)) = 2 /\
  addr_count (rq (final_world stranded_run)) = 3.
Proof. vm_compute. repeat split. Qed.

Lemma io_error_exits_witness :
  0 < @CHUNK_SIZE sample /\
  @send_request sample payload0 (conf 1) digestD true refused_script
    empty_world
  = (suspensions refused_run, Some (- EIO, final_world refused_run)) /\
  (e_base_ok refused_script = false \/
   (exists s, In s (e_steps refused_script) /\ st_loop_err s = true) \/
   (exists w',
      @request_loop sample payload0 (conf 1) digestD true
        (e_dispatch refused_script) (e_steps refused_script) (- EIO)
        (request_start (conf 1) true (e_realloc_ok refused_script) empty_world)
      = (suspensions refused_run, Some (- EIO, w')) /\
      timeout_pending w' = true /\ node_list (rq w') = [] /\
      (addr_index (rq w') = addr_count (rq w') \/
       max_concurrency (conf 1) <= addr_concurrency (rq w')))).
Proof.
  assert (H0 : 0 < @CHUNK_SIZE sample) by reflexivity.
  assert (Hr : @send_request sample payload0 (conf 1) digestD true
                 refused_script empty_world
               = (suspensions refused_run,
                  Some (- EIO, final_world refused_run)))
    by (vm_compute; reflexivity).
  split; [exact H0|]. split; [exact Hr|].
  exact (proj1 (@io_error_exits sample payload0 (conf 1) digestD true
                  refused_script empty_world (suspensions refused_run)
                  (- EIO) (final_world refused_run) H0 Hr) eq_refl).
Defined.

(** A read with fan-out 4 whose second suspension point has one node in
    flight and an in-flight counter of 2: the dispatch to a dead-listed
    peer kept its slot. *)
Lemma counter_exceeds_in_flight_set :
  map (fun v => (in_flight v, addr_concurrency (rq v)))
      (suspensions referral_run) = [(1, 1); (1, 2)].
Proof. vm_compute. reflexivity. Qed.

Lemma in_flight_bounded_witness :
  0 <= max_concurrency (conf 4) < 2 ^ 32 /\
  detached (node_cache dead_worldB) /\ detached (dead_nodes dead_worldB) /\
  @send_request sample payload0 (conf 4) digestD true referral_script
    dead_worldB
  = (suspensions referral_run, snd referral_run) /\
  Forall (fun v => in_flight v <= addr_concurrency (rq v)
                   /\ addr_concurrency (rq v) <= max_concurrency (conf 4))
         (suspensions referral_run).
Proof.
  assert (H0 : 0 <= max_concurrency (conf 4) < 2 ^ 32)
    by (split; [discriminate | reflexivity]).
  assert (H1 : detached (node_cache dead_worldB)) by constructor.
  assert (H2 : detached (dead_nodes dead_worldB))
    by (repeat constructor).
  assert (Hr : @send_request sample payload0 (conf 4) digestD true
                 referral_script dead_worldB
               = (suspensions referral_run, snd referral_run))
    by (vm_compute; reflexivity).
  repeat (split; [assumption|]).
  exact (@in_flight_bounded sample payload0 (conf 4) digestD true
           referral_script dead_worldB (suspensions referral_run)
           (snd referral_run) H0 H1 H2 Hr).
Defined.

Lemma cache_bounded_witness :
  cache_ok empty_world /\ ops_ok empty_world churn = true /\
  Forall (fun t => counted (snd t) /\ evicts_tail t)
         (run_ops empty_world churn).
Proof.
  assert (H1 : ops_ok empty_world churn = true) by (vm_compute; reflexivity).
  split; [exact empty_cache_ok|]. split; [exact H1|].
  exact (cache_bounded churn empty_world empty_cache_ok H1).
Defined.

Lemma release_dead_or_idle_witness :
  cache_ok (holding (pending_node 1)) /\
  idle (pending_node 1) (holding (pending_node 1)) = false /\
  lookup 1%nat
    (node_list (rq (__cache_node t0 (pending_node 1)
                      (holding (pending_node 1))))) = None /\
  (exists d,
     dead_nodes (__cache_node t0 (pending_node 1) (holding (pending_node 1)))
     = [d] /\
     sk_open d = false /\ stamp d = mk_tv 1060 0) /\
  cache_ok busy_world /\ idle (idle_node 0) busy_world = false /\
  lookup 0%nat (node_list (rq (__cache_node t0 (idle_node 0) busy_world)))
  = None /\
  exists i,
    node_cache (__cache_node t0 (idle_node 0) busy_world) = [i; parked_node] /\
    node_id i = 0%nat /\ attached i = false /\ bev_enabled i = false.
Proof.
  assert (H1 : cache_ok (holding (pending_node 1))) by exact empty_cache_ok.
  assert (H2 : idle (pending_node 1) (holding (pending_node 1)) = false)
    by reflexivity.
  assert (H3 : cache_ok busy_world).
  { unfold cache_ok, CACHE_MAX. simpl.
    repeat split; [lia | repeat constructor; intros [] | intros d []]. }
  assert (H4 : idle (idle_node 0) busy_world = false) by reflexivity.
  destruct (release_dead_or_idle t0 (pending_node 1)
              (holding (pending_node 1)) H1 H2) as (Hl & Hd & _).
  destruct (release_dead_or_idle t0 (idle_node 0) busy_world H3 H4)
    as (Hl' & _ & Hc).
  split; [exact H1|]. split; [exact H2|]. split; [exact Hl|].
  split.
  { destruct (Hd eq_refl) as (d & E & _ & _ & _ & Hs & Ht & _).
    exists d. split; [exact E|]. split; [exact Hs | exact Ht]. }
  split; [exact H3|]. split; [exact H4|]. split; [exact Hl'|].
  destruct (Hc eq_refl) as (i & E & Hi & _ & _ & Ha & Hb & _).
  exists i. split; [exact E|]. split; [exact Hi|]. split; [exact Ha | exact Hb].
Defined.

Lemma dead_start_node_rejected_witness :
  scan_cache (start_node (conf 4)) (node_cache dead_world) = None /\
  In dead_peerA (dead_nodes dead_world) /\
  node_is_addr dead_peerA (start_node (conf 4)) = true /\
  timercmp_gt (d_now (e_dispatch plain_script 0)) (stamp dead_peerA) = false /\
  exists w',
    @send_request sample payload0 (conf 4) digestD true plain_script dead_world
    = ([], Some (- EIO, w')) /\
    sock_calls w' = sock_calls dead_world /\
    next_node w' = next_node dead_world /\ node_list (rq w') = [].
Proof.
  assert (H1 : scan_cache (start_node (conf 4)) (node_cache dead_world) = None)
    by reflexivity.
  assert (H2 : In dead_peerA (dead_nodes dead_world)) by (left; reflexivity).
  assert (H3 : node_is_addr dead_peerA (start_node (conf 4)) = true)
    by reflexivity.
  assert (H4 : timercmp_gt (d_now (e_dispatch plain_script 0))
                 (stamp dead_peerA) = false) by reflexivity.
  split; [exact H1|]. split; [exact H2|]. split; [exact H3|].
  split; [exact H4|].
  exact (proj2 (@dead_start_node_rejected sample payload0 (conf 4) digestD true
                  plain_script dead_world dead_peerA H1 H2 H3 H4)).
Defined.

(** The start node has a live entry on the dead list and an idle
    connection as well: the idle list is scanned first, the dispatch
    succeeds without a socket call, the node is attached, and the read
    returns the chunk. *)
Lemma dead_start_node_shadowed :
  In dead_peerA (dead_nodes shadowed_world) /\
  node_is_addr dead_peerA (start_node (conf 4)) = true /\
  timercmp_gt (d_now (e_dispatch shadowed_script 0)) (stamp dead_peerA)
  = false /\
  fst (send_request_to payload0 (e_dispatch shadowed_script 0)
         (start_node (conf 4)) (request_start (conf 4) true true shadowed_world))
  = 0 /\
  map in_flight (suspensions shadowed_run) = [1] /\
  returned shadowed_run = Some (@CHUNK_SIZE sample) /\
  @CHUNK_SIZE sample <> - EIO /\
  sock_calls (final_world shadowed_run) = sock_calls shadowed_world.
Proof.
  vm_compute. repeat split; try discriminate. left. reflexivity.
Qed.

Lemma candidates_distinct_witness :
  @send_request sample payload0 (conf 4) digestD true repeating_script
    empty_world
  = (suspensions repeating_run, snd repeating_run) /\
  map (fun v => List.length (addr_list (rq v))) (suspensions repeating_run)
  = [1%nat; 2%nat] /\
  Forall (fun v => NoDup (addr_list (rq v))) (suspensions repeating_run).
Proof.
  assert (Hr : @send_request sample payload0 (conf 4) digestD true
                 repeating_script empty_world
               = (suspensions repeating_run, snd repeating_run))
    by (vm_compute; reflexivity).
  split; [exact Hr|]. split; [vm_compute; reflexivity|].
  exact (proj1 (@candidates_distinct sample payload0 (conf 4) digestD true
                  repeating_script empty_world (suspensions repeating_run)
                  (snd repeating_run) Hr)).
Defined.


Lemma store_node_malformed_ignored_witness :
  prefix STORE_NODE malformed_frame = true /\
  (STORE_NODE_LEN < String.length malformed_frame)%nat /\
  split_at ":"%char (cstr (skip (STORE_NODE_LEN + 1) malformed_frame)) = None /\
  @proc_msg sample digestD true t0 malformed_frame (idle_node 0)
    (holding (idle_node 0))
  = (false, holding (idle_node 0)) /\
  prefix STORE_NODE unknown_host_frame = true /\
  (STORE_NODE_LEN < String.length unknown_host_frame)%nat /\
  split_at ":"%char (cstr (skip (STORE_NODE_LEN + 1) unknown_host_frame))
  = Some ("nowhere", "7000")%string /\
  @inet_aton sample "nowhere" = None /\
  @proc_msg sample digestD true t0 unknown_host_frame (idle_node 0)
    (holding (idle_node 0))
  = (false, holding (idle_node 0)).
Proof.
  assert (H1 : prefix STORE_NODE malformed_frame = true) by reflexivity.
  assert (L1 : (STORE_NODE_LEN < String.length malformed_frame)%nat)
    by (vm_compute; lia).
  assert (H2 : split_at ":"%char
                 (cstr (skip (STORE_NODE_LEN + 1) malformed_frame)) = None)
    by reflexivity.
  assert (H3 : prefix STORE_NODE unknown_host_frame = true) by reflexivity.
  assert (L3 : (STORE_NODE_LEN < String.length unknown_host_frame)%nat)
    by (vm_compute; lia).
  assert (H4 : split_at ":"%char
                 (cstr (skip (STORE_NODE_LEN + 1) unknown_host_frame))
               = Some ("nowhere", "7000")%string) by reflexivity.
  assert (H5 : @inet_aton sample "nowhere" = None) by reflexivity.
  split; [exact H1|]. split; [exact L1|]. split; [exact H2|].
  split.
  { exact (@store_node_malformed_ignored sample digestD true t0
             malformed_frame (idle_node 0) (holding (idle_node 0)) H1 L1
             (or_introl H2)). }
  split; [exact H3|]. split; [exact L3|]. split; [exact H4|].
  split; [exact H5|].
  exact (@store_node_malformed_ignored sample digestD true t0
           unknown_host_frame (idle_node 0) (holding (idle_node 0)) H3 L3
           (or_intror (ex_intro _ "nowhere"%string
                         (ex_intro _ "7000"%string (conj H4 H5))))).
Defined.

(** A host in the two-part form is no dotted quad, yet [inet_aton] takes
    it: the frame is not dropped, and 127.0.0.1:7000 becomes a candidate. *)
Lemma store_node_short_host_stored :
  dotted_quad "127.1" = None /\
  prefix STORE_NODE short_host_frame = true /\
  addr_list (rq (holding (idle_node 0))) = [] /\
  addr_list
    (rq (snd (@proc_msg lenient digestD true t0 short_host_frame
                (idle_node 0) (holding (idle_node 0)))))
  = [peerA].
Proof. vm_compute. repeat split. Qed.

Lemma ctor_handle_well_formed_witness :
  @zdb_chunkdb_ctor sample true true ctor_spec = CtorOk ctor_info true /\
  config_ok ctor_info.
Proof.
  assert (H : @zdb_chunkdb_ctor sample true true ctor_spec
              = CtorOk ctor_info true) by (vm_compute; reflexivity).
  split; [exact H|].
  exact (proj1 (proj2 (proj2 (proj2
           (@ctor_handle_well_formed sample true true ctor_spec ctor_info true
              H))))).
Defined.

Lemma ctor_option_values_witness :
  has_char NUL "127.0.0.1" = false /\ has_char ","%char "127.0.0.1" = false /\
  has_char ":"%char "127.0.0.1" = false /\
  has_char NUL "7000" = false /\ has_char ","%char "7000" = false /\
  has_char NUL "-5" = false /\ has_char ","%char "-5" = false /\
  @inet_aton sample "127.0.0.1" = Some 16777343 /\
  @zdb_chunkdb_ctor sample true true "zunkdb:127.0.0.1:7000,timeout=-5"
  = CtorOk (mk_info (mk_addr 16777343 (htons 7000)) (mk_tv (-5) 0) (u32 (-1)))
      true.
Proof.
  repeat (split; [reflexivity|]).
  exact (proj1 (@ctor_option_values sample true "127.0.0.1" "7000" "-5"
                  16777343 eq_refl eq_refl eq_refl eq_refl eq_refl eq_refl
                  eq_refl eq_refl)).
Defined.

Lemma ctor_error_codes_witness :
  @zdb_chunkdb_ctor sample true true "zunkdb:127.0.0.1" = CtorErr (- EINVAL) /\
  prefix "zunkdb:" (cstr "zunkdb:127.0.0.1") = true.
Proof.
  assert (H : @zdb_chunkdb_ctor sample true true "zunkdb:127.0.0.1"
              = CtorErr (- EINVAL)) by (vm_compute; reflexivity).
  split; [exact H|].
  exact (proj1 (@ctor_error_codes sample true true "zunkdb:127.0.0.1"
                  (- EINVAL) H)).
Defined.

Lemma write_leaves_buffer_witness :
  @zdb_write_chunk sample digestD digestD (conf 4) write_script empty_world
  = (suspensions write_chunk_run, snd write_chunk_run) /\
  List.length (suspensions write_chunk_run) = 2%nat /\
  Forall (fun v => chunk_buf v = chunk_buf empty_world)
         (suspensions write_chunk_run).
Proof.
  assert (Hr : @zdb_write_chunk sample digestD digestD (conf 4) write_script
                 empty_world
               = (suspensions write_chunk_run, snd write_chunk_run))
    by (vm_compute; reflexivity).
  split; [exact Hr|]. split; [vm_compute; reflexivity|].
  exact (proj1 (@write_leaves_buffer sample digestD digestD (conf 4)
                  write_script empty_world (suspensions write_chunk_run)
                  (snd write_chunk_run) Hr)).
Defined.

Lemma send_request_returns_witness :
  (exists s, In s (e_steps write_script) /\ st_timeout s = true) /\
  exists e w',
    snd (@send_request sample payload0 (conf 4) digestD false write_script
           empty_world) = Some (e, w').
Proof.
  assert (H : exists s, In s (e_steps write_script) /\ st_timeout s = true).
  { exists deadline. split; [right; left; reflexivity | reflexivity]. }
  split; [exact H|].
  exact (@send_request_returns sample payload0 (conf 4) digestD false
           write_script empty_world H).
Defined.

Lemma timeout_only_after_deadline_witness :
  0 < @CHUNK_SIZE sample /\
  @send_request sample payload0 (conf 4) digestD false write_script
    empty_world
  = (suspensions write_run, Some (- ETIMEDOUT, final_world write_run)) /\
  exists s, In s (e_steps write_script) /\ st_timeout s = true.
Proof.
  assert (H0 : 0 < @CHUNK_SIZE sample) by reflexivity.
  assert (Hr : @send_request sample payload0 (conf 4) digestD false
                 write_script empty_world
               = (suspensions write_run,
                  Some (- ETIMEDOUT, final_world write_run)))
    by (vm_compute; reflexivity).
  split; [exact H0|]. split; [exact Hr|].
  exact (@timeout_only_after_deadline sample payload0 (conf 4) digestD false
           write_script empty_world (suspensions write_run)
           (final_world write_run) H0 Hr).
Defined.

Lemma cursor_within_candidates_witness :
  @send_request sample payload0 (conf 4) digestD true repeating_script
    empty_world
  = (suspensions repeating_run, snd repeating_run) /\
  map (fun v => addr_index (rq v)) (suspensions repeating_run) = [1; 2] /\
  Forall cursor_ok (suspensions repeating_run).
Proof.
  assert (Hr : @send_request sample payload0 (conf 4) digestD true
                 repeating_script empty_world
               = (suspensions repeating_run, snd repeating_run))
    by (vm_compute; reflexivity).
  split; [exact Hr|]. split; [vm_compute; reflexivity|].
  exact (proj1 (@cursor_within_candidates sample payload0 (conf 4) digestD
                  true repeating_script empty_world
                  (suspensions repeating_run) (snd repeating_run) Hr)).
Defined.

Lemma request_releases_nodes_witness :
  0 <= max_concurrency (conf 4) < 2 ^ 32 /\
  detached (node_cache empty_world) /\ detached (dead_nodes empty_world) /\
  @send_request sample payload0 (conf 4) digestD false write_script
    empty_world
  = (suspensions write_run, Some (- ETIMEDOUT, final_world write_run)) /\
  node_list (rq (final_world write_run)) = [] /\
  List.length (node_cache (final_world write_run)) = 2%nat.
Proof.
  assert (H0 : 0 <= max_concurrency (conf 4) < 2 ^ 32)
    by (split; [discriminate | reflexivity]).
  assert (H1 : detached (node_cache empty_world)) by constructor.
  assert (H2 : detached (dead_nodes empty_world)) by constructor.
  assert (Hr : @send_request sample payload0 (conf 4) digestD false
                 write_script empty_world
               = (suspensions write_run,
                  Some (- ETIMEDOUT, final_world write_run)))
    by (vm_compute; reflexivity).
  repeat (split; [assumption|]).
  split; [|vm_compute; reflexivity].
  exact (proj1 (@request_releases_nodes sample payload0 (conf 4) digestD false
                  write_script empty_world (suspensions write_run)
                  (- ETIMEDOUT) (final_world write_run) H0 H1 H2 Hr)).
Defined.

Lemma release_then_acquire_witness :
  cache_ok (holding (idle_node 1)) /\
  idle (idle_node 1) (holding (idle_node 1)) = false /\
  connect_pending (idle_node 1) = false /\
  fst (find_node t0 (addr (idle_node 1))
         (__cache_node t0 (idle_node 1) (holding (idle_node 1))))
  = Hit (idle_form (idle_node 1)).
Proof.
  assert (H1 : cache_ok (holding (idle_node 1))) by exact empty_cache_ok.
  assert (H2 : idle (idle_node 1) (holding (idle_node 1)) = false)
    by reflexivity.
  assert (H3 : connect_pending (idle_node 1) = false) by reflexivity.
  split; [exact H1|]. split; [exact H2|]. split; [exact H3|].
  exact (proj1 (release_then_acquire t0 t0 (idle_node 1)
                  (holding (idle_node 1)) H1 H2 H3)).
Defined.

Lemma unconnected_node_refused_witness :
  connect_pending (pending_node 1) = true /\
  scan_cache (addr (pending_node 1))
    (node_cache (holding (pending_node 1))) = None /\
  timercmp_gt (d_now (connects Connected))
    (mk_tv (tv_sec t0 + 60) (tv_usec t0)) = false /\
  dead_nodes (__cache_node t0 (pending_node 1) (holding (pending_node 1)))
  = [dead_form t0 (pending_node 1)] /\
  send_request_to payload0 (connects Connected) (addr (pending_node 1))
    (__cache_node t0 (pending_node 1) (holding (pending_node 1)))
  = (- EINVAL, __cache_node t0 (pending_node 1) (holding (pending_node 1))).
Proof.
  assert (H1 : connect_pending (pending_node 1) = true) by reflexivity.
  assert (H2 : scan_cache (addr (pending_node 1))
                 (node_cache (holding (pending_node 1))) = None)
    by reflexivity.
  assert (H3 : timercmp_gt (d_now (connects Connected))
                 (mk_tv (tv_sec t0 + 60) (tv_usec t0)) = false)
    by reflexivity.
  pose proof (unconnected_node_refused payload0 (connects Connected) t0
                (pending_node 1) (holding (pending_node 1)) H1 H2 H3) as R.
  cbv zeta in R. destruct R as (R1 & _ & _ & _ & _ & R6).
  split; [exact H1|]. split; [exact H2|]. split; [exact H3|].
  split; [exact R1 | exact R6].
Defined.


Lemma dispatch_reuses_idle_node_witness :
  scan_cache (peer 1 7000) (node_cache parked_world) = Some parked_node /\
  fst (send_request_to payload0 (connects Connected) (peer 1 7000)
         parked_world) = 0 /\
  sock_calls (snd (send_request_to payload0 (connects Connected)
                     (peer 1 7000) parked_world))
  = sock_calls parked_world.
Proof.
  assert (H : scan_cache (peer 1 7000) (node_cache parked_world)
              = Some parked_node) by reflexivity.
  pose proof (dispatch_reuses_idle_node payload0 (connects Connected)
                (peer 1 7000) parked_node parked_world H) as R.
  cbv zeta in R. destruct R as (R1 & _ & _ & _ & R5 & _).
  split; [exact H|]. split; [exact R1 | exact R5].
Defined.

Lemma dispatch_failure_attaches_nothing_witness :
  fst (send_request_to payload0 (connects Connected) peerA dead_world) <> 0 /\
  fst (send_request_to payload0 (connects Connected) peerA dead_world)
  = - EINVAL /\
  next_node (snd (send_request_to payload0 (connects Connected) peerA
                    dead_world))
  = next_node dead_world.
Proof.
  assert (H : fst (send_request_to payload0 (connects Connected) peerA
                     dead_world) <> 0) by (vm_compute; discriminate).
  pose proof (dispatch_failure_attaches_nothing payload0 (connects Connected)
                peerA dead_world) as R.
  cbv zeta in R. destruct (R H) as (_ & _ & R3 & _).
  split; [exact H|]. split; [vm_compute; reflexivity | exact R3].
Defined.


Lemma reply_completes_read_witness :
  chunk (rq reading) = true /\ input (idle_node 0) = EmptyString /\
  detached (node_cache reading) /\ detached (dead_nodes reading) /\
  no_crlf "D" = true /\
  no_crlf (@digest_string sample digestD) = true /\
  has_char NUL (@digest_string sample digestD) = false /\
  chunk_buf (@readcb sample digestD reply_frames always t0 (idle_node 0)
               reading)
  = list_byte_of_string "D" /\
  done (rq (@readcb sample digestD reply_frames always t0 (idle_node 0)
              reading)) = 1.
Proof.
  assert (H1 : chunk (rq reading) = true) by reflexivity.
  assert (H2 : input (idle_node 0) = EmptyString) by reflexivity.
  assert (H3 : detached (node_cache reading)) by constructor.
  assert (H4 : detached (dead_nodes reading)) by constructor.
  assert (H5 : no_crlf "D" = true) by reflexivity.
  assert (H6 : no_crlf (@digest_string sample digestD) = true)
    by reflexivity.
  assert (H7 : has_char NUL (@digest_string sample digestD) = false)
    by reflexivity.
  pose proof (@reply_completes_read sample digestD always t0 "D"
                (idle_node 0) reading H1 H2 H3 H4 H5 H6 H7) as R.
  cbv zeta in R. destruct R as (_ & R2 & R3 & _).
  split; [exact H1|]. split; [exact H2|]. split; [exact H3|].
  split; [exact H4|]. split; [exact H5|]. split; [exact H6|].
  split; [exact H7|]. split; [exact R2 | exact R3].
Defined.

Lemma request_keeps_cache_witness :
  cache_ok empty_world /\ cache_fresh empty_world /\
  @send_request sample payload0 (conf 4) digestD false write_script
    empty_world
  = (suspensions write_run, snd write_run) /\
  Forall linked_ok (suspensions write_run).
Proof.
  assert (H1 : cache_fresh empty_world) by (intros n []).
  assert (Hr : @send_request sample payload0 (conf 4) digestD false
                 write_script empty_world
               = (suspensions write_run, snd write_run))
    by (vm_compute; reflexivity).
  split; [exact empty_cache_ok|]. split; [exact H1|]. split; [exact Hr|].
  exact (proj1 (@request_keeps_cache sample payload0 (conf 4) digestD false
                  write_script empty_world (suspensions write_run)
                  (snd write_run) empty_cache_ok H1 Hr)).
Defined.

Lemma referral_adds_candidate_once_witness :
  has_char ":"%char "10.0.0.2" = false /\ has_char NUL "10.0.0.2" = false /\
  has_char NUL "7001" = false /\
  @inet_aton sample "10.0.0.2" = Some 33554442 /\
  addr_list
    (rq (snd (@proc_msg sample digestD true t0 "store_node 10.0.0.2:7001"
                (idle_node 0) (holding (idle_node 0)))))
  = [peerB].
Proof.
  assert (H1 : has_char ":"%char "10.0.0.2" = false) by reflexivity.
  assert (H2 : has_char NUL "10.0.0.2" = false) by reflexivity.
  assert (H3 : has_char NUL "7001" = false) by reflexivity.
  assert (H4 : @inet_aton sample "10.0.0.2" = Some 33554442) by reflexivity.
  pose proof (@referral_adds_candidate_once sample digestD t0 "10.0.0.2"
                "7001" 33554442 (idle_node 0) (holding (idle_node 0))
                H1 H2 H3 H4) as R.
  cbv zeta in R. destruct R as (_ & _ & _ & R4 & _).
  split; [exact H1|]. split; [exact H2|]. split; [exact H3|].
  split; [exact H4|].
  apply R4. intros [].
Defined.


Lemma chunk_call_results_witness :
  0 < @CHUNK_SIZE sample /\
  @zdb_read_chunk sample digestD (conf 4) read_script empty_world
  = (suspensions read_run, Some (@CHUNK_SIZE sample, final_world read_run)) /\
  e_evbuf_ok read_script <> false.
Proof.
  assert (H0 : 0 < @CHUNK_SIZE sample) by reflexivity.
  assert (Hr : @zdb_read_chunk sample digestD (conf 4) read_script empty_world
               = (suspensions read_run,
                  Some (@CHUNK_SIZE sample, final_world read_run)))
    by (vm_compute; reflexivity).
  split; [exact H0|]. split; [exact Hr|].
  intro E.
  apply (proj2 (proj1 (proj2 (@chunk_call_results sample None digestD (conf 4)
                  read_script empty_world (suspensions read_run)
                  (@CHUNK_SIZE sample) (final_world read_run) H0 Hr)))) in E.
  discriminate E.
Defined.

Lemma find_node_verdicts_witness :
  fst (find_node t0 peerA dead_world) = Dead /\
  exists d, In d (dead_nodes dead_world) /\ node_is_addr d peerA = true /\
            timercmp_gt t0 (stamp d) = false.
Proof.
  assert (H : fst (find_node t0 peerA dead_world) = Dead) by reflexivity.
  split; [exact H|].
  exact (proj2 (proj2 (find_node_verdicts t0 peerA dead_world) H)).
Defined.
